(** * clipdeck/studio-service: membership admission and role authority

    A shallow embedding of the service layer of the studio service
    (membershipService, inviteService, waitlistService, studioService and
    lib/errors) together with the properties its specification states about
    it.

    The service functions are asynchronous TypeScript functions that talk to
    a relational store through the Prisma client.  Every [await] on a client
    call is a point where other requests may run, so a service function is
    embedded as a _program_: a tree whose nodes are the store calls it
    issues, in the order the source issues them.  A program can be run to
    completion on a store ([run]) or advanced one store call at a time next
    to other in-flight requests ([step]). *)

From Stdlib Require Import List String Ascii Bool Arith NArith Lia.
From Stdlib Require Import DecimalString.
Import ListNotations.
Open Scope string_scope.

Set Implicit Arguments.

(* ================================================================== *)
(** * Enumerations of the data model *)

Inductive StudioRole := OWNER | MODERATOR | MEMBER.
Inductive StudioJoinType := OPEN | INVITE_ONLY | WAITLIST.

(** Status of an invite: ['PENDING' | 'ACCEPTED' | 'REJECTED']. *)
Module InviteStatus.
Inductive t := PENDING | ACCEPTED | REJECTED.
Definition eqb (a b : t) : bool :=
  match a, b with
  | PENDING, PENDING | ACCEPTED, ACCEPTED | REJECTED, REJECTED => true
  | _, _ => false
  end.
End InviteStatus.

(** [StudioJoinRequestStatus], shared by join requests and waitlist
    responses: ['PENDING' | 'APPROVED' | 'REJECTED']. *)
Module RequestStatus.
Inductive t := PENDING | APPROVED | REJECTED.
Definition eqb (a b : t) : bool :=
  match a, b with
  | PENDING, PENDING | APPROVED, APPROVED | REJECTED, REJECTED => true
  | _, _ => false
  end.
End RequestStatus.

Definition StudioRole_eqb (a b : StudioRole) : bool :=
  match a, b with
  | OWNER, OWNER | MODERATOR, MODERATOR | MEMBER, MEMBER => true
  | _, _ => false
  end.

(* ================================================================== *)
(** * Rows of the store

    Only the columns the service layer reads or writes are kept; timestamps
    ([joinedAt], [createdAt]) and the presentational columns of a studio
    (description, category, language, logo) play no part in admission. *)

Record Studio := mkStudio {
  studio_id : string;
  studio_name : string;
  studio_slug : string;
  studio_joinType : StudioJoinType
}.

Record StudioMember := mkMember {
  member_studioId : string;
  member_userId : string;
  member_role : StudioRole
}.

Record StudioInvite := mkInvite {
  invite_id : string;
  invite_studioId : string;
  invite_userId : string;
  invite_status : InviteStatus.t;
  invite_role : StudioRole
}.

Record StudioJoinRequest := mkJoinRequest {
  request_id : string;
  request_studioId : string;
  request_userId : string;
  request_status : RequestStatus.t;
  request_message : option string
}.

(** An answer is a [{questionId, answer}] pair, opaque to the service. *)
Definition Answers := list (string * string).

Record StudioWaitlistResponse := mkResponse {
  response_id : string;
  response_studioId : string;
  response_userId : string;
  response_answers : Answers;
  response_status : RequestStatus.t
}.

Record Store := mkStore {
  studios : list Studio;
  members : list StudioMember;
  invites : list StudioInvite;
  joinRequests : list StudioJoinRequest;
  waitlistResponses : list StudioWaitlistResponse;
  nextId : N
}.

Definition empty_store : Store := mkStore [] [] [] [] [] 0.

(* ================================================================== *)
(** * Errors (lib/errors.ts)

    The optional [details] of a [ServiceError] are never set by the service
    layer and are left out. *)

Record ServiceError := mkServiceError {
  statusCode : nat;
  code : string;
  message : string
}.

Definition notFound (message : string) : ServiceError :=
  mkServiceError 404 "NOT_FOUND" message.
Definition badRequest (message : string) : ServiceError :=
  mkServiceError 400 "BAD_REQUEST" message.
Definition unauthorized (message : string) : ServiceError :=
  mkServiceError 401 "UNAUTHORIZED" message.
Definition forbidden (message : string) : ServiceError :=
  mkServiceError 403 "FORBIDDEN" message.
Definition conflict (message : string) : ServiceError :=
  mkServiceError 409 "CONFLICT" message.

(** What the Prisma client throws when a statement is refused by the store:
    [P2002] is a unique-constraint violation on the named model, [P2025] a
    write whose target row does not exist, [P2003] a delete of a row that
    others still reference, [P2020] a number outside the range of its
    column.  None is a [ServiceError]. *)
Inductive PrismaError :=
| P2002 (model : string)
| P2025 (model : string)
| P2003 (model : string)
| P2020 (model : string).

(** Everything a service function can throw. *)
Inductive Error :=
| ServiceErr (e : ServiceError)
| PrismaClientKnownRequestError (e : PrismaError).

(** The body [sendError] writes, with the HTTP status it sets. *)
Record Reply := mkReply {
  reply_status : nat;
  reply_code : string;
  reply_message : string
}.

Definition sendError (error : Error) : Reply :=
  match error with
  | ServiceErr e => mkReply (statusCode e) (code e) (message e)
  | _ => mkReply 500 "INTERNAL_ERROR" "An unexpected error occurred"
  end.

(* ================================================================== *)
(** * The store

    Tables are lists of rows in insertion order.  The helpers below are the
    row-level operations every table shares. *)

Section Table.
Variable A : Type.
Variable p : A -> bool.

(** Rewrite the first row selected by [p]; [None] when no row is. *)
Fixpoint update_first (f : A -> A) (l : list A) : option (A * list A) :=
  match l with
  | [] => None
  | x :: r =>
      if p x then Some (f x, f x :: r)
      else match update_first f r with
           | Some (y, r') => Some (y, x :: r')
           | None => None
           end
  end.

(** Drop the first row selected by [p]; [None] when no row is. *)
Fixpoint remove_first (l : list A) : option (A * list A) :=
  match l with
  | [] => None
  | x :: r =>
      if p x then Some (x, r)
      else match remove_first r with
           | Some (y, r') => Some (y, x :: r')
           | None => None
           end
  end.
End Table.

(** Row selectors: the [where] clauses the source uses. *)
Definition studio_has_id (id : string) (s : Studio) : bool := studio_id s =? id.
Definition studio_has_slug (slug : string) (s : Studio) : bool := studio_slug s =? slug.
Definition member_is (studioId userId : string) (m : StudioMember) : bool :=
  (member_studioId m =? studioId) && (member_userId m =? userId).
Definition invite_has_id (id : string) (i : StudioInvite) : bool := invite_id i =? id.
Definition invite_is (studioId userId : string) (i : StudioInvite) : bool :=
  (invite_studioId i =? studioId) && (invite_userId i =? userId).
Definition request_has_id (id : string) (r : StudioJoinRequest) : bool := request_id r =? id.
Definition request_is (studioId userId : string) (r : StudioJoinRequest) : bool :=
  (request_studioId r =? studioId) && (request_userId r =? userId).
Definition response_has_id (id : string) (r : StudioWaitlistResponse) : bool :=
  response_id r =? id.
Definition response_is (studioId userId : string) (r : StudioWaitlistResponse) : bool :=
  (response_studioId r =? studioId) && (response_userId r =? userId).

(** Identifiers the store generates for new rows: one fresh string per
    value of the store's counter. *)
Definition cuid (n : N) : string := "c" ++ NilEmpty.string_of_uint (N.to_uint n).

(** Field setters on rows and on the store. *)
Definition set_joinType (j : StudioJoinType) (s : Studio) : Studio :=
  mkStudio (studio_id s) (studio_name s) (studio_slug s) j.
Definition set_name (n : string) (s : Studio) : Studio :=
  mkStudio (studio_id s) n (studio_slug s) (studio_joinType s).
Definition set_member_role (r : StudioRole) (m : StudioMember) : StudioMember :=
  mkMember (member_studioId m) (member_userId m) r.
Definition set_invite (st : InviteStatus.t) (role : option StudioRole)
    (i : StudioInvite) : StudioInvite :=
  mkInvite (invite_id i) (invite_studioId i) (invite_userId i) st
           (match role with Some r => r | None => invite_role i end).
Definition set_request (st : RequestStatus.t) (msg : option string)
    (r : StudioJoinRequest) : StudioJoinRequest :=
  mkJoinRequest (request_id r) (request_studioId r) (request_userId r) st
                (match msg with Some m => Some m | None => request_message r end).
Definition set_response (answers : option Answers) (st : RequestStatus.t)
    (r : StudioWaitlistResponse) : StudioWaitlistResponse :=
  mkResponse (response_id r) (response_studioId r) (response_userId r)
             (match answers with Some a => a | None => response_answers r end) st.

Definition with_studios (l : list Studio) (s : Store) : Store :=
  mkStore l (members s) (invites s) (joinRequests s) (waitlistResponses s) (nextId s).
Definition with_members (l : list StudioMember) (s : Store) : Store :=
  mkStore (studios s) l (invites s) (joinRequests s) (waitlistResponses s) (nextId s).
Definition with_invites (l : list StudioInvite) (s : Store) : Store :=
  mkStore (studios s) (members s) l (joinRequests s) (waitlistResponses s) (nextId s).
Definition with_joinRequests (l : list StudioJoinRequest) (s : Store) : Store :=
  mkStore (studios s) (members s) (invites s) l (waitlistResponses s) (nextId s).
Definition with_waitlistResponses (l : list StudioWaitlistResponse) (s : Store) : Store :=
  mkStore (studios s) (members s) (invites s) (joinRequests s) l (nextId s).
Definition bump (s : Store) : Store :=
  mkStore (studios s) (members s) (invites s) (joinRequests s) (waitlistResponses s)
          (N.succ (nextId s)).

(** A nested write on the memberships of the studio an update is for: an
    entry under the [members] key of the update's [data]. *)
Inductive MemberWrite :=
| members_create (userId : string) (role : StudioRole)
| members_update (userId : string) (role : StudioRole)
| members_delete (userId : string)
| members_deleteMany (role : option StudioRole).

(** What becomes of the rows that reference a studio when the studio is
    deleted: they go with it, or they make the store refuse the delete. *)
Inductive ReferentialAction := Cascade | Restrict.

(** The Prisma client calls the service layer issues.  The index is the
    type of the value the awaited call resolves to.  A field passed as
    [undefined] in an update's [data] is left as it is, which is what the
    [option] arguments of the update calls stand for. *)
Inductive PrismaOp : Type -> Type :=
| studio_findUnique_id (id : string) : PrismaOp (option Studio)
| studio_findUnique_slug (slug : string) : PrismaOp (option Studio)
| studio_create (name slug : string) (joinType : StudioJoinType) : PrismaOp Studio
| studio_update (id : string) (name : option string)
    (joinType : option StudioJoinType) (writes : list MemberWrite) : PrismaOp Studio
| studio_delete (onDelete : ReferentialAction) (id : string) : PrismaOp Studio
| studioMember_findUnique (studioId userId : string) : PrismaOp (option StudioMember)
| studioMember_create (studioId userId : string) (role : StudioRole) : PrismaOp StudioMember
| studioMember_update (studioId userId : string) (role : StudioRole) : PrismaOp StudioMember
| studioMember_delete (studioId userId : string) : PrismaOp StudioMember
| studioInvite_findUnique_id (id : string) : PrismaOp (option StudioInvite)
| studioInvite_findUnique (studioId userId : string) : PrismaOp (option StudioInvite)
| studioInvite_create (studioId userId : string) (role : StudioRole) : PrismaOp StudioInvite
| studioInvite_update (id : string) (status : InviteStatus.t)
    (role : option StudioRole) : PrismaOp StudioInvite
| studioJoinRequest_findUnique_id (id : string) : PrismaOp (option StudioJoinRequest)
| studioJoinRequest_findUnique (studioId userId : string) : PrismaOp (option StudioJoinRequest)
| studioJoinRequest_create (studioId userId : string)
    (message : option string) : PrismaOp StudioJoinRequest
| studioJoinRequest_update (id : string) (status : RequestStatus.t)
    (message : option string) : PrismaOp StudioJoinRequest
| studioWaitlistResponse_findUnique_id (id : string) : PrismaOp (option StudioWaitlistResponse)
| studioWaitlistResponse_findUnique (studioId userId : string)
    : PrismaOp (option StudioWaitlistResponse)
| studioWaitlistResponse_create (studioId userId : string)
    (answers : Answers) : PrismaOp StudioWaitlistResponse
| studioWaitlistResponse_update_id (id : string)
    (status : RequestStatus.t) : PrismaOp StudioWaitlistResponse
| studioWaitlistResponse_update (studioId userId : string) (answers : Answers)
    (status : RequestStatus.t) : PrismaOp StudioWaitlistResponse
| transaction2 {X Y : Type} (a : PrismaOp X) (b : PrismaOp Y) : PrismaOp (X * Y).

(** Modelled from the spec: what a nested write does to the memberships
    of studio [studioId].  A create is refused for a pair that has a row,
    an update or delete of an absent row is refused, and [deleteMany]
    deletes the studio's memberships with the role given, or all of them
    when none is given. *)
Definition member_write (studioId : string) (w : MemberWrite) (s : Store)
    : PrismaError + Store :=
  match w with
  | members_create userId role =>
      if existsb (member_is studioId userId) (members s) then inl (P2002 "StudioMember")
      else inr (with_members (members s ++ [mkMember studioId userId role]) s)
  | members_update userId role =>
      match update_first (member_is studioId userId) (set_member_role role) (members s) with
      | Some (_, l) => inr (with_members l s)
      | None => inl (P2025 "StudioMember")
      end
  | members_delete userId =>
      match remove_first (member_is studioId userId) (members s) with
      | Some (_, l) => inr (with_members l s)
      | None => inl (P2025 "StudioMember")
      end
  | members_deleteMany role =>
      let selected m :=
        (member_studioId m =? studioId)
        && match role with
           | Some r => StudioRole_eqb (member_role m) r
           | None => true
           end in
      inr (with_members (filter (fun m => negb (selected m)) (members s)) s)
  end.

Fixpoint member_writes (studioId : string) (ws : list MemberWrite) (s : Store)
    : PrismaError + Store :=
  match ws with
  | [] => inr s
  | w :: rest =>
      match member_write studioId w s with
      | inl e => inl e
      | inr s' => member_writes studioId rest s'
      end
  end.

(** Whether a membership, invite, join request or waitlist response names
    the studio [id]. *)
Definition referenced (id : string) (s : Store) : bool :=
  existsb (fun m => member_studioId m =? id) (members s)
  || existsb (fun i => invite_studioId i =? id) (invites s)
  || existsb (fun r => request_studioId r =? id) (joinRequests s)
  || existsb (fun r => response_studioId r =? id) (waitlistResponses s).

(** The store without the rows that name the studio [id]. *)
Definition without_studio (id : string) (s : Store) : Store :=
  mkStore (filter (fun st => negb (studio_id st =? id)) (studios s))
          (filter (fun m => negb (member_studioId m =? id)) (members s))
          (filter (fun i => negb (invite_studioId i =? id)) (invites s))
          (filter (fun r => negb (request_studioId r =? id)) (joinRequests s))
          (filter (fun r => negb (response_studioId r =? id)) (waitlistResponses s))
          (nextId s).

(** Modelled from the spec: the Prisma schema (prisma/schema.prisma) and the
    client generated from it are not among the sources.  The store is the
    "transactional relational store" of the specification: a create is
    refused with [P2002] when the (studioId, userId) pair of a membership,
    invite, join request or waitlist response, or the slug of a studio, is
    already taken (these are the compound keys [studioId_userId] and the
    [slug] the source passes to [findUnique]); an update or delete of an
    absent row is refused with [P2025]; a refused statement changes
    nothing; [$transaction([a, b])] applies [a] then [b] and keeps the
    result only when both are accepted.  New invites, requests and
    responses start as PENDING.  An update of a studio carries out the
    nested writes of its [members] key after the studio row, in the order
    given and as one transaction with it.  A delete of a studio takes
    the rows that name the studio with it when the schema declares their
    reference [onDelete: Cascade], and is refused with [P2003] while such
    rows exist when it does not; which of the two the schema declares is
    an argument of the call. *)
Fixpoint exec {X : Type} (op : PrismaOp X) (s : Store) : PrismaError + (X * Store) :=
  match op in PrismaOp X return PrismaError + (X * Store) with
  | studio_findUnique_id id => inr (find (studio_has_id id) (studios s), s)
  | studio_findUnique_slug slug => inr (find (studio_has_slug slug) (studios s), s)
  | studio_create name slug joinType =>
      if existsb (studio_has_slug slug) (studios s) then inl (P2002 "Studio")
      else let row := mkStudio (cuid (nextId s)) name slug joinType in
           inr (row, bump (with_studios (studios s ++ [row]) s))
  | studio_update id name joinType writes =>
      let f row :=
        let row := match name with Some n => set_name n row | None => row end in
        match joinType with Some j => set_joinType j row | None => row end in
      match update_first (studio_has_id id) f (studios s) with
      | Some (row, l) =>
          match member_writes id writes (with_studios l s) with
          | inr s' => inr (row, s')
          | inl e => inl e
          end
      | None => inl (P2025 "Studio")
      end
  | studio_delete onDelete id =>
      match find (studio_has_id id) (studios s) with
      | Some row =>
          match onDelete with
          | Cascade => inr (row, without_studio id s)
          | Restrict =>
              if referenced id s then inl (P2003 "Studio")
              else inr (row, with_studios
                               (filter (fun st => negb (studio_id st =? id)) (studios s)) s)
          end
      | None => inl (P2025 "Studio")
      end
  | studioMember_findUnique studioId userId =>
      inr (find (member_is studioId userId) (members s), s)
  | studioMember_create studioId userId role =>
      if existsb (member_is studioId userId) (members s) then inl (P2002 "StudioMember")
      else let row := mkMember studioId userId role in
           inr (row, with_members (members s ++ [row]) s)
  | studioMember_update studioId userId role =>
      match update_first (member_is studioId userId) (set_member_role role) (members s) with
      | Some (row, l) => inr (row, with_members l s)
      | None => inl (P2025 "StudioMember")
      end
  | studioMember_delete studioId userId =>
      match remove_first (member_is studioId userId) (members s) with
      | Some (row, l) => inr (row, with_members l s)
      | None => inl (P2025 "StudioMember")
      end
  | studioInvite_findUnique_id id => inr (find (invite_has_id id) (invites s), s)
  | studioInvite_findUnique studioId userId =>
      inr (find (invite_is studioId userId) (invites s), s)
  | studioInvite_create studioId userId role =>
      if existsb (invite_is studioId userId) (invites s) then inl (P2002 "StudioInvite")
      else let row := mkInvite (cuid (nextId s)) studioId userId InviteStatus.PENDING role in
           inr (row, bump (with_invites (invites s ++ [row]) s))
  | studioInvite_update id status role =>
      match update_first (invite_has_id id) (set_invite status role) (invites s) with
      | Some (row, l) => inr (row, with_invites l s)
      | None => inl (P2025 "StudioInvite")
      end
  | studioJoinRequest_findUnique_id id => inr (find (request_has_id id) (joinRequests s), s)
  | studioJoinRequest_findUnique studioId userId =>
      inr (find (request_is studioId userId) (joinRequests s), s)
  | studioJoinRequest_create studioId userId message =>
      if existsb (request_is studioId userId) (joinRequests s)
      then inl (P2002 "StudioJoinRequest")
      else let row := mkJoinRequest (cuid (nextId s)) studioId userId
                                    RequestStatus.PENDING message in
           inr (row, bump (with_joinRequests (joinRequests s ++ [row]) s))
  | studioJoinRequest_update id status message =>
      match update_first (request_has_id id) (set_request status message) (joinRequests s) with
      | Some (row, l) => inr (row, with_joinRequests l s)
      | None => inl (P2025 "StudioJoinRequest")
      end
  | studioWaitlistResponse_findUnique_id id =>
      inr (find (response_has_id id) (waitlistResponses s), s)
  | studioWaitlistResponse_findUnique studioId userId =>
      inr (find (response_is studioId userId) (waitlistResponses s), s)
  | studioWaitlistResponse_create studioId userId answers =>
      if existsb (response_is studioId userId) (waitlistResponses s)
      then inl (P2002 "StudioWaitlistResponse")
      else let row := mkResponse (cuid (nextId s)) studioId userId answers
                                 RequestStatus.PENDING in
           inr (row, bump (with_waitlistResponses (waitlistResponses s ++ [row]) s))
  | studioWaitlistResponse_update_id id status =>
      match update_first (response_has_id id) (set_response None status)
                         (waitlistResponses s) with
      | Some (row, l) => inr (row, with_waitlistResponses l s)
      | None => inl (P2025 "StudioWaitlistResponse")
      end
  | studioWaitlistResponse_update studioId userId answers status =>
      match update_first (response_is studioId userId) (set_response (Some answers) status)
                         (waitlistResponses s) with
      | Some (row, l) => inr (row, with_waitlistResponses l s)
      | None => inl (P2025 "StudioWaitlistResponse")
      end
  | transaction2 a b =>
      match exec a s with
      | inl e => inl e
      | inr (x, s1) =>
          match exec b s1 with
          | inl e => inl e
          | inr (y, s2) => inr ((x, y), s2)
          end
      end
  end.

(* ================================================================== *)
(** * Programs: asynchronous functions over the store *)

Inductive Prog (R : Type) : Type :=
| Ret (r : R)
| Throw (e : Error)
| Call {X : Type} (op : PrismaOp X) (k : X -> Prog R).

Arguments Ret {R} r.
Arguments Throw {R} e.
Arguments Call {R X} op k.

Fixpoint bind {A B : Type} (p : Prog A) (f : A -> Prog B) : Prog B :=
  match p with
  | Ret a => f a
  | Throw e => Throw e
  | Call op k => Call op (fun x => bind (k x) f)
  end.

Definition await {X : Type} (op : PrismaOp X) : Prog X := Call op Ret.
Definition throw {R : Type} (e : ServiceError) : Prog R := Throw (ServiceErr e).

Declare Scope prog_scope.
Delimit Scope prog_scope with prog.
Notation "x <- p ;; k" := (bind p (fun x => k))
  (at level 61, p at next level, right associativity) : prog_scope.
Notation "p ;; k" := (bind p (fun _ => k))
  (at level 61, right associativity) : prog_scope.
Open Scope prog_scope.

(** How an awaited call settles. *)
Inductive Outcome (R : Type) : Type :=
| Resolved (r : R)
| Threw (e : Error).
Arguments Resolved {R} r.
Arguments Threw {R} e.

(** One store call of a program, on the store as it is at that moment. *)
Definition step {R : Type} (p : Prog R) (s : Store) : Prog R * Store :=
  match p with
  | Call op k =>
      match exec op s with
      | inl e => (Throw (PrismaClientKnownRequestError e), s)
      | inr (x, s') => (k x, s')
      end
  | _ => (p, s)
  end.

(** A program run to completion with no other request in between. *)
Fixpoint run {R : Type} (p : Prog R) (s : Store) : Outcome R * Store :=
  match p with
  | Ret r => (Resolved r, s)
  | Throw e => (Threw e, s)
  | Call op k =>
      match exec op s with
      | inl e => (Threw (PrismaClientKnownRequestError e), s)
      | inr (x, s') => run (k x) s'
      end
  end.

(* ================================================================== *)
(** * services/membershipService.ts *)

(** The test [!role || (role !== 'OWNER' && role !== 'MODERATOR')]. *)
Definition not_staff (role : option StudioRole) : bool :=
  match role with
  | None => true
  | Some r => negb (StudioRole_eqb r OWNER) && negb (StudioRole_eqb r MODERATOR)
  end.

Definition getMemberRole (studioId userId : string) : Prog (option StudioRole) :=
  member <- await (studioMember_findUnique studioId userId) ;;
  Ret (option_map member_role member).

(** [{ joined: true, member }] or [{ joined: false, request }]. *)
Inductive JoinResult :=
| Joined (member : StudioMember)
| Requested (request : StudioJoinRequest).

Definition joined (r : JoinResult) : bool :=
  match r with Joined _ => true | Requested _ => false end.

Definition requestToJoin (studioId userId : string) (message : option string)
    : Prog JoinResult :=
  studio <- await (studio_findUnique_id studioId) ;;
  match studio with
  | None => throw (notFound ("Studio " ++ studioId ++ " not found"))
  | Some studio =>
  existingMember <- await (studioMember_findUnique studioId userId) ;;
  match existingMember with
  | Some _ => throw (conflict "You are already a member of this studio")
  | None =>
  match studio_joinType studio with
  | INVITE_ONLY => throw (forbidden "This studio is invite-only")
  | OPEN =>
      member <- await (studioMember_create studioId userId MEMBER) ;;
      Ret (Joined member)
  | WAITLIST =>
      existingRequest <- await (studioJoinRequest_findUnique studioId userId) ;;
      let create :=
        request <- await (studioJoinRequest_create studioId userId message) ;;
        Ret (Requested request) in
      match existingRequest with
      | None => create
      | Some existingRequest =>
          match request_status existingRequest with
          | RequestStatus.PENDING =>
              throw (conflict "You already have a pending join request")
          | RequestStatus.REJECTED =>
              updated <- await (studioJoinRequest_update (request_id existingRequest)
                                  RequestStatus.PENDING message) ;;
              Ret (Requested updated)
          | RequestStatus.APPROVED => create
          end
      end
  end end end.

Definition approveRequest (studioId requestId approverId : string)
    : Prog (StudioJoinRequest * StudioMember) :=
  approverRole <- getMemberRole studioId approverId ;;
  if not_staff approverRole
  then throw (forbidden "Only owners and moderators can approve join requests")
  else
  joinRequest <- await (studioJoinRequest_findUnique_id requestId) ;;
  match joinRequest with
  | None => throw (notFound "Join request not found")
  | Some joinRequest =>
  if negb (request_studioId joinRequest =? studioId)
  then throw (badRequest "Request does not belong to this studio")
  else if negb (RequestStatus.eqb (request_status joinRequest) RequestStatus.PENDING)
  then throw (conflict "Request is not pending")
  else
  await (transaction2
           (studioJoinRequest_update requestId RequestStatus.APPROVED None)
           (studioMember_create studioId (request_userId joinRequest) MEMBER))
  end.

Definition rejectRequest (studioId requestId approverId : string)
    : Prog StudioJoinRequest :=
  approverRole <- getMemberRole studioId approverId ;;
  if not_staff approverRole
  then throw (forbidden "Only owners and moderators can reject join requests")
  else
  joinRequest <- await (studioJoinRequest_findUnique_id requestId) ;;
  match joinRequest with
  | None => throw (notFound "Join request not found")
  | Some joinRequest =>
  if negb (request_studioId joinRequest =? studioId)
  then throw (badRequest "Request does not belong to this studio")
  else if negb (RequestStatus.eqb (request_status joinRequest) RequestStatus.PENDING)
  then throw (conflict "Request is not pending")
  else await (studioJoinRequest_update requestId RequestStatus.REJECTED None)
  end.

Definition removeMember (studioId userId removerId : string) : Prog unit :=
  removerRole <- getMemberRole studioId removerId ;;
  if not_staff removerRole
  then throw (forbidden "Only owners and moderators can remove members")
  else
  member <- await (studioMember_findUnique studioId userId) ;;
  match member with
  | None => throw (notFound "Member not found")
  | Some member =>
  match removerRole, member_role member with
  | Some MODERATOR, (OWNER | MODERATOR) =>
      throw (forbidden "Moderators cannot remove owners or other moderators")
  | _, _ =>
  if StudioRole_eqb (member_role member) OWNER && (userId =? removerId)
  then throw (badRequest
    "Owners cannot remove themselves. Use leave instead after transferring ownership.")
  else
  await (studioMember_delete studioId userId) ;;
  Ret tt
  end end.

Definition updateMemberRole (studioId userId : string) (role : StudioRole)
    (updaterId : string) : Prog StudioMember :=
  updaterRole <- getMemberRole studioId updaterId ;;
  match updaterRole with
  | Some OWNER =>
  member <- await (studioMember_findUnique studioId userId) ;;
  match member with
  | None => throw (notFound "Member not found")
  | Some _ =>
  if userId =? updaterId
  then throw (badRequest "Cannot change your own role")
  else if StudioRole_eqb role OWNER
  then throw (badRequest "Cannot promote to OWNER. Use ownership transfer instead.")
  else await (studioMember_update studioId userId role)
  end
  | _ => throw (forbidden "Only the studio owner can change member roles")
  end.

Definition leaveStudio (studioId userId : string) : Prog unit :=
  member <- await (studioMember_findUnique studioId userId) ;;
  match member with
  | None => throw (notFound "You are not a member of this studio")
  | Some member =>
  if StudioRole_eqb (member_role member) OWNER
  then throw (badRequest "Owners cannot leave the studio. Transfer ownership first.")
  else
  await (studioMember_delete studioId userId) ;;
  Ret tt
  end.

(* ================================================================== *)
(** * services/inviteService.ts *)

Definition inviteUser (studioId inviterId userId : string) (role : option StudioRole)
    : Prog StudioInvite :=
  inviterRole <- getMemberRole studioId inviterId ;;
  if not_staff inviterRole
  then throw (forbidden "Only owners and moderators can invite users")
  else
  let inviteRole := match role with Some r => r | None => MEMBER end in
  if StudioRole_eqb inviteRole OWNER
  then throw (badRequest "Cannot invite as OWNER")
  else
  match inviterRole, inviteRole with
  | Some MODERATOR, MODERATOR => throw (forbidden "Moderators cannot invite other moderators")
  | _, _ =>
  existingMember <- await (studioMember_findUnique studioId userId) ;;
  match existingMember with
  | Some _ => throw (conflict "User is already a member of this studio")
  | None =>
  existingInvite <- await (studioInvite_findUnique studioId userId) ;;
  match existingInvite with
  | Some existingInvite =>
      if InviteStatus.eqb (invite_status existingInvite) InviteStatus.PENDING
      then throw (conflict "User already has a pending invite")
      else await (studioInvite_update (invite_id existingInvite)
                    InviteStatus.PENDING (Some inviteRole))
  | None => await (studioInvite_create studioId userId inviteRole)
  end end end.

(** [{ invite, member }] on accept, [{ invite }] on reject. *)
Definition respondToInvite (inviteId userId : string) (accept : bool)
    : Prog (StudioInvite * option StudioMember) :=
  invite <- await (studioInvite_findUnique_id inviteId) ;;
  match invite with
  | None => throw (notFound "Invite not found")
  | Some invite =>
  if negb (invite_userId invite =? userId)
  then throw (forbidden "This invite is not for you")
  else if negb (InviteStatus.eqb (invite_status invite) InviteStatus.PENDING)
  then throw (conflict "Invite is no longer pending")
  else
  if accept then
    existingMember <- await (studioMember_findUnique (invite_studioId invite) userId) ;;
    match existingMember with
    | Some _ =>
        await (studioInvite_update inviteId InviteStatus.ACCEPTED None) ;;
        throw (conflict "You are already a member of this studio")
    | None =>
        res <- await (transaction2
                        (studioInvite_update inviteId InviteStatus.ACCEPTED None)
                        (studioMember_create (invite_studioId invite) userId
                                             (invite_role invite))) ;;
        Ret (fst res, Some (snd res))
    end
  else
    updatedInvite <- await (studioInvite_update inviteId InviteStatus.REJECTED None) ;;
    Ret (updatedInvite, None)
  end.

(* ================================================================== *)
(** * services/waitlistService.ts *)

(** The [status] argument of a review: ['APPROVED' | 'REJECTED']. *)
Module Review.
Inductive t := APPROVED | REJECTED.
Definition status (r : t) : RequestStatus.t :=
  match r with
  | APPROVED => RequestStatus.APPROVED
  | REJECTED => RequestStatus.REJECTED
  end.
End Review.

Definition submitResponse (studioId userId : string) (answers : Answers)
    : Prog StudioWaitlistResponse :=
  studio <- await (studio_findUnique_id studioId) ;;
  match studio with
  | None => throw (notFound ("Studio " ++ studioId ++ " not found"))
  | Some studio =>
  match studio_joinType studio with
  | WAITLIST =>
  existingMember <- await (studioMember_findUnique studioId userId) ;;
  match existingMember with
  | Some _ => throw (conflict "You are already a member of this studio")
  | None =>
  existing <- await (studioWaitlistResponse_findUnique studioId userId) ;;
  match existing with
  | Some existing =>
      if RequestStatus.eqb (response_status existing) RequestStatus.PENDING
      then throw (conflict "You already have a pending application")
      else await (studioWaitlistResponse_update studioId userId answers
                    RequestStatus.PENDING)
  | None => await (studioWaitlistResponse_create studioId userId answers)
  end end
  | _ => throw (badRequest "This studio does not use a waitlist")
  end end.

Definition reviewResponse (responseId userId : string) (status : Review.t)
    : Prog StudioWaitlistResponse :=
  response <- await (studioWaitlistResponse_findUnique_id responseId) ;;
  match response with
  | None => throw (notFound "Waitlist response not found")
  | Some response =>
  role <- getMemberRole (response_studioId response) userId ;;
  if not_staff role
  then throw (forbidden "Only owners and moderators can review waitlist responses")
  else if negb (RequestStatus.eqb (response_status response) RequestStatus.PENDING)
  then throw (conflict "Response has already been reviewed")
  else
  updated <- await (studioWaitlistResponse_update_id responseId (Review.status status)) ;;
  match status with
  | Review.APPROVED =>
      await (studioMember_create (response_studioId response)
                                 (response_userId response) MEMBER) ;;
      Ret updated
  | Review.REJECTED => Ret updated
  end
  end.

(* ================================================================== *)
(** * services/studioService.ts *)

Definition dquote : string := String (ascii_of_nat 34) EmptyString.

(** [joinType] defaults to WAITLIST when the caller gives none. *)
Definition createStudio (ownerId name slug : string) (joinType : option StudioJoinType)
    : Prog Studio :=
  existing <- await (studio_findUnique_slug slug) ;;
  match existing with
  | Some _ =>
      throw (conflict ("Studio with slug " ++ dquote ++ slug ++ dquote ++ " already exists"))
  | None =>
  studio <- await (studio_create name slug
                     (match joinType with Some j => j | None => WAITLIST end)) ;;
  await (studioMember_create (studio_id studio) ownerId OWNER) ;;
  Ret studio
  end.

(** The [data] of [updateStudio], an object with any keys.  [data_id] and
    [data_slug] are two of the four keys the function takes out before the
    update ([createdAt] and [updatedAt] are the other two); every other
    key is passed on to the store as it is.  Of the scalar fields passed
    on, the name and the join type are the ones the rows here carry;
    [data_members] is what the [members] key holds, the nested writes on
    the studio's memberships.  [members] is the one relation of a studio
    the sources name (in the member count of [getStudio]); keys of
    relations they do not name are left out of the record. *)
Record StudioData := mkStudioData {
  data_id : option string;
  data_slug : option string;
  data_name : option string;
  data_joinType : option StudioJoinType;
  data_members : list MemberWrite
}.

Definition updateStudio (studioId userId : string) (data : StudioData) : Prog Studio :=
  member <- await (studioMember_findUnique studioId userId) ;;
  if not_staff (option_map member_role member)
  then throw (forbidden "Only studio owners and moderators can update the studio")
  else await (studio_update studioId (data_name data) (data_joinType data)
                            (data_members data)).

(** [onDelete] is what the schema declares for the references to a
    studio; the function itself has the studio and the user as
    arguments. *)
Definition deleteStudio (onDelete : ReferentialAction) (studioId userId : string)
    : Prog unit :=
  member <- await (studioMember_findUnique studioId userId) ;;
  match member with
  | None => throw (forbidden "Only the studio owner can delete the studio")
  | Some member =>
  if negb (StudioRole_eqb (member_role member) OWNER)
  then throw (forbidden "Only the studio owner can delete the studio")
  else
  await (studio_delete onDelete studioId) ;;
  Ret tt
  end.

(* ================================================================== *)
(** * The running service

    Requests are handled concurrently: each one is a program of its own and
    the store is the only thing they share.  A system is the store plus the
    requests in flight; an event either takes in a new request or lets one
    request in flight perform its next store call. *)

Inductive Request :=
| CreateStudio (ownerId name slug : string) (joinType : option StudioJoinType)
| UpdateStudio (studioId userId : string) (data : StudioData)
| DeleteStudio (onDelete : ReferentialAction) (studioId userId : string)
| RequestToJoin (studioId userId : string) (message : option string)
| ApproveRequest (studioId requestId approverId : string)
| RejectRequest (studioId requestId approverId : string)
| RemoveMember (studioId userId removerId : string)
| UpdateMemberRole (studioId userId : string) (role : StudioRole) (updaterId : string)
| LeaveStudio (studioId userId : string)
| InviteUser (studioId inviterId userId : string) (role : option StudioRole)
| RespondToInvite (inviteId userId : string) (accept : bool)
| SubmitResponse (studioId userId : string) (answers : Answers)
| ReviewResponse (responseId userId : string) (status : Review.t).

Definition settle {R : Type} (p : Prog R) : Prog unit := p ;; Ret tt.

Definition handle (r : Request) : Prog unit :=
  match r with
  | CreateStudio ownerId name slug joinType => settle (createStudio ownerId name slug joinType)
  | UpdateStudio studioId userId data => settle (updateStudio studioId userId data)
  | DeleteStudio onDelete studioId userId => deleteStudio onDelete studioId userId
  | RequestToJoin studioId userId message => settle (requestToJoin studioId userId message)
  | ApproveRequest studioId requestId approverId =>
      settle (approveRequest studioId requestId approverId)
  | RejectRequest studioId requestId approverId =>
      settle (rejectRequest studioId requestId approverId)
  | RemoveMember studioId userId removerId => removeMember studioId userId removerId
  | UpdateMemberRole studioId userId role updaterId =>
      settle (updateMemberRole studioId userId role updaterId)
  | LeaveStudio studioId userId => leaveStudio studioId userId
  | InviteUser studioId inviterId userId role =>
      settle (inviteUser studioId inviterId userId role)
  | RespondToInvite inviteId userId accept => settle (respondToInvite inviteId userId accept)
  | SubmitResponse studioId userId answers => settle (submitResponse studioId userId answers)
  | ReviewResponse responseId userId status =>
      settle (reviewResponse responseId userId status)
  end.

Record System := mkSystem {
  store : Store;
  inflight : list (Prog unit)
}.

Definition boot : System := mkSystem empty_store [].

Inductive Event :=
| Arrive (r : Request)
| Advance (i : nat).

(** Let the [i]-th request in flight perform one store call. *)
Fixpoint advance (i : nat) (ts : list (Prog unit)) (s : Store)
    : list (Prog unit) * Store :=
  match ts, i with
  | [], _ => ([], s)
  | t :: r, O => let (t', s') := step t s in (t' :: r, s')
  | t :: r, S j => let (r', s') := advance j r s in (t :: r', s')
  end.

Definition fire (sys : System) (ev : Event) : System :=
  match ev with
  | Arrive r => mkSystem (store sys) (inflight sys ++ [handle r])
  | Advance i => let (ts, s) := advance i (inflight sys) (store sys) in mkSystem s ts
  end.

Definition schedule (evs : list Event) (sys : System) : System :=
  fold_left fire evs sys.

(** Requests served one after the other, each to completion. *)
Definition serve (reqs : list Request) (s : Store) : Store :=
  fold_left (fun s r => snd (run (handle r) s)) reqs s.

(** What the caller of a settled request is sent when it failed. *)
Definition surfaced {R : Type} (o : Outcome R) : option Reply :=
  match o with
  | Resolved _ => None
  | Threw e => Some (sendError e)
  end.

(* ================================================================== *)
(** * Reading the store *)

Definition find_studio (s : Store) (id : string) : option Studio :=
  find (studio_has_id id) (studios s).
Definition find_member (s : Store) (studioId userId : string) : option StudioMember :=
  find (member_is studioId userId) (members s).
Definition find_invite (s : Store) (id : string) : option StudioInvite :=
  find (invite_has_id id) (invites s).
Definition find_invite_for (s : Store) (studioId userId : string) : option StudioInvite :=
  find (invite_is studioId userId) (invites s).
Definition find_request (s : Store) (id : string) : option StudioJoinRequest :=
  find (request_has_id id) (joinRequests s).
Definition find_request_for (s : Store) (studioId userId : string)
    : option StudioJoinRequest :=
  find (request_is studioId userId) (joinRequests s).
Definition find_response (s : Store) (id : string) : option StudioWaitlistResponse :=
  find (response_has_id id) (waitlistResponses s).

Definition role_of (s : Store) (studioId userId : string) : option StudioRole :=
  option_map member_role (find_member s studioId userId).

(** Number of membership rows held for a (studio, user) pair. *)
Definition memberships (s : Store) (studioId userId : string) : nat :=
  List.length (filter (member_is studioId userId) (members s)).

(* ================================================================== *)
(** * Vocabulary of the statements *)

(** The table after the first row selected by [p] went through [f]. *)
Definition updated_rows {A : Type} (p : A -> bool) (f : A -> A) (l : list A) : list A :=
  match update_first p f l with
  | Some (_, l') => l'
  | None => l
  end.

(** The table after the first row selected by [p] was deleted. *)
Definition remaining_rows {A : Type} (p : A -> bool) (l : list A) : list A :=
  match remove_first p l with
  | Some (_, l') => l'
  | None => l
  end.

(** The program left after [n] store calls, and the store they leave. *)
Fixpoint steps {R : Type} (n : nat) (p : Prog R) (s : Store) : Prog R * Store :=
  match n with
  | O => (p, s)
  | S m => let (p', s') := step p s in steps m p' s'
  end.

(** The membership table holds no (studio, user) pair twice. *)
Definition members_unique (s : Store) : Prop :=
  forall studioId userId, memberships s studioId userId <= 1.


(* ================================================================== *)
(** * Histories

    Stores reached from the empty one through the service's own
    operations; the concrete cases below are stated on them.  In each,
    alice creates the studio (its generated id is ["c0"]) and so owns it. *)

Module History.
(** alice owns a waitlist studio and has invited bob. *)
Definition invited : list Request :=
  [CreateStudio "alice" "Studio" "studio" None;
   InviteUser "c0" "alice" "bob" None].

(** alice owns the studio, carol moderates it, bob and dave are members. *)
Definition staffed : list Request :=
  [CreateStudio "alice" "Studio" "studio" None;
   InviteUser "c0" "alice" "carol" (Some MODERATOR);
   RespondToInvite "c1" "carol" true;
   InviteUser "c0" "alice" "bob" None;
   RespondToInvite "c2" "bob" true;
   InviteUser "c0" "alice" "dave" (Some MODERATOR);
   RespondToInvite "c3" "dave" true].

(** bob asked to join, was invited meanwhile, and got in through the
    approval of his request: his invite is still PENDING. *)
Definition invited_member : list Request :=
  [CreateStudio "alice" "Studio" "studio" None;
   RequestToJoin "c0" "bob" (Some "hi");
   InviteUser "c0" "alice" "bob" None;
   ApproveRequest "c0" "c1" "alice"].

(** bob asked to join, was invited meanwhile, and got in through the
    invite: his join request is still PENDING. *)
Definition requested_member : list Request :=
  [CreateStudio "alice" "Studio" "studio" None;
   RequestToJoin "c0" "bob" (Some "hi");
   InviteUser "c0" "alice" "bob" None;
   RespondToInvite "c2" "bob" true].

(** bob applied through the waitlist, was invited meanwhile, and got in
    through the invite: his application is still PENDING. *)
Definition applied_member : list Request :=
  [CreateStudio "alice" "Studio" "studio" None;
   SubmitResponse "c0" "bob" [("q1", "because")];
   InviteUser "c0" "alice" "bob" None;
   RespondToInvite "c2" "bob" true].

(** bob's join request was approved, then bob left the studio. *)
Definition approved_then_left : list Request :=
  [CreateStudio "alice" "Studio" "studio" None;
   RequestToJoin "c0" "bob" (Some "hi");
   ApproveRequest "c0" "c1" "alice";
   LeaveStudio "c0" "bob"].

(** bob applied through the waitlist and alice approved the application. *)
Definition approved_application : list Request :=
  [CreateStudio "alice" "Studio" "studio" None;
   SubmitResponse "c0" "bob" [("q1", "because")];
   ReviewResponse "c1" "alice" Review.APPROVED].

(** bob's join request was rejected. *)
Definition rejected_request : list Request :=
  [CreateStudio "alice" "Studio" "studio" None;
   RequestToJoin "c0" "bob" (Some "hi");
   RejectRequest "c0" "c1" "alice"].

(** bob accepted an invite, then left the studio. *)
Definition accepted_then_left : list Request :=
  [CreateStudio "alice" "Studio" "studio" None;
   InviteUser "c0" "alice" "bob" None;
   RespondToInvite "c1" "bob" true;
   LeaveStudio "c0" "bob"].

(** An open studio and an invite-only one, both owned by alice. *)
Definition open_studio : list Request :=
  [CreateStudio "alice" "Studio" "studio" (Some OPEN)].
Definition invite_only_studio : list Request :=
  [CreateStudio "alice" "Studio" "studio" (Some INVITE_ONLY)].

(** bob sends the acceptance of his invite twice; the two requests are
    handled side by side and both pass their checks before either
    writes. *)
Definition double_accept : list Event :=
  [Arrive (CreateStudio "alice" "Studio" "studio" None);
   Advance 0; Advance 0; Advance 0;
   Arrive (InviteUser "c0" "alice" "bob" None);
   Advance 1; Advance 1; Advance 1; Advance 1;
   Arrive (RespondToInvite "c1" "bob" true);
   Arrive (RespondToInvite "c1" "bob" true);
   Advance 2; Advance 3; Advance 2; Advance 3;
   Advance 2; Advance 3].

(** alice creates an open studio and, while that request is between its
    two writes, joins it through its public id. *)
Definition create_and_join : list Event :=
  [Arrive (CreateStudio "alice" "Studio" "studio" (Some OPEN));
   Advance 0; Advance 0;
   Arrive (RequestToJoin "c0" "alice" None);
   Advance 1; Advance 1; Advance 1;
   Advance 0].
End History.

(** The store a history of requests leaves behind. *)
Definition after (h : list Request) : Store := serve h empty_store.

(** The (studio, user) pair a request would create a membership for, as far
    as the store tells: joining a studio, accepting an invite, approving a
    join request, approving a waitlist application. *)
Definition newcomer (r : Request) (s : Store) : option (string * string) :=
  match r with
  | RequestToJoin studioId userId _ => Some (studioId, userId)
  | RespondToInvite inviteId _ true =>
      option_map (fun i => (invite_studioId i, invite_userId i)) (find_invite s inviteId)
  | ApproveRequest studioId requestId _ =>
      option_map (fun r => (studioId, request_userId r)) (find_request s requestId)
  | ReviewResponse responseId _ Review.APPROVED =>
      option_map (fun r => (response_studioId r, response_userId r))
                 (find_response s responseId)
  | _ => None
  end.

(** The two ways an admission of someone who is a member already is
    turned down: by a check of the service or by the store. *)
Definition turned_down (e : Error) : Prop :=
  (exists se, e = ServiceErr se) \/ e = PrismaClientKnownRequestError (P2002 "StudioMember").

From Stdlib Require Import DecimalN ZArith Sorted Permutation.

(* ================================================================== *)
(** * Further vocabulary: keys, authority, ownership *)

(** Number of rows a (studio, user) pair, or a slug, has in each table. *)
Definition invitations (s : Store) (studioId userId : string) : nat :=
  List.length (filter (invite_is studioId userId) (invites s)).
Definition requests (s : Store) (studioId userId : string) : nat :=
  List.length (filter (request_is studioId userId) (joinRequests s)).
Definition responses (s : Store) (studioId userId : string) : nat :=
  List.length (filter (response_is studioId userId) (waitlistResponses s)).
Definition slugs (s : Store) (slug : string) : nat :=
  List.length (filter (studio_has_slug slug) (studios s)).

Definition find_response_for (s : Store) (studioId userId : string)
    : option StudioWaitlistResponse :=
  find (response_is studioId userId) (waitlistResponses s).

(** No table holds a key twice. *)
Definition keys_unique (s : Store) : Prop :=
  (forall studioId userId, invitations s studioId userId <= 1)
  /\ (forall studioId userId, requests s studioId userId <= 1)
  /\ (forall studioId userId, responses s studioId userId <= 1)
  /\ (forall slug, slugs s slug <= 1).

(** The (studio, actor) pair whose OWNER or MODERATOR role a request relies
    on, for the requests that manage a studio. *)
Definition authority (r : Request) (s : Store) : option (string * string) :=
  match r with
  | UpdateStudio studioId userId _ => Some (studioId, userId)
  | ApproveRequest studioId _ approverId => Some (studioId, approverId)
  | RejectRequest studioId _ approverId => Some (studioId, approverId)
  | RemoveMember studioId _ removerId => Some (studioId, removerId)
  | UpdateMemberRole studioId _ _ updaterId => Some (studioId, updaterId)
  | InviteUser studioId inviterId _ _ => Some (studioId, inviterId)
  | ReviewResponse responseId userId _ =>
      option_map (fun r => (response_studioId r, userId)) (find_response s responseId)
  | _ => None
  end.

(** The data of an update that holds scalar fields only: no write to the
    studio's memberships rides on it. *)
Definition scalar_only (r : Request) : bool :=
  match r with
  | UpdateStudio _ _ data =>
      match data_members data with [] => true | _ :: _ => false end
  | _ => true
  end.

Definition deletes_studio (r : Request) : bool :=
  match r with
  | DeleteStudio _ _ _ => true
  | _ => false
  end.

(** [userId] is the only OWNER the studio has, if it has one. *)
Definition single_owner (s : Store) (studioId userId : string) : Prop :=
  forall m, In m (members s) ->
            member_studioId m = studioId -> member_role m = OWNER ->
            member_userId m = userId.

(** The failures the service layer raises by itself. *)
Definition service_failure (e : ServiceError) : Prop :=
  (statusCode e = 400 /\ code e = "BAD_REQUEST")
  \/ (statusCode e = 403 /\ code e = "FORBIDDEN")
  \/ (statusCode e = 404 /\ code e = "NOT_FOUND")
  \/ (statusCode e = 409 /\ code e = "CONFLICT").

(** Every [throw] a program contains, on any path, raises an error in [P]. *)
Inductive raises_only (P : ServiceError -> Prop) {R : Type} : Prog R -> Prop :=
| raises_ret (r : R) : raises_only P (Ret r)
| raises_throw (e : ServiceError) : P e -> raises_only P (Throw (ServiceErr e))
| raises_call {X : Type} (op : PrismaOp X) (k : X -> Prog R) :
    (forall x, raises_only P (k x)) -> raises_only P (Call op k).

(* ================================================================== *)
(** * Vocabulary for histories *)

(** Number of OWNER rows a studio has. *)
Definition is_owner_of (studioId : string) (m : StudioMember) : bool :=
  (member_studioId m =? studioId) && StudioRole_eqb (member_role m) OWNER.
Definition owners (s : Store) (studioId : string) : nat :=
  List.length (filter (is_owner_of studioId) (members s)).

(** [id] was generated by the store at some earlier point. *)
Definition issued (s : Store) (id : string) : Prop :=
  exists n, (n < nextId s)%N /\ id = cuid n.

(** The studio id is that of a studio row or of a membership row. *)
Definition known_studio (s : Store) (studioId : string) : Prop :=
  (exists st, In st (studios s) /\ studio_id st = studioId)
  \/ (exists m, In m (members s) /\ member_studioId m = studioId).

(** What a request other than the creation of a studio can have done to
    the membership table. *)
Inductive member_change (s : Store) : list StudioMember -> Prop :=
| mc_same : member_change s (members s)
| mc_member (studioId userId : string) :
    known_studio s studioId ->
    member_change s (members s ++ [mkMember studioId userId MEMBER])
| mc_invited (i : StudioInvite) (userId : string) :
    In i (invites s) ->
    member_change s (members s ++ [mkMember (invite_studioId i) userId (invite_role i)])
| mc_removed (studioId userId : string) (y : StudioMember) (l : list StudioMember) :
    remove_first (member_is studioId userId) (members s) = Some (y, l) ->
    member_change s l
| mc_role (studioId userId : string) (role : StudioRole)
    (y : StudioMember) (l : list StudioMember) :
    role <> OWNER ->
    update_first (member_is studioId userId) (set_member_role role) (members s)
    = Some (y, l) ->
    member_change s l.

(** ... to the invite table ... *)
Inductive invite_change (s : Store) : list StudioInvite -> Prop :=
| ic_same : invite_change s (invites s)
| ic_new (id studioId userId : string) (role : StudioRole) :
    role <> OWNER ->
    known_studio s studioId ->
    invite_change s (invites s ++ [mkInvite id studioId userId InviteStatus.PENDING role])
| ic_updated (id : string) (st : InviteStatus.t) (role : option StudioRole)
    (y : StudioInvite) (l : list StudioInvite) :
    role <> Some OWNER ->
    update_first (invite_has_id id) (set_invite st role) (invites s) = Some (y, l) ->
    invite_change s l.

(** ... and to the studio table. *)
Inductive studio_change (s : Store) : list Studio -> Prop :=
| sc_same : studio_change s (studios s)
| sc_updated (id : string) (f : Studio -> Studio) (y : Studio) (l : list Studio) :
    (forall x, studio_id (f x) = studio_id x) ->
    update_first (studio_has_id id) f (studios s) = Some (y, l) ->
    studio_change s l.

(** Studios have generated ids, and memberships and invites name such
    ids: so it is after any request. *)
Definition ids_issued (s : Store) : Prop :=
  (forall st, In st (studios s) -> issued s (studio_id st))
  /\ (forall m, In m (members s) -> issued s (member_studioId m))
  /\ (forall i, In i (invites s) -> issued s (invite_studioId i)).

(** The shape every state has in a sequential history whose updates of a
    studio hold scalar fields only: ids of studios are generated ids,
    memberships and invites refer to such ids, no invite carries the role
    OWNER, and every studio has exactly one OWNER. *)
Record well_formed (s : Store) : Prop := {
  wf_studios : forall st, In st (studios s) -> issued s (studio_id st);
  wf_members : forall m, In m (members s) -> issued s (member_studioId m);
  wf_invites : forall i, In i (invites s) ->
                         issued s (invite_studioId i) /\ invite_role i <> OWNER;
  wf_owners : forall studioId, owners s studioId <= 1;
  wf_owned : forall st, In st (studios s) ->
                        exists userId, role_of s (studio_id st) userId = Some OWNER
}.

(* ================================================================== *)
(** * More histories *)

Module Case.
(** bob has asked to join alice's waitlist studio. *)
Definition requested : list Request :=
  [CreateStudio "alice" "Studio" "studio" None;
   RequestToJoin "c0" "bob" (Some "hi")].

(** bob has applied to alice's waitlist studio. *)
Definition applied : list Request :=
  [CreateStudio "alice" "Studio" "studio" None;
   SubmitResponse "c0" "bob" [("q1", "because")]].

(** alice owns two studios; bob has asked to join the first. *)
Definition two_studios : list Request :=
  [CreateStudio "alice" "Studio" "studio" None;
   CreateStudio "alice" "Other" "other" None;
   RequestToJoin "c0" "bob" (Some "hi")].
End Case.

(* ================================================================== *)
(** * The site: the membership store next to the content tables

    The FAQ and waitlist-question services, the list queries and the route
    handlers are embedded as functions from the state of the site to the
    way the call settles and the state it leaves: each is run to
    completion with no other request in between.  The membership services
    above run on the [core] of the site. *)


Record StudioFAQ := mkFAQ {
  faq_id : string;
  faq_studioId : string;
  faq_question : string;
  faq_answer : string;
  faq_order : Z
}.

Record StudioWaitlistQuestion := mkQuestion {
  question_id : string;
  question_studioId : string;
  question_text : string;
  question_order : Z
}.

Record Site := mkSite {
  core : Store;
  faqs : list StudioFAQ;
  waitlistQuestions : list StudioWaitlistQuestion
}.

Definition empty_site : Site := mkSite empty_store [] [].

Definition with_core (s : Store) (c : Site) : Site :=
  mkSite s (faqs c) (waitlistQuestions c).
Definition with_faqs (l : list StudioFAQ) (c : Site) : Site :=
  mkSite (core c) l (waitlistQuestions c).
Definition with_waitlistQuestions (l : list StudioWaitlistQuestion) (c : Site) : Site :=
  mkSite (core c) (faqs c) l.

Definition Svc (R : Type) : Type := Site -> Outcome R * Site.

Definition svc_ret {R : Type} (r : R) : Svc R := fun c => (Resolved r, c).
Definition svc_throw {R : Type} (e : ServiceError) : Svc R :=
  fun c => (Threw (ServiceErr e), c).
Definition svc_bind {A B : Type} (m : Svc A) (k : A -> Svc B) : Svc B :=
  fun c =>
    match m c with
    | (Resolved a, c') => k a c'
    | (Threw e, c') => (Threw e, c')
    end.

(** A membership-service program, run on the core of the site. *)
Definition lift {R : Type} (p : Prog R) : Svc R :=
  fun c => let (o, s) := run p (core c) in (o, with_core s c).

Declare Scope svc_scope.
Delimit Scope svc_scope with svc.
Notation "x <- p ;; k" := (svc_bind p (fun x => k))
  (at level 61, p at next level, right associativity) : svc_scope.
Notation "p ;; k" := (svc_bind p (fun _ => k))
  (at level 61, right associativity) : svc_scope.

(** Modelled from the spec: the store promises no order among the rows a
    query selects beyond the [orderBy] of the query.  A [Scan] is the
    order in which the store happens to come across the selected rows: any
    rearrangement of them.  A query that orders its rows takes the scan of
    the moment as an argument, and so does every function that issues such
    a query. *)
Record Scan (A : Type) := mkScan {
  arrange :> list A -> list A;
  arrange_perm : forall l, Permutation l (arrange l)
}.

(** The rows as the table has them, and the other way round. *)
Definition table_order (A : Type) : Scan A :=
  mkScan (fun l => l) (@Permutation_refl A).
Definition backwards (A : Type) : Scan A :=
  mkScan (@rev A) (@Permutation_rev A).

(** [orderBy: { order: 'asc' }]: rows by ascending key; rows with equal
    keys in the order the scan gave them. *)
Section OrderBy.
Variable A : Type.
Variable key : A -> Z.

Fixpoint insert_asc (x : A) (l : list A) : list A :=
  match l with
  | [] => [x]
  | y :: r => if (key x <=? key y)%Z then x :: l else y :: insert_asc x r
  end.

Definition order_asc (l : list A) : list A := fold_right insert_asc [] l.

(** The first row of [orderBy: { order: 'desc' }]: a row whose key is
    greatest. *)
Fixpoint greatest (l : list A) : option A :=
  match l with
  | [] => None
  | x :: r =>
      match greatest r with
      | Some y => if (key x <? key y)%Z then Some y else Some x
      | None => Some x
      end
  end.
End OrderBy.

(** ** Store calls on the content tables

    Modelled from the spec: like the membership tables, a content table
    gives each new row a fresh id, and an update or delete of an absent id
    is refused with [P2025].  The [order] of a row is an [Int] column, a
    signed 32-bit number: the creation of a row whose order is outside
    that range is refused with [P2020], and writes nothing.  The orders
    [reorderFAQs] writes are positions in the list of ids of one request
    and are taken to be in range. *)

Definition int32 (z : Z) : bool :=
  ((-2147483648 <=? z) && (z <=? 2147483647))%Z.

Definition faq_of (studioId : string) (f : StudioFAQ) : bool := faq_studioId f =? studioId.
Definition faq_has_id (id : string) (f : StudioFAQ) : bool := faq_id f =? id.
Definition question_of (studioId : string) (q : StudioWaitlistQuestion) : bool :=
  question_studioId q =? studioId.

Definition set_faq (question answer : option string) (order : option Z)
    (f : StudioFAQ) : StudioFAQ :=
  mkFAQ (faq_id f) (faq_studioId f)
        (match question with Some q => q | None => faq_question f end)
        (match answer with Some a => a | None => faq_answer f end)
        (match order with Some o => o | None => faq_order f end).

Definition studioFAQ_findMany (scan : Scan StudioFAQ) (studioId : string)
    : Svc (list StudioFAQ) :=
  fun c => (Resolved (order_asc faq_order (scan (filter (faq_of studioId) (faqs c)))), c).

Definition studioFAQ_findFirst_desc (studioId : string) : Svc (option StudioFAQ) :=
  fun c => (Resolved (greatest faq_order (filter (faq_of studioId) (faqs c))), c).

Definition studioFAQ_findUnique (id : string) : Svc (option StudioFAQ) :=
  fun c => (Resolved (find (faq_has_id id) (faqs c)), c).

Definition studioFAQ_create (studioId question answer : string) (order : Z)
    : Svc StudioFAQ :=
  fun c =>
    if int32 order then
      let row := mkFAQ (cuid (nextId (core c))) studioId question answer order in
      (Resolved row, mkSite (bump (core c)) (faqs c ++ [row]) (waitlistQuestions c))
    else (Threw (PrismaClientKnownRequestError (P2020 "StudioFAQ")), c).

Definition studioFAQ_update (id : string) (question answer : option string)
    (order : option Z) : Svc StudioFAQ :=
  fun c =>
    match update_first (faq_has_id id) (set_faq question answer order) (faqs c) with
    | Some (row, l) => (Resolved row, with_faqs l c)
    | None => (Threw (PrismaClientKnownRequestError (P2025 "StudioFAQ")), c)
    end.

Definition studioFAQ_delete (id : string) : Svc StudioFAQ :=
  fun c =>
    match remove_first (faq_has_id id) (faqs c) with
    | Some (row, l) => (Resolved row, with_faqs l c)
    | None => (Threw (PrismaClientKnownRequestError (P2025 "StudioFAQ")), c)
    end.

Definition studioWaitlistQuestion_findMany (scan : Scan StudioWaitlistQuestion)
    (studioId : string) : Svc (list StudioWaitlistQuestion) :=
  fun c =>
    (Resolved (order_asc question_order
                 (scan (filter (question_of studioId) (waitlistQuestions c)))),
     c).

Definition studioWaitlistQuestion_deleteMany (studioId : string) : Svc unit :=
  fun c =>
    (Resolved tt,
     with_waitlistQuestions
       (filter (fun q => negb (question_of studioId q)) (waitlistQuestions c)) c).

Definition studioWaitlistQuestion_create (studioId question : string) (order : Z)
    : Svc StudioWaitlistQuestion :=
  fun c =>
    if int32 order then
      let row := mkQuestion (cuid (nextId (core c))) studioId question order in
      (Resolved row, mkSite (bump (core c)) (faqs c) (waitlistQuestions c ++ [row]))
    else (Threw (PrismaClientKnownRequestError (P2020 "StudioWaitlistQuestion")), c).

(* ================================================================== *)
(** * services/faqService.ts *)

Definition getFAQs (scan : Scan StudioFAQ) (studioId : string) : Svc (list StudioFAQ) :=
  studioFAQ_findMany scan studioId.

Definition addFAQ (studioId userId question answer : string) : Svc StudioFAQ :=
  (role <- lift (getMemberRole studioId userId) ;;
   if not_staff role
   then svc_throw (forbidden "Only owners and moderators can manage FAQs")
   else
     lastFaq <- studioFAQ_findFirst_desc studioId ;;
     let order := (match lastFaq with Some f => faq_order f | None => -1 end + 1)%Z in
     faq <- studioFAQ_create studioId question answer order ;;
     svc_ret faq)%svc.

Definition updateFAQ (faqId userId : string) (question answer : option string)
    : Svc StudioFAQ :=
  (faq <- studioFAQ_findUnique faqId ;;
   match faq with
   | None => svc_throw (notFound "FAQ not found")
   | Some faq =>
       role <- lift (getMemberRole (faq_studioId faq) userId) ;;
       if not_staff role
       then svc_throw (forbidden "Only owners and moderators can update FAQs")
       else
         updated <- studioFAQ_update faqId question answer None ;;
         svc_ret updated
   end)%svc.

Definition deleteFAQ (faqId userId : string) : Svc unit :=
  (faq <- studioFAQ_findUnique faqId ;;
   match faq with
   | None => svc_throw (notFound "FAQ not found")
   | Some faq =>
       role <- lift (getMemberRole (faq_studioId faq) userId) ;;
       if not_staff role
       then svc_throw (forbidden "Only owners and moderators can delete FAQs")
       else
         studioFAQ_delete faqId ;;
         svc_ret tt
   end)%svc.

(** The loop of [reorderFAQs] from index [i] on. *)
Fixpoint reorder_from (i : nat) (faqIds : list string) : Svc unit :=
  match faqIds with
  | [] => svc_ret tt
  | id :: rest =>
      (studioFAQ_update id None None (Some (Z.of_nat i)) ;;
       reorder_from (S i) rest)%svc
  end.

Definition reorderFAQs (scan : Scan StudioFAQ) (studioId userId : string)
    (faqIds : list string) : Svc (list StudioFAQ) :=
  (role <- lift (getMemberRole studioId userId) ;;
   if not_staff role
   then svc_throw (forbidden "Only owners and moderators can reorder FAQs")
   else
     reorder_from 0 faqIds ;;
     studioFAQ_findMany scan studioId)%svc.

(* ================================================================== *)
(** * services/waitlistService.ts: the questions *)

Definition getQuestions (scan : Scan StudioWaitlistQuestion) (studioId : string)
    : Svc (list StudioWaitlistQuestion) :=
  studioWaitlistQuestion_findMany scan studioId.

(** [q.order ?? i]: the order an entry at index [i] is created with; an
    entry's [order] is [None] when the request left it out. *)
Definition order_or (i : nat) (order : option Z) : Z :=
  match order with Some o => o | None => Z.of_nat i end.

(** The loop of [setQuestions] from index [i] on. *)
Fixpoint create_from (studioId : string) (i : nat) (questions : list (string * option Z))
    (created : list StudioWaitlistQuestion) : Svc (list StudioWaitlistQuestion) :=
  match questions with
  | [] => svc_ret created
  | (question, order) :: rest =>
      (q <- studioWaitlistQuestion_create studioId question (order_or i order) ;;
       create_from studioId (S i) rest (created ++ [q]))%svc
  end.

Definition setQuestions (studioId userId : string) (questions : list (string * option Z))
    : Svc (list StudioWaitlistQuestion) :=
  (role <- lift (getMemberRole studioId userId) ;;
   if not_staff role
   then svc_throw (forbidden "Only owners and moderators can manage waitlist questions")
   else
     studioWaitlistQuestion_deleteMany studioId ;;
     create_from studioId 0 questions [])%svc.

(* ================================================================== *)
(** * Paginated lists (membershipService.getMembers,
      waitlistService.getResponses)

    Modelled from the spec: a row's creation time ([joinedAt],
    [createdAt]) is set when the row is inserted and kept by updates, so
    ascending creation time is the order of the table.  [skip] and [take]
    are modelled for the values a page of at least 1 and a limit of at
    least 0 give; what the client does with a negative [skip] or [take] is
    not in the sources. *)

Definition skip_take {A : Type} (skip take : Z) (l : list A) : list A :=
  firstn (Z.to_nat take) (skipn (Z.to_nat skip) l).

(** [Math.ceil(total / limit)]; [None] when the limit is 0 and the
    quotient is not a number. *)
Definition ceil_div (total limit : Z) : option Z :=
  if (limit =? 0)%Z then None else Some (- ((- total) / limit))%Z.

Record Paged (A : Type) := mkPaged {
  paged_rows : list A;
  paged_total : Z;
  paged_page : Z;
  paged_limit : Z;
  paged_totalPages : option Z
}.

(** The rows of the page a list query resolves to. *)
Definition page_rows {A : Type} (r : Outcome (Paged A) * Site) : list A :=
  match fst r with
  | Resolved p => paged_rows p
  | Threw _ => []
  end.

Definition member_of (studioId : string) (m : StudioMember) : bool :=
  member_studioId m =? studioId.

Definition getMembers (studioId : string) (page limit : option Z)
    : Svc (Paged StudioMember) :=
  let page := match page with Some p => p | None => 1%Z end in
  let limit := match limit with Some l => l | None => 20%Z end in
  let skip := ((page - 1) * limit)%Z in
  fun c =>
    let selected := filter (member_of studioId) (members (core c)) in
    let total := Z.of_nat (List.length selected) in
    (Resolved (mkPaged (skip_take skip limit selected) total page limit
                       (ceil_div total limit)), c).

Definition response_matches (studioId : string) (status : option RequestStatus.t)
    (r : StudioWaitlistResponse) : bool :=
  (response_studioId r =? studioId)
  && match status with
     | Some st => RequestStatus.eqb (response_status r) st
     | None => true
     end.

Definition getResponses (studioId : string) (status : option RequestStatus.t)
    (page limit : option Z) : Svc (Paged StudioWaitlistResponse) :=
  let page := match page with Some p => p | None => 1%Z end in
  let limit := match limit with Some l => l | None => 20%Z end in
  let skip := ((page - 1) * limit)%Z in
  fun c =>
    let selected := filter (response_matches studioId status)
                           (waitlistResponses (core c)) in
    let total := Z.of_nat (List.length selected) in
    (Resolved (mkPaged (skip_take skip limit selected) total page limit
                       (ceil_div total limit)), c).

(* ================================================================== *)
(** * services/inviteService.ts: the listings

    Invites are listed newest first: the table in reverse order. *)

(** [studio: { select: { id, name, slug, logoUrl } }], with the fields the
    rows here carry. *)
Record StudioSummary := mkSummary {
  summary_id : string;
  summary_name : string;
  summary_slug : string
}.

Definition summary (st : Studio) : StudioSummary :=
  mkSummary (studio_id st) (studio_name st) (studio_slug st).

Definition pending_for (userId : string) (i : StudioInvite) : bool :=
  (invite_userId i =? userId) && InviteStatus.eqb (invite_status i) InviteStatus.PENDING.

Definition invite_of (studioId : string) (i : StudioInvite) : bool :=
  invite_studioId i =? studioId.

Definition getInvites (userId : string) : Svc (list (StudioInvite * option StudioSummary)) :=
  fun c =>
    (Resolved
       (map (fun i => (i, option_map summary (find_studio (core c) (invite_studioId i))))
            (rev (filter (pending_for userId) (invites (core c))))),
     c).

Definition getStudioInvites (studioId : string) : Svc (list StudioInvite) :=
  fun c => (Resolved (rev (filter (invite_of studioId) (invites (core c)))), c).

(* ================================================================== *)
(** * services/studioService.ts: lookups with the member count *)

Record StudioWithCount := mkCounted {
  counted_studio : Studio;
  count_members : nat
}.

Definition with_count (c : Site) (st : Studio) : StudioWithCount :=
  mkCounted st (List.length (filter (member_of (studio_id st)) (members (core c)))).

Definition getStudio (slug : string) : Svc StudioWithCount :=
  fun c =>
    match find (studio_has_slug slug) (studios (core c)) with
    | Some st => (Resolved (with_count c st), c)
    | None =>
        svc_throw (notFound ("Studio with slug " ++ dquote ++ slug ++ dquote ++ " not found")) c
    end.

Definition getStudioById (id : string) : Svc StudioWithCount :=
  fun c =>
    match find (studio_has_id id) (studios (core c)) with
    | Some st => (Resolved (with_count c st), c)
    | None => svc_throw (notFound ("Studio " ++ id ++ " not found")) c
    end.

(* ================================================================== *)
(** * middleware/auth.ts

    The headers of a request, by lower-case name. *)

Definition Headers : Type := list (string * string).

Fixpoint header (name : string) (h : Headers) : option string :=
  match h with
  | [] => None
  | (n, v) :: r => if n =? name then Some v else header name r
  end.

Record AuthUser := mkAuthUser {
  user_id : string;
  user_discordId : option string;
  user_email : option string;
  user_name : option string;
  user_isStaff : bool
}.

Definition getAuthUser (request : Headers) : option AuthUser :=
  match header "x-user-id" request with
  | None => None
  | Some id =>
      if id =? "" then None
      else Some (mkAuthUser id
                   (header "x-user-discord-id" request)
                   (header "x-user-email" request)
                   (header "x-user-name" request)
                   (match header "x-user-staff" request with
                    | Some v => v =? "true"
                    | None => false
                    end))
  end.

Definition requireAuth (request : Headers) : Svc AuthUser :=
  match getAuthUser request with
  | None => svc_throw (unauthorized "Authentication required")
  | Some user => svc_ret user
  end.

(* ================================================================== *)
(** * routes/faqs.ts and the question routes of routes/waitlist.ts

    A handler replies with a status and a body, or with what [sendError]
    writes for the error it caught. *)

Inductive Response (A : Type) : Type :=
| Sent (status : nat) (body : A)
| Failed (reply : Reply).
Arguments Sent {A} status body.
Arguments Failed {A} reply.

Definition respond {A : Type} (status : nat) (m : Svc A) (c : Site) : Response A * Site :=
  match m c with
  | (Resolved a, c') => (Sent status a, c')
  | (Threw e, c') => (Failed (sendError e), c')
  end.

(** GET /studios/:slug/faqs *)
Definition get_faqs (scan : Scan StudioFAQ) (slug : string)
    : Site -> Response (list StudioFAQ) * Site :=
  respond 200
    (studio <- getStudio slug ;;
     getFAQs scan (studio_id (counted_studio studio)))%svc.

(** POST /studios/:slug/faqs *)
Definition post_faq (request : Headers) (slug question answer : string)
    : Site -> Response StudioFAQ * Site :=
  respond 201
    (user <- requireAuth request ;;
     studio <- getStudio slug ;;
     addFAQ (studio_id (counted_studio studio)) (user_id user) question answer)%svc.

(** PUT /studios/:slug/faqs/:id *)
Definition put_faq (request : Headers) (slug id : string) (question answer : option string)
    : Site -> Response StudioFAQ * Site :=
  respond 200
    (user <- requireAuth request ;;
     updateFAQ id (user_id user) question answer)%svc.

(** DELETE /studios/:slug/faqs/:id *)
Definition delete_faq (request : Headers) (slug id : string)
    : Site -> Response unit * Site :=
  respond 204
    (user <- requireAuth request ;;
     deleteFAQ id (user_id user))%svc.

(** GET /studios/:slug/waitlist/questions *)
Definition get_questions (scan : Scan StudioWaitlistQuestion) (slug : string)
    : Site -> Response (list StudioWaitlistQuestion) * Site :=
  respond 200
    (studio <- getStudio slug ;;
     getQuestions scan (studio_id (counted_studio studio)))%svc.

(** PUT /studios/:slug/waitlist/questions *)
Definition put_questions (request : Headers) (slug : string)
    (questions : list (string * option Z))
    : Site -> Response (list StudioWaitlistQuestion) * Site :=
  respond 200
    (user <- requireAuth request ;;
     studio <- getStudio slug ;;
     setQuestions (studio_id (counted_studio studio)) (user_id user) questions)%svc.

(* ================================================================== *)
(** * Sites of the concrete cases *)

Module SiteCase.
(** alice owns the studio c0 and bob the studio c1. *)
Definition two_owners : list Request :=
  [CreateStudio "alice" "Studio" "studio" None;
   CreateStudio "bob" "Other" "other" None].

Definition started : Site := mkSite (after two_owners) [] [].

(** alice has added the FAQs c2 and c3 to her studio, bob the FAQ c4 to
    his. *)
Definition faqs_added : Site :=
  snd (addFAQ "c1" "bob" "Q3" "A3"
         (snd (addFAQ "c0" "alice" "Q2" "A2"
                (snd (addFAQ "c0" "alice" "Q1" "A1" started))))).

(** The staffed studio: alice, carol, bob and dave. *)
Definition staffed : Site := mkSite (after History.staffed) [] [].

(** bob has applied to alice's waitlist studio. *)
Definition applied : Site := mkSite (after Case.applied) [] [].

Definition as_user (id : string) : Headers := [("x-user-id", id)].
End SiteCase.

(* ================================================================== *)
(** * Facts about tables *)

Section TableFacts.
Variable A : Type.
Variables p q : A -> bool.

Lemma update_first_filter (f : A -> A) (l l' : list A) (y : A) :
  (forall x, q (f x) = q x) ->
  update_first p f l = Some (y, l') ->
  List.length (filter q l') = List.length (filter q l).
Proof.
  intros Hq. revert l' y.
  induction l as [|x r IH]; intros l' y H; simpl in H; [discriminate|].
  destruct (p x).
  - injection H as _ <-. simpl. rewrite Hq. destruct (q x); reflexivity.
  - destruct (update_first p f r) as [[z r']|]; [|discriminate].
    injection H as _ <-. simpl.
    specialize (IH _ _ eq_refl).
    destruct (q x); simpl; congruence.
Qed.

Lemma remove_first_filter (l l' : list A) (y : A) :
  remove_first p l = Some (y, l') ->
  List.length (filter q l') <= List.length (filter q l).
Proof.
  revert l' y.
  induction l as [|x r IH]; intros l' y H; simpl in H; [discriminate|].
  destruct (p x).
  - injection H as _ <-. simpl. destruct (q x); simpl; lia.
  - destruct (remove_first p r) as [[z r']|]; [|discriminate].
    injection H as _ <-. simpl.
    specialize (IH _ _ eq_refl).
    destruct (q x); simpl; lia.
Qed.

Lemma existsb_false_filter (l : list A) :
  existsb q l = false -> filter q l = [].
Proof.
  induction l as [|x r IH]; simpl; [reflexivity|].
  destruct (q x); simpl; [discriminate|exact IH].
Qed.

Lemma existsb_find (l : list A) :
  existsb q l = match find q l with Some _ => true | None => false end.
Proof.
  induction l as [|x r IH]; simpl; [reflexivity|].
  destruct (q x); simpl; [reflexivity|exact IH].
Qed.

Lemma update_first_find (f : A -> A) (l : list A) (x : A) :
  find p l = Some x ->
  exists l', update_first p f l = Some (f x, l').
Proof.
  induction l as [|y r IH]; simpl; [discriminate|].
  destruct (p y); intros H.
  - injection H as ->. eauto.
  - destruct (IH H) as [l' ->]. eauto.
Qed.

Lemma update_first_none (f : A -> A) (l : list A) :
  find p l = None -> update_first p f l = None.
Proof.
  induction l as [|y r IH]; simpl; [reflexivity|].
  destruct (p y); intros H; [discriminate|]. rewrite (IH H). reflexivity.
Qed.

Lemma remove_first_find (l : list A) (x : A) :
  find p l = Some x ->
  exists l', remove_first p l = Some (x, l').
Proof.
  induction l as [|y r IH]; simpl; [discriminate|].
  destruct (p y); intros H.
  - injection H as ->. eauto.
  - destruct (IH H) as [l' ->]. eauto.
Qed.
End TableFacts.

Lemma member_is_eq (studioId userId : string) (m : StudioMember) :
  member_is studioId userId m = true <->
  member_studioId m = studioId /\ member_userId m = userId.
Proof.
  unfold member_is. rewrite andb_true_iff, !String.eqb_eq. tauto.
Qed.

Lemma member_is_set_role (studioId userId : string) (r : StudioRole) (m : StudioMember) :
  member_is studioId userId (set_member_role r m) = member_is studioId userId m.
Proof. reflexivity. Qed.

(* ================================================================== *)
(** * The membership table never holds a pair twice *)

Lemma members_unique_empty : members_unique empty_store.
Proof. intros a b. unfold memberships. simpl. lia. Qed.

Lemma members_unique_same (s s' : Store) :
  members s' = members s -> members_unique s -> members_unique s'.
Proof. unfold members_unique, memberships. intros ->. auto. Qed.

Lemma filter_filter_length (A : Type) (p q : A -> bool) (l : list A) :
  List.length (filter p (filter q l)) <= List.length (filter p l).
Proof.
  induction l as [|x r IH]; simpl; [lia|].
  destruct (q x) eqn:Eq, (p x) eqn:Ep; simpl; rewrite ?Ep; simpl; lia.
Qed.

Lemma member_write_unique (studioId : string) (w : MemberWrite) (s s' : Store) :
  members_unique s -> member_write studioId w s = inr s' -> members_unique s'.
Proof.
  intros Hinv H. destruct w as [userId role|userId role|userId|role]; simpl in H.
  - destruct (existsb (member_is studioId userId) (members s)) eqn:E; [discriminate|].
    injection H as <-. intros a b. unfold memberships. simpl.
    rewrite filter_app, length_app. simpl.
    destruct (member_is a b (mkMember studioId userId role)) eqn:E'.
    + apply member_is_eq in E'. simpl in E'. destruct E' as [-> ->].
      rewrite (existsb_false_filter _ _ E). simpl. lia.
    + simpl. specialize (Hinv a b). unfold memberships in Hinv. lia.
  - destruct (update_first (member_is studioId userId) (set_member_role role) (members s))
      as [[y l]|] eqn:E; [|discriminate].
    injection H as <-. intros a b. unfold memberships. simpl.
    rewrite (update_first_filter _ (member_is a b) _ _ (member_is_set_role a b role) E).
    apply Hinv.
  - destruct (remove_first (member_is studioId userId) (members s)) as [[y l]|] eqn:E;
      [|discriminate].
    injection H as <-. intros a b. unfold memberships. simpl.
    pose proof (remove_first_filter _ (member_is a b) _ E).
    specialize (Hinv a b). unfold memberships in Hinv. lia.
  - injection H as <-. intros a b. unfold memberships. simpl.
    specialize (Hinv a b). unfold memberships in Hinv.
    etransitivity; [apply filter_filter_length|exact Hinv].
Qed.

Lemma member_writes_unique (studioId : string) (ws : list MemberWrite) :
  forall s s', members_unique s -> member_writes studioId ws s = inr s' -> members_unique s'.
Proof.
  induction ws as [|w ws IH]; intros s s' Hinv H; simpl in H.
  - injection H as <-. exact Hinv.
  - destruct (member_write studioId w s) as [e|s1] eqn:E; [discriminate|].
    apply (IH s1 s'); [|exact H]. eapply member_write_unique; eauto.
Qed.

(** Every statement the store accepts keeps the pairs distinct: this is the
    uniqueness constraint at work, whatever the calling code checked. *)
Lemma exec_members_unique (X : Type) (op : PrismaOp X) :
  forall (s s' : Store) (x : X),
    members_unique s -> exec op s = inr (x, s') -> members_unique s'.
Proof.
  induction op; intros s s' x0 Hinv H; simpl in H;
    repeat match type of H with
    | inr _ = inr _ => injection H as <- <-
    | inl _ = inr _ => discriminate H
    | context [if ?c then _ else _] => destruct c eqn:?
    | context [match ?c with Some _ => _ | None => _ end] => destruct c as [[? ?]|] eqn:?
    end;
    try (revert Hinv; apply members_unique_same; reflexivity).
  - (* studio.update and its nested writes *)
    destruct (member_writes id writes (with_studios l s)) as [e|s1] eqn:E; [discriminate|].
    injection H as <- <-.
    apply (@member_writes_unique id writes (with_studios l s) s1); [exact Hinv|exact E].
  - (* studio.delete, taking the studio's rows with it *)
    intros a b. unfold memberships. simpl.
    specialize (Hinv a b). unfold memberships in Hinv.
    etransitivity; [apply filter_filter_length|exact Hinv].
  - (* studioMember.create *)
    intros a b. unfold memberships. simpl.
    rewrite filter_app, length_app. simpl.
    destruct (member_is a b (mkMember studioId userId role)) eqn:E.
    + apply member_is_eq in E. simpl in E. destruct E as [-> ->].
      rewrite (existsb_false_filter _ _ Heqb). simpl. lia.
    + simpl. specialize (Hinv a b). unfold memberships in Hinv. lia.
  - (* studioMember.update *)
    intros a b. unfold memberships. simpl.
    rewrite (update_first_filter _ (member_is a b) _ _ (member_is_set_role a b role) Heqo).
    apply Hinv.
  - (* studioMember.delete *)
    intros a b. unfold memberships. simpl.
    pose proof (remove_first_filter _ (member_is a b) _ Heqo).
    specialize (Hinv a b). unfold memberships in Hinv. lia.
  - (* $transaction *)
    destruct (exec op1 s) as [e|[x s1]] eqn:E1; [discriminate|].
    destruct (exec op2 s1) as [e|[y s2]] eqn:E2; [discriminate|].
    injection H as <- <-. eauto.
Qed.

Lemma step_members_unique (R : Type) (p : Prog R) (s : Store) :
  members_unique s -> members_unique (snd (step p s)).
Proof.
  intros Hinv. destruct p as [r|e|X op k]; simpl; try exact Hinv.
  destruct (exec op s) as [e|[x s']] eqn:E; simpl; [exact Hinv|].
  eapply exec_members_unique; eauto.
Qed.

Lemma run_members_unique (R : Type) (p : Prog R) :
  forall s, members_unique s -> members_unique (snd (run p s)).
Proof.
  induction p as [r|e|X op k IH]; intros s Hinv; simpl; try exact Hinv.
  destruct (exec op s) as [e|[x s']] eqn:E; simpl; [exact Hinv|].
  apply IH. eapply exec_members_unique; eauto.
Qed.

Lemma advance_members_unique (i : nat) (ts : list (Prog unit)) :
  forall s, members_unique s -> members_unique (snd (advance i ts s)).
Proof.
  revert i. induction ts as [|t r IH]; intros i s Hinv; destruct i as [|j]; simpl;
    try exact Hinv.
  - pose proof (step_members_unique t Hinv) as H.
    destruct (step t s) as [t' s']. exact H.
  - specialize (IH j s Hinv). destruct (advance j r s) as [r' s']. exact IH.
Qed.

Lemma fire_members_unique (sys : System) (ev : Event) :
  members_unique (store sys) -> members_unique (store (fire sys ev)).
Proof.
  intros Hinv. destruct ev as [r|i]; simpl; [exact Hinv|].
  pose proof (advance_members_unique i (inflight sys) Hinv) as H.
  destruct (advance i (inflight sys) (store sys)) as [ts s]. exact H.
Qed.

Lemma schedule_members_unique (evs : list Event) :
  forall sys, members_unique (store sys) -> members_unique (store (schedule evs sys)).
Proof.
  unfold schedule.
  induction evs as [|ev evs IH]; intros sys Hinv; simpl; [exact Hinv|].
  apply IH, fire_members_unique, Hinv.
Qed.

Lemma serve_members_unique (reqs : list Request) :
  forall s, members_unique s -> members_unique (serve reqs s).
Proof.
  unfold serve.
  induction reqs as [|r reqs IH]; intros s Hinv; simpl; [exact Hinv|].
  apply IH, run_members_unique, Hinv.
Qed.

Section UpdatedRows.
Variable A : Type.
Variable p : A -> bool.
Variable f : A -> A.
Hypothesis p_f : forall x, p (f x) = p x.

Lemma update_first_found (l : list A) (x : A) :
  find p l = Some x ->
  update_first p f l = Some (f x, updated_rows p f l).
Proof.
  intros H. unfold updated_rows.
  destruct (update_first_find p f l H) as [l' ->]. reflexivity.
Qed.

Lemma find_updated_rows (l : list A) (x : A) :
  find p l = Some x -> find p (updated_rows p f l) = Some (f x).
Proof.
  unfold updated_rows.
  induction l as [|y r IH]; simpl; [discriminate|].
  destruct (p y) eqn:E; intros H.
  - injection H as ->. simpl. rewrite p_f, E. reflexivity.
  - specialize (IH H).
    destruct (update_first p f r) as [[z r']|]; simpl; try rewrite E; exact IH.
Qed.
End UpdatedRows.

Lemma remove_first_found (A : Type) (p : A -> bool) (l : list A) (x : A) :
  find p l = Some x ->
  remove_first p l = Some (x, remaining_rows p l).
Proof.
  intros H. unfold remaining_rows.
  destruct (remove_first_find p l H) as [l' ->]. reflexivity.
Qed.

Lemma find_app_new (A : Type) (p : A -> bool) (l : list A) (x : A) :
  find p l = None -> p x = true -> find p (l ++ [x]) = Some x.
Proof.
  induction l as [|y r IH]; simpl; intros H Hx.
  - rewrite Hx. reflexivity.
  - destruct (p y); [discriminate|]. auto.
Qed.

Lemma find_some_true (A : Type) (p : A -> bool) (l : list A) (x : A) :
  find p l = Some x -> p x = true.
Proof. intros H. apply find_some in H. tauto. Qed.

Lemma invite_has_id_set (id : string) (st : InviteStatus.t) (r : option StudioRole)
    (i : StudioInvite) :
  invite_has_id id (set_invite st r i) = invite_has_id id i.
Proof. reflexivity. Qed.

Lemma request_has_id_set (id : string) (st : RequestStatus.t) (m : option string)
    (r : StudioJoinRequest) :
  request_has_id id (set_request st m r) = request_has_id id r.
Proof. reflexivity. Qed.

Lemma response_has_id_set (id : string) (a : option Answers) (st : RequestStatus.t)
    (r : StudioWaitlistResponse) :
  response_has_id id (set_response a st r) = response_has_id id r.
Proof. reflexivity. Qed.

Lemma InviteStatus_eqb_eq (a b : InviteStatus.t) :
  InviteStatus.eqb a b = true <-> a = b.
Proof. destruct a, b; simpl; split; congruence. Qed.

Lemma RequestStatus_eqb_eq (a b : RequestStatus.t) :
  RequestStatus.eqb a b = true <-> a = b.
Proof. destruct a, b; simpl; split; congruence. Qed.

Lemma InviteStatus_eqb_neq (a b : InviteStatus.t) :
  a <> b -> InviteStatus.eqb a b = false.
Proof. destruct a, b; simpl; congruence. Qed.

Lemma RequestStatus_eqb_neq (a b : RequestStatus.t) :
  a <> b -> RequestStatus.eqb a b = false.
Proof. destruct a, b; simpl; congruence. Qed.

Lemma eqb_neq_false (a b : string) : a <> b -> (a =? b) = false.
Proof. apply String.eqb_neq. Qed.

(** A transaction is all or nothing: it is refused as a whole, leaving no
    trace, or both statements were accepted one after the other. *)
Lemma transaction2_atomic (X Y : Type) (a : PrismaOp X) (b : PrismaOp Y) (s : Store) :
  match exec (transaction2 a b) s with
  | inl e =>
      exec a s = inl e \/ exists x s1, exec a s = inr (x, s1) /\ exec b s1 = inl e
  | inr ((x, y), s2) =>
      exists s1, exec a s = inr (x, s1) /\ exec b s1 = inr (y, s2)
  end.
Proof.
  simpl. destruct (exec a s) as [e|[x s1]]; [left; reflexivity|].
  destruct (exec b s1) as [e|[y s2]] eqn:E; eauto.
Qed.

(* ================================================================== *)
(** * Responding to an invite *)

(** Running a program one call at a time or all at once is the same thing
    when nothing else touches the store in between. *)
Lemma run_step (R : Type) (p : Prog R) (s : Store) :
  run p s = let (p', s') := step p s in run p' s'.
Proof.
  destruct p as [r|e|X op k]; simpl; try reflexivity.
  destruct (exec op s) as [e|[x s']]; reflexivity.
Qed.

(** C2. [respondToInvite] fails NotFound when the invite is absent,
    Forbidden when it was sent to someone else, Conflict when it is no
    longer PENDING.  Accepting a PENDING invite as a non-member marks the
    invite ACCEPTED and creates the membership with the invite's stored
    role; the two writes are one transaction, so whatever the store looks
    like when the transaction is issued (other requests may have run since
    the checks), either both writes are there afterwards or the call threw
    and the store is as it was. *)
Theorem respondToInvite_spec (s : Store) (inviteId userId : string) (accept : bool) :
  (find_invite s inviteId = None ->
   run (respondToInvite inviteId userId accept) s
   = (Threw (ServiceErr (notFound "Invite not found")), s))
  /\
  (forall invite,
     find_invite s inviteId = Some invite ->
     invite_userId invite <> userId ->
     run (respondToInvite inviteId userId accept) s
     = (Threw (ServiceErr (forbidden "This invite is not for you")), s))
  /\
  (forall invite,
     find_invite s inviteId = Some invite ->
     invite_userId invite = userId ->
     invite_status invite <> InviteStatus.PENDING ->
     run (respondToInvite inviteId userId accept) s
     = (Threw (ServiceErr (conflict "Invite is no longer pending")), s))
  /\
  (forall invite,
     find_invite s inviteId = Some invite ->
     invite_userId invite = userId ->
     invite_status invite = InviteStatus.PENDING ->
     find_member s (invite_studioId invite) userId = None ->
     let accepted := set_invite InviteStatus.ACCEPTED None invite in
     let member := mkMember (invite_studioId invite) userId (invite_role invite) in
     (exists s',
        run (respondToInvite inviteId userId true) s
        = (Resolved (accepted, Some member), s')
        /\ find_invite s' inviteId = Some accepted
        /\ find_member s' (invite_studioId invite) userId = Some member
        /\ invites s' = updated_rows (invite_has_id inviteId)
                          (set_invite InviteStatus.ACCEPTED None) (invites s)
        /\ members s' = (members s ++ [member])%list
        /\ studios s' = studios s
        /\ joinRequests s' = joinRequests s
        /\ waitlistResponses s' = waitlistResponses s)
     /\
     (forall s1 : Store,
        match step (fst (steps 2 (respondToInvite inviteId userId true) s)) s1 with
        | (Throw _, s2) => s2 = s1
        | (Ret (i, m), s2) =>
            m = Some member
            /\ invite_status i = InviteStatus.ACCEPTED
            /\ find_invite s2 inviteId = Some i
            /\ members s2 = (members s1 ++ [member])%list
        | (Call _ _, _) => False
        end)).
Proof.
  unfold find_invite, find_member.
  split; [|split; [|split]].
  - intros H. unfold respondToInvite. simpl. rewrite H. reflexivity.
  - intros invite H Hu. unfold respondToInvite. simpl. rewrite H. simpl.
    rewrite (eqb_neq_false Hu). reflexivity.
  - intros invite H Hu Hs. unfold respondToInvite. simpl. rewrite H. simpl.
    rewrite Hu, String.eqb_refl, (InviteStatus_eqb_neq Hs). reflexivity.
  - intros invite H Hu Hs Hm. cbv zeta. split.
    + unfold respondToInvite. simpl. rewrite H. simpl.
      rewrite Hu, String.eqb_refl, Hs. simpl. rewrite Hm. simpl.
      rewrite (update_first_found _ (set_invite InviteStatus.ACCEPTED None) _ H).
      simpl. rewrite existsb_find, Hm. simpl.
      eexists. split; [reflexivity|]. simpl.
      repeat split.
      * apply find_updated_rows; [apply invite_has_id_set|exact H].
      * apply find_app_new; [exact Hm|].
        apply member_is_eq. split; reflexivity.
    + intros s1. unfold respondToInvite. simpl. rewrite H. simpl.
      rewrite Hu, String.eqb_refl, Hs. simpl. rewrite Hm. simpl.
      destruct (find (invite_has_id inviteId) (invites s1)) as [i1|] eqn:E1.
      * rewrite (update_first_found _ (set_invite InviteStatus.ACCEPTED None) _ E1).
        simpl.
        destruct (existsb (member_is (invite_studioId invite) userId) (members s1));
          [reflexivity|].
        simpl. repeat split.
        apply find_updated_rows; [apply invite_has_id_set|exact E1].
      * rewrite (update_first_none _ _ _ E1). reflexivity.
Qed.

(** The acceptance of a PENDING invite by its user, a member already:
    the invite is written as ACCEPTED, then the call throws. *)
Lemma respondToInvite_member
    (s : Store) (inviteId userId : string) (invite : StudioInvite) (m : StudioMember) :
  find_invite s inviteId = Some invite ->
  invite_userId invite = userId ->
  invite_status invite = InviteStatus.PENDING ->
  find_member s (invite_studioId invite) userId = Some m ->
  run (respondToInvite inviteId userId true) s
  = (Threw (ServiceErr (conflict "You are already a member of this studio")),
     with_invites (updated_rows (invite_has_id inviteId)
                     (set_invite InviteStatus.ACCEPTED None) (invites s)) s).
Proof.
  unfold find_invite, find_member.
  intros H Hu Hs Hm.
  unfold respondToInvite. simpl. rewrite H. simpl.
  rewrite Hu, String.eqb_refl, Hs. simpl. rewrite Hm. simpl.
  rewrite (update_first_found _ (set_invite InviteStatus.ACCEPTED None) _ H).
  reflexivity.
Qed.

(** C8. Accepting a PENDING invite when its user is already a member of
    the studio marks the invite ACCEPTED, fails with Conflict, and leaves
    the membership table as it was: no second membership row appears.
    The invite found under the id afterwards is the one there was, with
    the status ACCEPTED and every other field as before. *)
Theorem respondToInvite_already_member
    (s : Store) (inviteId userId : string) (invite : StudioInvite) (m : StudioMember) :
  find_invite s inviteId = Some invite ->
  invite_userId invite = userId ->
  invite_status invite = InviteStatus.PENDING ->
  find_member s (invite_studioId invite) userId = Some m ->
  exists s',
    run (respondToInvite inviteId userId true) s
    = (Threw (ServiceErr (conflict "You are already a member of this studio")), s')
    /\ find_invite s' inviteId
       = Some (mkInvite (invite_id invite) (invite_studioId invite) userId
                        InviteStatus.ACCEPTED (invite_role invite))
    /\ option_map invite_status (find_invite s' inviteId) = Some InviteStatus.ACCEPTED
    /\ find_invite s' inviteId = Some (set_invite InviteStatus.ACCEPTED None invite)
    /\ invites s' = updated_rows (invite_has_id inviteId)
                      (set_invite InviteStatus.ACCEPTED None) (invites s)
    /\ members s' = members s
    /\ memberships s' (invite_studioId invite) userId
       = memberships s (invite_studioId invite) userId.
Proof.
  intros H Hu Hs Hm.
  assert (Hfound : find_invite
                     (with_invites (updated_rows (invite_has_id inviteId)
                                      (set_invite InviteStatus.ACCEPTED None) (invites s)) s)
                     inviteId
                   = Some (set_invite InviteStatus.ACCEPTED None invite)).
  { unfold find_invite in *. simpl.
    apply find_updated_rows; [apply invite_has_id_set|exact H]. }
  eexists. split; [apply (@respondToInvite_member s inviteId userId invite m H Hu Hs Hm)|].
  rewrite Hfound. unfold set_invite. rewrite Hu. repeat split.
Qed.

(* ================================================================== *)
(** * Role hierarchy *)

Lemma role_of_find (s : Store) (studioId userId : string) (r : StudioRole) :
  role_of s studioId userId = Some r ->
  exists m, find (member_is studioId userId) (members s) = Some m /\ member_role m = r.
Proof.
  unfold role_of, find_member.
  destruct (find (member_is studioId userId) (members s)) as [m|]; simpl; [|discriminate].
  intros H. injection H as <-. eauto.
Qed.

(** C5. An actor whose role in the studio is MODERATOR cannot invite
    someone as MODERATOR, cannot remove a member who is MODERATOR or OWNER,
    and cannot change any member's role: each attempt fails Forbidden and
    the store is left exactly as it was. *)
Theorem moderator_restrictions (s : Store) (studioId actorId : string) :
  role_of s studioId actorId = Some MODERATOR ->
  (forall userId,
     run (inviteUser studioId actorId userId (Some MODERATOR)) s
     = (Threw (ServiceErr (forbidden "Moderators cannot invite other moderators")), s))
  /\
  (forall userId target,
     find_member s studioId userId = Some target ->
     member_role target = MODERATOR \/ member_role target = OWNER ->
     run (removeMember studioId userId actorId) s
     = (Threw (ServiceErr
                 (forbidden "Moderators cannot remove owners or other moderators")), s))
  /\
  (forall userId role,
     run (updateMemberRole studioId userId role actorId) s
     = (Threw (ServiceErr (forbidden "Only the studio owner can change member roles")), s)).
Proof.
  intros Hrole. destruct (role_of_find _ _ _ Hrole) as (a & Ha & Hr).
  unfold find_member. repeat split.
  - intros userId. unfold inviteUser. simpl. rewrite Ha. simpl. rewrite Hr. reflexivity.
  - intros userId target Ht Htr. unfold removeMember. simpl. rewrite Ha. simpl.
    rewrite Hr. simpl. rewrite Ht. simpl.
    destruct Htr as [-> | ->]; reflexivity.
  - intros userId role. unfold updateMemberRole. simpl. rewrite Ha. simpl.
    rewrite Hr. reflexivity.
Qed.

(* ================================================================== *)
(** * Restrictions on acting upon oneself *)

(** C6, as the code has it.  An OWNER who removes themselves, leaves, or
    changes their own role fails BadRequest.  The owner-only check of
    [updateMemberRole] comes before the own-role check, so a caller who is
    not the OWNER and targets their own membership fails Forbidden.  The
    store is unchanged in every case. *)
Theorem self_restrictions (s : Store) (studioId userId : string) :
  (role_of s studioId userId = Some OWNER ->
   run (removeMember studioId userId userId) s
   = (Threw (ServiceErr (badRequest
       "Owners cannot remove themselves. Use leave instead after transferring ownership.")),
      s)
   /\
   run (leaveStudio studioId userId) s
   = (Threw (ServiceErr (badRequest
       "Owners cannot leave the studio. Transfer ownership first.")), s)
   /\
   forall role,
     run (updateMemberRole studioId userId role userId) s
     = (Threw (ServiceErr (badRequest "Cannot change your own role")), s))
  /\
  (role_of s studioId userId <> Some OWNER ->
   forall role,
     run (updateMemberRole studioId userId role userId) s
     = (Threw (ServiceErr (forbidden "Only the studio owner can change member roles")), s)).
Proof.
  split.
  - intros Hrole. destruct (role_of_find _ _ _ Hrole) as (a & Ha & Hr).
    repeat split.
    + unfold removeMember. simpl. rewrite Ha. simpl. rewrite Hr. simpl.
      rewrite Ha. simpl. rewrite Hr, String.eqb_refl. reflexivity.
    + unfold leaveStudio. simpl. rewrite Ha. simpl. rewrite Hr. reflexivity.
    + intros role. unfold updateMemberRole. simpl. rewrite Ha. simpl. rewrite Hr. simpl.
      rewrite Ha. simpl. rewrite String.eqb_refl. reflexivity.
  - intros Hrole role. unfold role_of, find_member in Hrole.
    unfold updateMemberRole. simpl.
    destruct (find (member_is studioId userId) (members s)) as [a|]; simpl in *;
      [|reflexivity].
    destruct (member_role a); try reflexivity. congruence.
Qed.

(* ================================================================== *)
(** * Ownership is not granted by a role change *)

(** C10, as the code has it.  [updateMemberRole] with target role OWNER
    always fails and leaves the store unchanged: with BadRequest when the
    caller is the OWNER, with Forbidden when the caller is anyone else. *)
Theorem no_promotion_to_owner
    (s : Store) (studioId userId updaterId : string) (m : StudioMember) :
  find_member s studioId userId = Some m ->
  exists e : ServiceError,
    run (updateMemberRole studioId userId OWNER updaterId) s = (Threw (ServiceErr e), s)
    /\ (role_of s studioId updaterId = Some OWNER ->
        statusCode e = 400 /\ code e = "BAD_REQUEST")
    /\ (role_of s studioId updaterId <> Some OWNER ->
        e = forbidden "Only the studio owner can change member roles").
Proof.
  unfold role_of, find_member. intros Hm.
  unfold updateMemberRole. simpl.
  destruct (find (member_is studioId updaterId) (members s)) as [a|]; simpl.
  - destruct (member_role a); simpl;
      try (eexists; split; [reflexivity|]; split; [discriminate| reflexivity]).
    rewrite Hm. simpl.
    destruct (userId =? updaterId); simpl;
      (eexists; split; [reflexivity|]; split;
         [split; reflexivity | intros H; exfalso; apply H; reflexivity]).
  - eexists; split; [reflexivity|]; split; [discriminate| reflexivity].
Qed.

(* ================================================================== *)
(** * Asking to join *)

Lemma find_by_id_of_row (s : Store) (studioId userId : string) (r : StudioJoinRequest) :
  find_request_for s studioId userId = Some r ->
  exists r0, find_request s (request_id r) = Some r0 /\ request_id r0 = request_id r.
Proof.
  unfold find_request_for, find_request. intros H.
  destruct (find (request_has_id (request_id r)) (joinRequests s)) as [r0|] eqn:E.
  - exists r0. split; [reflexivity|].
    apply find_some_true in E. apply String.eqb_eq in E. exact E.
  - apply find_some in H. destruct H as [Hin _].
    apply (find_none _ _ E) in Hin. unfold request_has_id in Hin.
    rewrite String.eqb_refl in Hin. discriminate.
Qed.

(** What [requestToJoin] does for a user who is not a member, case by case.
    The last case is the one the source does not single out: a request
    that was APPROVED earlier (its user has since left or was removed)
    falls through to the create, which the store refuses because the
    (studio, user) pair already has a request row. *)
Lemma requestToJoin_cases
    (s : Store) (studioId userId : string) (message : option string) (studio : Studio) :
  find_studio s studioId = Some studio ->
  find_member s studioId userId = None ->
  match studio_joinType studio with
  | OPEN =>
      let member := mkMember studioId userId MEMBER in
      run (requestToJoin studioId userId message) s
      = (Resolved (Joined member), with_members (members s ++ [member]) s)
  | INVITE_ONLY =>
      run (requestToJoin studioId userId message) s
      = (Threw (ServiceErr (forbidden "This studio is invite-only")), s)
  | WAITLIST =>
      match find_request_for s studioId userId with
      | None =>
          let request := mkJoinRequest (cuid (nextId s)) studioId userId
                                       RequestStatus.PENDING message in
          run (requestToJoin studioId userId message) s
          = (Resolved (Requested request),
             bump (with_joinRequests (joinRequests s ++ [request]) s))
      | Some existing =>
          match request_status existing with
          | RequestStatus.PENDING =>
              run (requestToJoin studioId userId message) s
              = (Threw (ServiceErr (conflict "You already have a pending join request")), s)
          | RequestStatus.REJECTED =>
              exists row,
                find_request s (request_id existing) = Some row
                /\ run (requestToJoin studioId userId message) s
                   = (Resolved (Requested (set_request RequestStatus.PENDING message row)),
                      with_joinRequests
                        (updated_rows (request_has_id (request_id existing))
                           (set_request RequestStatus.PENDING message) (joinRequests s)) s)
          | RequestStatus.APPROVED =>
              run (requestToJoin studioId userId message) s
              = (Threw (PrismaClientKnownRequestError (P2002 "StudioJoinRequest")), s)
          end
      end
  end.
Proof.
  unfold find_studio, find_member. intros Hs Hm.
  unfold requestToJoin. simpl. rewrite Hs. simpl. rewrite Hm. simpl.
  destruct (studio_joinType studio); simpl.
  - rewrite existsb_find, Hm. reflexivity.
  - reflexivity.
  - unfold find_request_for.
    destruct (find (request_is studioId userId) (joinRequests s)) as [r|] eqn:Er; simpl.
    + destruct (request_status r) eqn:Est; simpl.
      * reflexivity.
      * rewrite existsb_find, Er. reflexivity.
      * destruct (find_by_id_of_row _ _ _ Er) as (row & Hrow & _).
        exists row. split; [exact Hrow|].
        unfold find_request in Hrow.
        rewrite (update_first_found _ (set_request RequestStatus.PENDING message) _ Hrow).
        reflexivity.
    + rewrite existsb_find, Er. reflexivity.
Qed.

(** A member who asks to join is told so, whatever the join type. *)
Lemma requestToJoin_member
    (s : Store) (studioId userId : string) (message : option string)
    (studio : Studio) (m : StudioMember) :
  find_studio s studioId = Some studio ->
  find_member s studioId userId = Some m ->
  run (requestToJoin studioId userId message) s
  = (Threw (ServiceErr (conflict "You are already a member of this studio")), s).
Proof.
  unfold find_studio, find_member. intros Hs Hm.
  unfold requestToJoin. simpl. rewrite Hs. simpl. rewrite Hm. reflexivity.
Qed.

(** C4, at the input where the code departs from it.  bob's join request
    for the waitlist studio ["c0"] was approved and bob then left, so bob is
    not a member and holds an APPROVED request.  Asking to join again
    creates nothing and resets nothing: the call throws the store's
    uniqueness violation, which is not a Conflict. *)
Theorem requestToJoin_after_approval :
  let s := after History.approved_then_left in
  option_map studio_joinType (find_studio s "c0") = Some WAITLIST
  /\ find_member s "c0" "bob" = None
  /\ option_map request_status (find_request_for s "c0" "bob") = Some RequestStatus.APPROVED
  /\ run (requestToJoin "c0" "bob" (Some "again")) s
     = (Threw (PrismaClientKnownRequestError (P2002 "StudioJoinRequest")), s)
  /\ surfaced (fst (run (requestToJoin "c0" "bob" (Some "again")) s))
     = Some (mkReply 500 "INTERNAL_ERROR" "An unexpected error occurred").
Proof. vm_compute. repeat split. Qed.

(* ================================================================== *)
(** * Re-inviting *)

(** What [inviteUser] does once the inviter's authority and the target
    role are accepted and the target is not a member: a PENDING invite is a
    Conflict, an invite in any other status is set back to PENDING with the
    new role, and without an invite one is created. *)
Lemma inviteUser_cases
    (s : Store) (studioId inviterId userId : string) (role : option StudioRole) :
  not_staff (role_of s studioId inviterId) = false ->
  role <> Some OWNER ->
  ~ (role_of s studioId inviterId = Some MODERATOR /\ role = Some MODERATOR) ->
  find_member s studioId userId = None ->
  let inviteRole := match role with Some r => r | None => MEMBER end in
  match find_invite_for s studioId userId with
  | None =>
      let invite := mkInvite (cuid (nextId s)) studioId userId InviteStatus.PENDING
                             inviteRole in
      run (inviteUser studioId inviterId userId role) s
      = (Resolved invite, bump (with_invites (invites s ++ [invite]) s))
  | Some existing =>
      match invite_status existing with
      | InviteStatus.PENDING =>
          run (inviteUser studioId inviterId userId role) s
          = (Threw (ServiceErr (conflict "User already has a pending invite")), s)
      | _ =>
          exists row,
            find_invite s (invite_id existing) = Some row
            /\ run (inviteUser studioId inviterId userId role) s
               = (Resolved (set_invite InviteStatus.PENDING (Some inviteRole) row),
                  with_invites
                    (updated_rows (invite_has_id (invite_id existing))
                       (set_invite InviteStatus.PENDING (Some inviteRole)) (invites s)) s)
      end
  end.
Proof.
  unfold role_of, find_member, find_invite_for, find_invite.
  intros Hstaff Hr Hmod Hm. cbv zeta.
  assert (Hid : forall i, find (invite_is studioId userId) (invites s) = Some i ->
                exists row, find (invite_has_id (invite_id i)) (invites s) = Some row).
  { intros i Ei.
    destruct (find (invite_has_id (invite_id i)) (invites s)) as [r0|] eqn:E; eauto.
    apply find_some in Ei. destruct Ei as [Hin _].
    apply (find_none _ _ E) in Hin. unfold invite_has_id in Hin.
    rewrite String.eqb_refl in Hin. discriminate. }
  destruct (find (member_is studioId inviterId) (members s)) as [a|] eqn:Ha;
    simpl in Hstaff, Hmod; [|discriminate].
  destruct (member_role a) eqn:Har; simpl in Hstaff; try discriminate;
    destruct role as [[]|]; try congruence; try (exfalso; apply Hmod; split; reflexivity);
    unfold inviteUser; simpl; rewrite Ha; simpl; rewrite Har; simpl; rewrite Hm; simpl;
    (destruct (find (invite_is studioId userId) (invites s)) as [i|] eqn:Ei; simpl;
     [ destruct (Hid i eq_refl) as [row Hrow];
       destruct (invite_status i); simpl;
       [ reflexivity
       | exists row; split; [exact Hrow|];
         rewrite (update_first_found _ _ _ Hrow); reflexivity
       | exists row; split; [exact Hrow|];
         rewrite (update_first_found _ _ _ Hrow); reflexivity ]
     | rewrite existsb_find, Ei; reflexivity ]).
Qed.

(** C7, at the input where the code departs from it.  bob accepted
    alice's invite to studio ["c0"] and later left, so the invite is
    ACCEPTED and bob is not a member.  When alice invites bob again the
    call succeeds and the ACCEPTED invite, the same row, is PENDING again:
    [inviteUser] resets every invite that is not PENDING, not only a
    REJECTED one. *)
Theorem inviteUser_resets_accepted :
  let s := after History.accepted_then_left in
  let accepted := mkInvite "c1" "c0" "bob" InviteStatus.ACCEPTED MEMBER in
  let pending := mkInvite "c1" "c0" "bob" InviteStatus.PENDING MEMBER in
  find_invite_for s "c0" "bob" = Some accepted
  /\ find_member s "c0" "bob" = None
  /\ run (inviteUser "c0" "alice" "bob" None) s
     = (Resolved pending, with_invites [pending] s)
  /\ find_invite_for (snd (run (inviteUser "c0" "alice" "bob" None) s)) "c0" "bob"
     = Some pending.
Proof. vm_compute. repeat split. Qed.

(* ================================================================== *)
(** * Reviewing a waitlist application *)

(** Approving the application of someone who is already a member: the
    status update is a statement of its own and is kept, then the create
    is refused by the store and the call throws. *)
Lemma reviewResponse_existing_member
    (s : Store) (responseId userId : string)
    (response : StudioWaitlistResponse) (m : StudioMember) :
  find_response s responseId = Some response ->
  not_staff (role_of s (response_studioId response) userId) = false ->
  response_status response = RequestStatus.PENDING ->
  find_member s (response_studioId response) (response_userId response) = Some m ->
  run (reviewResponse responseId userId Review.APPROVED) s
  = (Threw (PrismaClientKnownRequestError (P2002 "StudioMember")),
     with_waitlistResponses
       (updated_rows (response_has_id responseId)
          (set_response None RequestStatus.APPROVED) (waitlistResponses s)) s).
Proof.
  unfold find_response, role_of, find_member. intros Hr Hstaff Hst Hm.
  unfold reviewResponse. simpl. rewrite Hr. simpl.
  destruct (find (member_is (response_studioId response) userId) (members s)) as [a|];
    simpl in *; [|discriminate].
  rewrite Hstaff, Hst. simpl.
  rewrite (update_first_found _ (set_response None RequestStatus.APPROVED) _ Hr).
  simpl. rewrite existsb_find, Hm. reflexivity.
Qed.

(** C3, at the inputs where the code departs from it.

    First, [reviewResponse]: bob applied to the waitlist of studio ["c0"],
    was invited meanwhile and accepted, so he is a member with a PENDING
    application.  When alice approves the application the call throws, yet
    the application is APPROVED in the store afterwards: the status update
    is applied and the membership creation is not.

    Second, [createStudio]: its two writes are separate statements too.
    When alice's request to join the new open studio runs between them,
    the studio row stays, alice is in it as MEMBER, no OWNER row exists and
    the creation has thrown. *)
Theorem compound_writes_not_atomic :
  (let s := after History.applied_member in
   let s' := snd (run (reviewResponse "c1" "alice" Review.APPROVED) s) in
   option_map response_status (find_response s "c1") = Some RequestStatus.PENDING
   /\ fst (run (reviewResponse "c1" "alice" Review.APPROVED) s)
      = Threw (PrismaClientKnownRequestError (P2002 "StudioMember"))
   /\ option_map response_status (find_response s' "c1") = Some RequestStatus.APPROVED
   /\ members s' = members s)
  /\
  (let sys := schedule History.create_and_join boot in
   nth_error (inflight sys) 0
   = Some (Throw (PrismaClientKnownRequestError (P2002 "StudioMember")))
   /\ option_map studio_slug (find_studio (store sys) "c0") = Some "studio"
   /\ members (store sys) = [mkMember "c0" "alice" MEMBER]).
Proof. vm_compute. repeat split. Qed.

(* ================================================================== *)
(** * What a refused write looks like to the caller *)

(** Approving the join request of someone who is already a member: the
    transaction is refused as a whole and the call throws the store's
    error. *)
Lemma approveRequest_existing_member
    (s : Store) (studioId requestId approverId : string)
    (request : StudioJoinRequest) (m : StudioMember) :
  not_staff (role_of s studioId approverId) = false ->
  find_request s requestId = Some request ->
  request_studioId request = studioId ->
  request_status request = RequestStatus.PENDING ->
  find_member s studioId (request_userId request) = Some m ->
  run (approveRequest studioId requestId approverId) s
  = (Threw (PrismaClientKnownRequestError (P2002 "StudioMember")), s).
Proof.
  unfold find_request, role_of, find_member. intros Hstaff Hr Hsid Hst Hm.
  unfold approveRequest. simpl.
  destruct (find (member_is studioId approverId) (members s)) as [a|];
    simpl in *; [|discriminate].
  rewrite Hstaff. simpl. rewrite Hr. simpl.
  rewrite Hsid, String.eqb_refl, Hst. simpl.
  rewrite (update_first_found _ (set_request RequestStatus.APPROVED None) _ Hr).
  simpl. rewrite existsb_find, Hm. reflexivity.
Qed.

(** C9 fails on the code.  bob is a member (through an invite) with a
    PENDING join request; when alice approves the request the membership
    create is refused for uniqueness and the caller is sent status 500 with
    code INTERNAL_ERROR, not a 409 Conflict.  The same happens to the loser
    of two acceptances of one invite handled side by side. *)
Lemma uniqueness_violation_not_conflict :
  (let s := after History.requested_member in
   run (approveRequest "c0" "c1" "alice") s
   = (Threw (PrismaClientKnownRequestError (P2002 "StudioMember")), s)
   /\ surfaced (fst (run (approveRequest "c0" "c1" "alice") s))
      = Some (mkReply 500 "INTERNAL_ERROR" "An unexpected error occurred")
   /\ option_map reply_code (surfaced (fst (run (approveRequest "c0" "c1" "alice") s)))
      <> Some "CONFLICT")
  /\
  (let sys := schedule History.double_accept boot in
   nth_error (inflight sys) 3
   = Some (Throw (PrismaClientKnownRequestError (P2002 "StudioMember")))
   /\ sendError (PrismaClientKnownRequestError (P2002 "StudioMember"))
      = mkReply 500 "INTERNAL_ERROR" "An unexpected error occurred"
   /\ memberships (store sys) "c0" "bob" = 1).
Proof. vm_compute. repeat split. discriminate. Qed.

(** C9, as the code has it.  The store's uniqueness violation is not a
    [ServiceError] and no service function catches it, so whenever a call
    throws it the caller is sent status 500 with code INTERNAL_ERROR.  That
    is what happens when a join request or a waitlist application is
    approved for someone who is already a member: neither operation checks
    membership first.  A Conflict reaches the caller only as a
    [ServiceError] thrown by an operation's own check. *)
Theorem uniqueness_violation_surfaces_as_internal_error :
  (forall (R : Type) (p : Prog R) (s : Store) (model : string),
     fst (run p s) = Threw (PrismaClientKnownRequestError (P2002 model)) ->
     surfaced (fst (run p s))
     = Some (mkReply 500 "INTERNAL_ERROR" "An unexpected error occurred"))
  /\
  (forall (s : Store) (studioId requestId approverId : string)
          (request : StudioJoinRequest) (m : StudioMember),
     not_staff (role_of s studioId approverId) = false ->
     find_request s requestId = Some request ->
     request_studioId request = studioId ->
     request_status request = RequestStatus.PENDING ->
     find_member s studioId (request_userId request) = Some m ->
     run (approveRequest studioId requestId approverId) s
     = (Threw (PrismaClientKnownRequestError (P2002 "StudioMember")), s)
     /\ surfaced (fst (run (approveRequest studioId requestId approverId) s))
        = Some (mkReply 500 "INTERNAL_ERROR" "An unexpected error occurred"))
  /\
  (forall (s : Store) (responseId userId : string)
          (response : StudioWaitlistResponse) (m : StudioMember),
     find_response s responseId = Some response ->
     not_staff (role_of s (response_studioId response) userId) = false ->
     response_status response = RequestStatus.PENDING ->
     find_member s (response_studioId response) (response_userId response) = Some m ->
     fst (run (reviewResponse responseId userId Review.APPROVED) s)
     = Threw (PrismaClientKnownRequestError (P2002 "StudioMember"))
     /\ surfaced (fst (run (reviewResponse responseId userId Review.APPROVED) s))
        = Some (mkReply 500 "INTERNAL_ERROR" "An unexpected error occurred"))
  /\
  (forall e : Error,
     reply_code (sendError e) = "CONFLICT" ->
     exists se : ServiceError, e = ServiceErr se /\ code se = "CONFLICT").
Proof.
  split; [|split; [|split]].
  - intros R p s model H. rewrite H. reflexivity.
  - intros s studioId requestId approverId request m H1 H2 H3 H4 H5.
    rewrite (@approveRequest_existing_member s studioId requestId approverId request m
               H1 H2 H3 H4 H5).
    split; reflexivity.
  - intros s responseId userId response m H1 H2 H3 H4.
    rewrite (@reviewResponse_existing_member s responseId userId response m H1 H2 H3 H4).
    split; reflexivity.
  - intros [se|pe]; simpl; intros H; [eauto|discriminate].
Qed.

(* ================================================================== *)
(** * At most one membership per studio and user *)

Lemma run_bind (A B : Type) (p : Prog A) (f : A -> Prog B) :
  forall s,
    run (bind p f) s
    = match run p s with
      | (Resolved a, s') => run (f a) s'
      | (Threw e, s') => (Threw e, s')
      end.
Proof.
  induction p as [r|e|X op k IH]; intros s; simpl; try reflexivity.
  destruct (exec op s) as [e|[x s']]; [reflexivity|apply IH].
Qed.

Lemma run_settle_threw (R : Type) (p : Prog R) (s s' : Store) (e : Error) :
  run p s = (Threw e, s') -> run (settle p) s = (Threw e, s').
Proof. intros H. unfold settle. rewrite run_bind, H. reflexivity. Qed.

(** Closes a goal [exists e s', run p s = (Threw e, s') /\ _ /\ _] once the
    run has been evaluated down to the throw. *)
Ltac thrown := do 2 eexists; split; [reflexivity|]; eauto.

(** An admission of someone who is a member already throws and leaves the
    membership table as it is. *)
Lemma admission_of_member_fails (r : Request) (s : Store)
    (studioId userId : string) (m : StudioMember) :
  newcomer r s = Some (studioId, userId) ->
  find_member s studioId userId = Some m ->
  exists e s',
    run (handle r) s = (Threw e, s') /\ turned_down e /\ members s' = members s.
Proof.
  unfold find_member, turned_down.
  destruct r; simpl; try discriminate.
  - (* requestToJoin *)
    intros H Hm. injection H as -> ->.
    exists (ServiceErr
              match find (studio_has_id studioId) (studios s) with
              | Some _ => conflict "You are already a member of this studio"
              | None => notFound ("Studio " ++ studioId ++ " not found")
              end), s.
    split; [|split; [left; eauto|reflexivity]].
    apply run_settle_threw. unfold requestToJoin. simpl.
    destruct (find (studio_has_id studioId) (studios s)); simpl; [|reflexivity].
    rewrite Hm. reflexivity.
  - (* approveRequest *)
    unfold find_request.
    destruct (find (request_has_id requestId) (joinRequests s)) as [q|] eqn:Eq;
      simpl; [|discriminate].
    intros H Hm. injection H as -> <-.
    unfold approveRequest. unfold settle. simpl.
    destruct (not_staff _); simpl; [thrown|].
    rewrite Eq. simpl.
    destruct (negb (request_studioId q =? studioId)); simpl;
      [thrown|].
    destruct (negb _); simpl; [thrown|].
    rewrite (update_first_found _ (set_request RequestStatus.APPROVED None) _ Eq).
    simpl. rewrite existsb_find, Hm. simpl.
    thrown.
  - (* respondToInvite *)
    destruct accept; [|discriminate]. unfold find_invite.
    destruct (find (invite_has_id inviteId) (invites s)) as [i|] eqn:Ei;
      simpl; [|discriminate].
    intros H Hm. injection H as <- <-.
    unfold respondToInvite. unfold settle. simpl.
    destruct (invite_userId i =? userId0) eqn:Eu; simpl;
      [|thrown].
    apply String.eqb_eq in Eu. subst userId0.
    destruct (negb _); simpl; [thrown|].
    rewrite Hm. simpl.
    rewrite (update_first_found _ (set_invite InviteStatus.ACCEPTED None) _ Ei).
    simpl. thrown.
  - (* reviewResponse *)
    destruct status; [|discriminate]. unfold find_response.
    destruct (find (response_has_id responseId) (waitlistResponses s)) as [w|] eqn:Ew;
      simpl; [|discriminate].
    intros H Hm. injection H as <- <-.
    unfold reviewResponse. unfold settle. simpl.
    destruct (not_staff _); simpl; [thrown|].
    destruct (negb _); simpl; [thrown|].
    rewrite (update_first_found _ (set_response None RequestStatus.APPROVED) _ Ew).
    simpl. rewrite existsb_find, Hm. simpl.
    thrown.
Qed.

(** C1. No state the service can reach holds two membership rows for the
    same studio and user, however the store calls of concurrent requests
    interleave.  The store refuses a second row for a pair that has one,
    and each operation that lets a member in (open join, invite acceptance,
    join-request approval, waitlist approval), when its user is a member
    already, is turned down by its own check or by the store and leaves
    the membership table untouched.  Which of the two it is depends on
    the operation: once its other checks have passed, [requestToJoin] and
    the acceptance of an invite look the membership up themselves and
    fail with Conflict, while the approval of a join request and the
    approval of a waitlist application go on to the create, which the
    store refuses for uniqueness. *)
Theorem membership_at_most_one :
  (forall (evs : list Event) (studioId userId : string),
     memberships (store (schedule evs boot)) studioId userId <= 1)
  /\
  (forall (history : list Request) (studioId userId : string),
     memberships (after history) studioId userId <= 1)
  /\
  (forall (s : Store) (studioId userId : string) (role : StudioRole) (m : StudioMember),
     find_member s studioId userId = Some m ->
     exec (studioMember_create studioId userId role) s = inl (P2002 "StudioMember"))
  /\
  (forall (r : Request) (s : Store) (studioId userId : string) (m : StudioMember),
     newcomer r s = Some (studioId, userId) ->
     find_member s studioId userId = Some m ->
     exists e s',
       run (handle r) s = (Threw e, s') /\ turned_down e /\ members s' = members s)
  /\
  (forall (s : Store) (studioId userId : string) (m : StudioMember),
     find_member s studioId userId = Some m ->
     (forall studio message,
        find_studio s studioId = Some studio ->
        run (requestToJoin studioId userId message) s
        = (Threw (ServiceErr (mkServiceError 409 "CONFLICT"
                                "You are already a member of this studio")), s))
     /\
     (forall inviteId invite,
        find_invite s inviteId = Some invite ->
        invite_studioId invite = studioId ->
        invite_userId invite = userId ->
        invite_status invite = InviteStatus.PENDING ->
        exists s',
          run (respondToInvite inviteId userId true) s
          = (Threw (ServiceErr (mkServiceError 409 "CONFLICT"
                                  "You are already a member of this studio")), s')
          /\ members s' = members s)
     /\
     (forall requestId approverId request,
        not_staff (role_of s studioId approverId) = false ->
        find_request s requestId = Some request ->
        request_studioId request = studioId ->
        request_userId request = userId ->
        request_status request = RequestStatus.PENDING ->
        run (approveRequest studioId requestId approverId) s
        = (Threw (PrismaClientKnownRequestError (P2002 "StudioMember")), s))
     /\
     (forall responseId reviewerId response,
        find_response s responseId = Some response ->
        response_studioId response = studioId ->
        response_userId response = userId ->
        not_staff (role_of s studioId reviewerId) = false ->
        response_status response = RequestStatus.PENDING ->
        exists s',
          run (reviewResponse responseId reviewerId Review.APPROVED) s
          = (Threw (PrismaClientKnownRequestError (P2002 "StudioMember")), s')
          /\ members s' = members s)).
Proof.
  split; [|split; [|split; [|split]]].
  - intros evs. apply (schedule_members_unique evs boot), members_unique_empty.
  - intros history. apply serve_members_unique, members_unique_empty.
  - unfold find_member. intros s studioId userId role m H. simpl.
    rewrite existsb_find, H. reflexivity.
  - apply admission_of_member_fails.
  - intros s studioId userId m Hm. split; [|split; [|split]].
    + intros studio message Hs. apply (@requestToJoin_member s studioId userId message studio m Hs Hm).
    + intros inviteId invite Hi <- Hu Hst.
      eexists. split; [apply (@respondToInvite_member s inviteId userId invite m Hi Hu Hst Hm)|].
      reflexivity.
    + intros requestId approverId request Hstaff Hr Hsid <- Hst.
      apply (@approveRequest_existing_member s studioId requestId approverId request m
               Hstaff Hr Hsid Hst Hm).
    + intros responseId reviewerId response Hr <- <- Hstaff Hst.
      eexists.
      split; [apply (@reviewResponse_existing_member s responseId reviewerId response m
                       Hr Hstaff Hst Hm)|].
      reflexivity.
Qed.

(* ================================================================== *)
(** * The scenarios of the specification *)

(** An open studio lets bob in at once, as MEMBER, with no request row. *)
Example open_join :
  let s := after History.open_studio in
  run (requestToJoin "c0" "bob" None) s
  = (Resolved (Joined (mkMember "c0" "bob" MEMBER)),
     with_members [mkMember "c0" "alice" OWNER; mkMember "c0" "bob" MEMBER] s)
  /\ joined (Joined (mkMember "c0" "bob" MEMBER)) = true
  /\ joinRequests (snd (run (requestToJoin "c0" "bob" None) s)) = [].
Proof. vm_compute. repeat split. Qed.

(** An invite-only studio turns a self-service join down. *)
Example invite_only_join :
  let s := after History.invite_only_studio in
  run (requestToJoin "c0" "bob" None) s
  = (Threw (ServiceErr (forbidden "This studio is invite-only")), s).
Proof. vm_compute. reflexivity. Qed.

(** An approved application makes bob a MEMBER; reviewing it again is a
    Conflict. *)
Example waitlist_approval :
  let s := after History.approved_application in
  option_map response_status (find_response s "c1") = Some RequestStatus.APPROVED
  /\ find_member s "c0" "bob" = Some (mkMember "c0" "bob" MEMBER)
  /\ run (reviewResponse "c1" "alice" Review.APPROVED) s
     = (Threw (ServiceErr (conflict "Response has already been reviewed")), s).
Proof. vm_compute. repeat split. Qed.

(** After a rejection bob asks again: the row of the first request is
    PENDING again and carries the new message; no row is added. *)
Example join_again_after_rejection :
  let s := after History.rejected_request in
  let again := mkJoinRequest "c1" "c0" "bob" RequestStatus.PENDING (Some "again") in
  joinRequests s = [mkJoinRequest "c1" "c0" "bob" RequestStatus.REJECTED (Some "hi")]
  /\ run (requestToJoin "c0" "bob" (Some "again")) s
     = (Resolved (Requested again), with_joinRequests [again] s).
Proof. vm_compute. repeat split. Qed.

(* ================================================================== *)
(** * Concrete cases *)

(** C1 on the staffed studio: bob has one membership row, the store refuses
    another, and bob's request to join again is a Conflict.  On the
    studios where bob got in while an invite, a join request or an
    application of his was PENDING: accepting the invite is a Conflict,
    approving the request or the application is the store's uniqueness
    violation. *)
Lemma membership_at_most_one_witness :
  let s := after History.staffed in
  let bob := mkMember "c0" "bob" MEMBER in
  memberships (store (schedule History.double_accept boot)) "c0" "bob" <= 1
  /\ memberships s "c0" "bob" <= 1
  /\ find_member s "c0" "bob" = Some bob
  /\ exec (studioMember_create "c0" "bob" MODERATOR) s = inl (P2002 "StudioMember")
  /\ newcomer (RequestToJoin "c0" "bob" None) s = Some ("c0", "bob")
  /\ (exists e s',
        run (handle (RequestToJoin "c0" "bob" None)) s = (Threw e, s')
        /\ turned_down e /\ members s' = members s)
  /\ run (requestToJoin "c0" "bob" None) s
     = (Threw (ServiceErr (mkServiceError 409 "CONFLICT"
                             "You are already a member of this studio")), s)
  /\ fst (run (respondToInvite "c2" "bob" true) (after History.invited_member))
     = Threw (ServiceErr (mkServiceError 409 "CONFLICT"
                            "You are already a member of this studio"))
  /\ run (approveRequest "c0" "c1" "alice") (after History.requested_member)
     = (Threw (PrismaClientKnownRequestError (P2002 "StudioMember")),
        after History.requested_member)
  /\ fst (run (reviewResponse "c1" "alice" Review.APPROVED) (after History.applied_member))
     = Threw (PrismaClientKnownRequestError (P2002 "StudioMember")).
Proof.
  intros s bob.
  destruct membership_at_most_one as (Hany & Hseq & Hstore & Hnew & Hhow).
  split; [apply Hany|].
  split; [apply Hseq|].
  split; [vm_compute; reflexivity|].
  split; [apply (Hstore _ "c0" "bob" MODERATOR bob); vm_compute; reflexivity|].
  split; [reflexivity|].
  split; [apply (Hnew (RequestToJoin "c0" "bob" None) _ "c0" "bob" bob);
          vm_compute; reflexivity|].
  destruct (Hhow s "c0" "bob" bob) as (Hjoin & _); [vm_compute; reflexivity|].
  destruct (Hhow (after History.invited_member) "c0" "bob" bob) as (_ & Haccept & _);
    [vm_compute; reflexivity|].
  destruct (Hhow (after History.requested_member) "c0" "bob" bob) as (_ & _ & Happrove & _);
    [vm_compute; reflexivity|].
  destruct (Hhow (after History.applied_member) "c0" "bob" bob) as (_ & _ & _ & Hreview);
    [vm_compute; reflexivity|].
  split; [apply (Hjoin (mkStudio "c0" "Studio" "studio" WAITLIST)); vm_compute; reflexivity|].
  split.
  { destruct (Haccept "c2" (mkInvite "c2" "c0" "bob" InviteStatus.PENDING MEMBER))
      as (s' & Hrun & _); [vm_compute; reflexivity ..|].
    rewrite Hrun. reflexivity. }
  split.
  { apply (Happrove "c1" "alice"
             (mkJoinRequest "c1" "c0" "bob" RequestStatus.PENDING (Some "hi")));
      vm_compute; reflexivity. }
  destruct (Hreview "c1" "alice"
              (mkResponse "c1" "c0" "bob" [("q1", "because")] RequestStatus.PENDING))
    as (s' & Hrun & _); [vm_compute; reflexivity ..|].
  rewrite Hrun. reflexivity.
Defined.

(** C2 on a studio where bob holds a PENDING invite: an unknown invite id
    is NotFound, carol answering bob's invite is Forbidden, answering an
    invite already ACCEPTED is a Conflict, and bob's acceptance makes him a
    MEMBER and the invite ACCEPTED. *)
Lemma respondToInvite_spec_witness :
  let s := after History.invited in
  let invite := mkInvite "c1" "c0" "bob" InviteStatus.PENDING MEMBER in
  find_invite s "c9" = None
  /\ run (respondToInvite "c9" "bob" true) s
     = (Threw (ServiceErr (notFound "Invite not found")), s)
  /\ find_invite s "c1" = Some invite
  /\ run (respondToInvite "c1" "carol" true) s
     = (Threw (ServiceErr (forbidden "This invite is not for you")), s)
  /\ run (respondToInvite "c2" "bob" true) (after History.staffed)
     = (Threw (ServiceErr (conflict "Invite is no longer pending")), after History.staffed)
  /\ find_member s "c0" "bob" = None
  /\ exists s',
       run (respondToInvite "c1" "bob" true) s
       = (Resolved (set_invite InviteStatus.ACCEPTED None invite,
                    Some (mkMember "c0" "bob" MEMBER)), s')
       /\ find_invite s' "c1" = Some (set_invite InviteStatus.ACCEPTED None invite)
       /\ find_member s' "c0" "bob" = Some (mkMember "c0" "bob" MEMBER).
Proof.
  intros s invite.
  destruct (respondToInvite_spec s "c9" "bob" true) as (Habsent & _).
  destruct (respondToInvite_spec s "c1" "carol" true) as (_ & Hother & _).
  destruct (respondToInvite_spec (after History.staffed) "c2" "bob" true)
    as (_ & _ & Hdone & _).
  destruct (respondToInvite_spec s "c1" "bob" true) as (_ & _ & _ & Haccept).
  split; [vm_compute; reflexivity|].
  split; [apply Habsent; vm_compute; reflexivity|].
  split; [vm_compute; reflexivity|].
  split; [apply (Hother invite); [vm_compute; reflexivity | discriminate]|].
  split; [apply (Hdone (mkInvite "c2" "c0" "bob" InviteStatus.ACCEPTED MEMBER));
          [vm_compute; reflexivity | reflexivity | discriminate]|].
  split; [vm_compute; reflexivity|].
  destruct (Haccept invite) as [(s' & Hrun & Hinv & Hmem & _) _];
    try (vm_compute; reflexivity).
  exists s'. split; [exact Hrun|]. split; [exact Hinv|exact Hmem].
Defined.

(** C5 on the staffed studio, where carol and dave moderate: carol cannot
    invite erin as MODERATOR, remove dave or alice, or change bob's role. *)
Lemma moderator_restrictions_witness :
  let s := after History.staffed in
  role_of s "c0" "carol" = Some MODERATOR
  /\ run (inviteUser "c0" "carol" "erin" (Some MODERATOR)) s
     = (Threw (ServiceErr (forbidden "Moderators cannot invite other moderators")), s)
  /\ run (removeMember "c0" "dave" "carol") s
     = (Threw (ServiceErr
                 (forbidden "Moderators cannot remove owners or other moderators")), s)
  /\ run (removeMember "c0" "alice" "carol") s
     = (Threw (ServiceErr
                 (forbidden "Moderators cannot remove owners or other moderators")), s)
  /\ run (updateMemberRole "c0" "bob" MODERATOR "carol") s
     = (Threw (ServiceErr (forbidden "Only the studio owner can change member roles")), s).
Proof.
  intros s.
  assert (Hrole : role_of s "c0" "carol" = Some MODERATOR) by (vm_compute; reflexivity).
  destruct (moderator_restrictions s "c0" "carol" Hrole) as (Hinvite & Hremove & Hchange).
  split; [exact Hrole|].
  split; [apply Hinvite|].
  split; [apply (Hremove "dave" (mkMember "c0" "dave" MODERATOR));
          [vm_compute; reflexivity | left; reflexivity]|].
  split; [apply (Hremove "alice" (mkMember "c0" "alice" OWNER));
          [vm_compute; reflexivity | right; reflexivity]|].
  apply Hchange.
Defined.

(** C6 fails on the code: carol, a MODERATOR, changing her own role is
    told Forbidden, not BadRequest. *)
Lemma own_role_change_by_moderator :
  let s := after History.staffed in
  role_of s "c0" "carol" = Some MODERATOR
  /\ run (updateMemberRole "c0" "carol" MEMBER "carol") s
     = (Threw (ServiceErr (forbidden "Only the studio owner can change member roles")), s)
  /\ (forall message,
        fst (run (updateMemberRole "c0" "carol" MEMBER "carol") s)
        <> Threw (ServiceErr (badRequest message))).
Proof. vm_compute. repeat split. discriminate. Qed.

(** C6 as amended, on the staffed studio: alice, the OWNER, cannot remove
    herself, leave, or change her own role (BadRequest); bob, a MEMBER,
    changing his own role is Forbidden. *)
Lemma self_restrictions_witness :
  let s := after History.staffed in
  role_of s "c0" "alice" = Some OWNER
  /\ run (removeMember "c0" "alice" "alice") s
     = (Threw (ServiceErr (badRequest
         "Owners cannot remove themselves. Use leave instead after transferring ownership.")),
        s)
  /\ run (leaveStudio "c0" "alice") s
     = (Threw (ServiceErr (badRequest
         "Owners cannot leave the studio. Transfer ownership first.")), s)
  /\ run (updateMemberRole "c0" "alice" MEMBER "alice") s
     = (Threw (ServiceErr (badRequest "Cannot change your own role")), s)
  /\ role_of s "c0" "bob" <> Some OWNER
  /\ run (updateMemberRole "c0" "bob" MODERATOR "bob") s
     = (Threw (ServiceErr (forbidden "Only the studio owner can change member roles")), s).
Proof.
  intros s.
  assert (Hrole : role_of s "c0" "alice" = Some OWNER) by (vm_compute; reflexivity).
  assert (Hbob : role_of s "c0" "bob" <> Some OWNER) by (vm_compute; discriminate).
  destruct (self_restrictions s "c0" "alice") as (Howner & _).
  destruct (Howner Hrole) as (Hremove & Hleave & Hchange).
  destruct (self_restrictions s "c0" "bob") as (_ & Hother).
  split; [exact Hrole|].
  split; [exact Hremove|].
  split; [exact Hleave|].
  split; [apply Hchange|].
  split; [exact Hbob|].
  apply Hother, Hbob.
Defined.

(** C8 on the studio where bob, already a member, still holds a PENDING
    invite: his acceptance is a Conflict, the invite is ACCEPTED afterwards
    and the membership table is as before. *)
Lemma respondToInvite_already_member_witness :
  let s := after History.invited_member in
  let invite := mkInvite "c2" "c0" "bob" InviteStatus.PENDING MEMBER in
  find_invite s "c2" = Some invite
  /\ find_member s "c0" "bob" = Some (mkMember "c0" "bob" MEMBER)
  /\ exists s',
       run (respondToInvite "c2" "bob" true) s
       = (Threw (ServiceErr (conflict "You are already a member of this studio")), s')
       /\ find_invite s' "c2"
          = Some (mkInvite "c2" "c0" "bob" InviteStatus.ACCEPTED MEMBER)
       /\ members s' = members s
       /\ memberships s' "c0" "bob" = 1.
Proof.
  intros s invite.
  split; [vm_compute; reflexivity|].
  split; [vm_compute; reflexivity|].
  destruct (@respondToInvite_already_member s "c2" "bob" invite (mkMember "c0" "bob" MEMBER))
    as (s' & Hrun & Hinv & _ & _ & _ & Hmem & Hcount); try (vm_compute; reflexivity).
  exists s'. split; [exact Hrun|]. split; [exact Hinv|]. split; [exact Hmem|].
  transitivity (memberships s "c0" "bob"); [exact Hcount|vm_compute; reflexivity].
Defined.

(** C9 as amended, on concrete studios: approving bob's join request, or
    his waitlist application, when he is a member already ends in status
    500 with code INTERNAL_ERROR. *)
Lemma uniqueness_violation_surfaces_witness :
  (let s := after History.requested_member in
   not_staff (role_of s "c0" "alice") = false
   /\ find_request s "c1"
      = Some (mkJoinRequest "c1" "c0" "bob" RequestStatus.PENDING (Some "hi"))
   /\ find_member s "c0" "bob" = Some (mkMember "c0" "bob" MEMBER)
   /\ run (approveRequest "c0" "c1" "alice") s
      = (Threw (PrismaClientKnownRequestError (P2002 "StudioMember")), s)
   /\ surfaced (fst (run (approveRequest "c0" "c1" "alice") s))
      = Some (mkReply 500 "INTERNAL_ERROR" "An unexpected error occurred"))
  /\
  (let s := after History.applied_member in
   find_response s "c1"
   = Some (mkResponse "c1" "c0" "bob" [("q1", "because")] RequestStatus.PENDING)
   /\ surfaced (fst (run (reviewResponse "c1" "alice" Review.APPROVED) s))
      = Some (mkReply 500 "INTERNAL_ERROR" "An unexpected error occurred")).
Proof.
  destruct uniqueness_violation_surfaces_as_internal_error
    as (_ & Happrove & Hreview & _).
  split.
  - intros s.
    split; [vm_compute; reflexivity|].
    split; [vm_compute; reflexivity|].
    split; [vm_compute; reflexivity|].
    apply (Happrove s "c0" "c1" "alice"
             (mkJoinRequest "c1" "c0" "bob" RequestStatus.PENDING (Some "hi"))
             (mkMember "c0" "bob" MEMBER));
      vm_compute; reflexivity.
  - intros s.
    split; [vm_compute; reflexivity|].
    apply (Hreview s "c1" "alice"
             (mkResponse "c1" "c0" "bob" [("q1", "because")] RequestStatus.PENDING)
             (mkMember "c0" "bob" MEMBER));
      vm_compute; reflexivity.
Defined.

(** C10 fails on the code: carol, a MODERATOR, asking to make bob OWNER is
    told Forbidden, not BadRequest. *)
Lemma promotion_to_owner_by_moderator :
  let s := after History.staffed in
  role_of s "c0" "carol" = Some MODERATOR
  /\ find_member s "c0" "bob" = Some (mkMember "c0" "bob" MEMBER)
  /\ run (updateMemberRole "c0" "bob" OWNER "carol") s
     = (Threw (ServiceErr (forbidden "Only the studio owner can change member roles")), s)
  /\ (forall message,
        fst (run (updateMemberRole "c0" "bob" OWNER "carol") s)
        <> Threw (ServiceErr (badRequest message))).
Proof. vm_compute. repeat split. discriminate. Qed.

(** C10 as amended, on the staffed studio: alice, the OWNER, making bob
    OWNER is a BadRequest and nothing changes. *)
Lemma no_promotion_to_owner_witness :
  let s := after History.staffed in
  find_member s "c0" "bob" = Some (mkMember "c0" "bob" MEMBER)
  /\ role_of s "c0" "alice" = Some OWNER
  /\ exists e : ServiceError,
       run (updateMemberRole "c0" "bob" OWNER "alice") s = (Threw (ServiceErr e), s)
       /\ statusCode e = 400 /\ code e = "BAD_REQUEST".
Proof.
  intros s.
  assert (Hbob : find_member s "c0" "bob" = Some (mkMember "c0" "bob" MEMBER))
    by (vm_compute; reflexivity).
  assert (Halice : role_of s "c0" "alice" = Some OWNER) by (vm_compute; reflexivity).
  destruct (@no_promotion_to_owner s "c0" "bob" "alice" _ Hbob) as (e & Hrun & Howner & _).
  split; [exact Hbob|]. split; [exact Halice|].
  exists e. split; [exact Hrun|]. apply Howner, Halice.
Defined.

(* ================================================================== *)
(** * Keys stay unique *)

Lemma unique_find (A : Type) (p : A -> bool) (l : list A) (x : A) :
  List.length (filter p l) <= 1 -> In x l -> p x = true -> find p l = Some x.
Proof.
  induction l as [|y r IH]; simpl; [tauto|].
  destruct (p y) eqn:E; simpl; intros Hlen [->|Hin] Hx.
  - reflexivity.
  - assert (Hf : In x (filter p r)) by (apply filter_In; tauto).
    destruct (filter p r); [destruct Hf|simpl in Hlen; lia].
  - congruence.
  - auto.
Qed.

Lemma filter_length_app_new (A : Type) (p q : A -> bool) (l : list A) (x : A) :
  existsb p l = false ->
  (q x = true -> forall y, q y = p y) ->
  List.length (filter q l) <= 1 ->
  List.length (filter q (l ++ [x])) <= 1.
Proof.
  intros He Hpq Hlen. rewrite filter_app, length_app. simpl.
  destruct (q x) eqn:E; simpl; [|lia].
  rewrite (filter_ext _ _ (Hpq eq_refl)), (existsb_false_filter _ _ He). simpl. lia.
Qed.

Lemma invite_is_eq (studioId userId : string) (i : StudioInvite) :
  invite_is studioId userId i = true <->
  invite_studioId i = studioId /\ invite_userId i = userId.
Proof. unfold invite_is. rewrite andb_true_iff, !String.eqb_eq. tauto. Qed.

Lemma request_is_eq (studioId userId : string) (r : StudioJoinRequest) :
  request_is studioId userId r = true <->
  request_studioId r = studioId /\ request_userId r = userId.
Proof. unfold request_is. rewrite andb_true_iff, !String.eqb_eq. tauto. Qed.

Lemma response_is_eq (studioId userId : string) (r : StudioWaitlistResponse) :
  response_is studioId userId r = true <->
  response_studioId r = studioId /\ response_userId r = userId.
Proof. unfold response_is. rewrite andb_true_iff, !String.eqb_eq. tauto. Qed.

(** Nested writes on the memberships leave every other table alone. *)
Lemma member_write_tables (studioId : string) (w : MemberWrite) (s s' : Store) :
  member_write studioId w s = inr s' ->
  studios s' = studios s /\ invites s' = invites s /\ joinRequests s' = joinRequests s
  /\ waitlistResponses s' = waitlistResponses s /\ nextId s' = nextId s.
Proof.
  destruct w as [userId role|userId role|userId|role]; simpl; intros H.
  - destruct (existsb _ _); [discriminate|]. injection H as <-. repeat split.
  - destruct (update_first _ _ _) as [[y l]|]; [|discriminate].
    injection H as <-. repeat split.
  - destruct (remove_first _ _) as [[y l]|]; [|discriminate].
    injection H as <-. repeat split.
  - injection H as <-. repeat split.
Qed.

Lemma member_writes_tables (studioId : string) (ws : list MemberWrite) :
  forall s s',
    member_writes studioId ws s = inr s' ->
    studios s' = studios s /\ invites s' = invites s /\ joinRequests s' = joinRequests s
    /\ waitlistResponses s' = waitlistResponses s /\ nextId s' = nextId s.
Proof.
  induction ws as [|w ws IH]; intros s s' H; simpl in H.
  - injection H as <-. repeat split.
  - destruct (member_write studioId w s) as [e|s1] eqn:E; [discriminate|].
    destruct (member_write_tables _ _ _ E) as (E1 & E2 & E3 & E4 & E5).
    destruct (IH _ _ H) as (F1 & F2 & F3 & F4 & F5).
    repeat split; congruence.
Qed.

(** Splits [H : exec op s = inr (x, s')] into the ways the store can have
    accepted the statement. *)
Ltac accepted H :=
  simpl in H;
  repeat match type of H with
    | inr _ = inr _ => injection H as <- <-
    | inl _ = inr _ => discriminate H
    | context [if ?c then _ else _] => destruct c eqn:?
    | context [match ?c with Some _ => _ | None => _ end] =>
        destruct c as [[? ?]|] eqn:?
    | context [member_writes ?a ?b ?c] => destruct (member_writes a b c) eqn:?
    end.

Lemma exec_invites_unique (X : Type) (op : PrismaOp X) :
  forall (s s' : Store) (x : X),
    (forall a b, invitations s a b <= 1) -> exec op s = inr (x, s') ->
    forall a b, invitations s' a b <= 1.
Proof.
  induction op; intros s s' x0 Hinv H; accepted H; try exact Hinv.
  - intros a b.
    destruct (@member_writes_tables _ _ _ _ Heqs1) as (E1 & E2 & E3 & E4 & E5).
    unfold invitations. rewrite E2. apply Hinv.
  - intros a b. unfold invitations. simpl.
    etransitivity; [apply filter_filter_length|apply Hinv].
  - intros a b. unfold invitations. simpl.
    apply (filter_length_app_new (invite_is studioId userId)); [assumption| |apply Hinv].
    intros E y. apply invite_is_eq in E. simpl in E. destruct E as [-> ->]. reflexivity.
  - intros a b. unfold invitations. simpl.
    erewrite update_first_filter; [apply Hinv| |eassumption]. reflexivity.
  - destruct (exec op1 s) as [e|[x s1]] eqn:E1; [discriminate|].
    destruct (exec op2 s1) as [e|[y s2]] eqn:E2; [discriminate|].
    injection H as <- <-. eauto.
Qed.

Lemma exec_requests_unique (X : Type) (op : PrismaOp X) :
  forall (s s' : Store) (x : X),
    (forall a b, requests s a b <= 1) -> exec op s = inr (x, s') ->
    forall a b, requests s' a b <= 1.
Proof.
  induction op; intros s s' x0 Hinv H; accepted H; try exact Hinv.
  - intros a b.
    destruct (@member_writes_tables _ _ _ _ Heqs1) as (E1 & E2 & E3 & E4 & E5).
    unfold requests. rewrite E3. apply Hinv.
  - intros a b. unfold requests. simpl.
    etransitivity; [apply filter_filter_length|apply Hinv].
  - intros a b. unfold requests. simpl.
    apply (filter_length_app_new (request_is studioId userId)); [assumption| |apply Hinv].
    intros E y. apply request_is_eq in E. simpl in E. destruct E as [-> ->]. reflexivity.
  - intros a b. unfold requests. simpl.
    erewrite update_first_filter; [apply Hinv| |eassumption]. reflexivity.
  - destruct (exec op1 s) as [e|[x s1]] eqn:E1; [discriminate|].
    destruct (exec op2 s1) as [e|[y s2]] eqn:E2; [discriminate|].
    injection H as <- <-. eauto.
Qed.

Lemma exec_responses_unique (X : Type) (op : PrismaOp X) :
  forall (s s' : Store) (x : X),
    (forall a b, responses s a b <= 1) -> exec op s = inr (x, s') ->
    forall a b, responses s' a b <= 1.
Proof.
  induction op; intros s s' x0 Hinv H; accepted H; try exact Hinv.
  - intros a b.
    destruct (@member_writes_tables _ _ _ _ Heqs1) as (E1 & E2 & E3 & E4 & E5).
    unfold responses. rewrite E4. apply Hinv.
  - intros a b. unfold responses. simpl.
    etransitivity; [apply filter_filter_length|apply Hinv].
  - intros a b. unfold responses. simpl.
    apply (filter_length_app_new (response_is studioId userId)); [assumption| |apply Hinv].
    intros E y. apply response_is_eq in E. simpl in E. destruct E as [-> ->]. reflexivity.
  - intros a b. unfold responses. simpl.
    erewrite update_first_filter; [apply Hinv| |eassumption]. reflexivity.
  - intros a b. unfold responses. simpl.
    erewrite update_first_filter; [apply Hinv| |eassumption]. reflexivity.
  - destruct (exec op1 s) as [e|[x s1]] eqn:E1; [discriminate|].
    destruct (exec op2 s1) as [e|[y s2]] eqn:E2; [discriminate|].
    injection H as <- <-. eauto.
Qed.

Lemma exec_slugs_unique (X : Type) (op : PrismaOp X) :
  forall (s s' : Store) (x : X),
    (forall a, slugs s a <= 1) -> exec op s = inr (x, s') ->
    forall a, slugs s' a <= 1.
Proof.
  induction op; intros s s' x0 Hinv H; accepted H; try exact Hinv.
  - intros a. unfold slugs. simpl.
    apply (filter_length_app_new (studio_has_slug slug)); [assumption| |apply Hinv].
    intros E y. unfold studio_has_slug in *. simpl in E.
    apply String.eqb_eq in E. subst a. reflexivity.
  - intros a.
    destruct (@member_writes_tables _ _ _ _ Heqs1) as (E1 & E2 & E3 & E4 & E5).
    unfold slugs. rewrite E1. simpl.
    erewrite update_first_filter; [apply Hinv| |eassumption].
    intros y. destruct name, joinType; reflexivity.
  - intros a. unfold slugs. simpl.
    etransitivity; [apply filter_filter_length|apply Hinv].
  - intros a. unfold slugs. simpl.
    etransitivity; [apply filter_filter_length|apply Hinv].
  - destruct (exec op1 s) as [e|[x s1]] eqn:E1; [discriminate|].
    destruct (exec op2 s1) as [e|[y s2]] eqn:E2; [discriminate|].
    injection H as <- <-. eauto.
Qed.

Lemma exec_keys_unique (X : Type) (op : PrismaOp X) (s s' : Store) (x : X) :
  keys_unique s -> exec op s = inr (x, s') -> keys_unique s'.
Proof.
  intros (Hi & Hq & Hw & Hs) H. repeat split.
  - eapply exec_invites_unique; eauto.
  - eapply exec_requests_unique; eauto.
  - eapply exec_responses_unique; eauto.
  - eapply exec_slugs_unique; eauto.
Qed.

Lemma keys_unique_empty : keys_unique empty_store.
Proof.
  repeat split; intros; unfold invitations, requests, responses, slugs; simpl; lia.
Qed.

Lemma step_keys_unique (R : Type) (p : Prog R) (s : Store) :
  keys_unique s -> keys_unique (snd (step p s)).
Proof.
  intros Hinv. destruct p as [r|e|X op k]; simpl; try exact Hinv.
  destruct (exec op s) as [e|[x s']] eqn:E; simpl; [exact Hinv|].
  eapply exec_keys_unique; eauto.
Qed.

Lemma run_keys_unique (R : Type) (p : Prog R) :
  forall s, keys_unique s -> keys_unique (snd (run p s)).
Proof.
  induction p as [r|e|X op k IH]; intros s Hinv; simpl; try exact Hinv.
  destruct (exec op s) as [e|[x s']] eqn:E; simpl; [exact Hinv|].
  apply IH. eapply exec_keys_unique; eauto.
Qed.

Lemma advance_keys_unique (i : nat) (ts : list (Prog unit)) :
  forall s, keys_unique s -> keys_unique (snd (advance i ts s)).
Proof.
  revert i. induction ts as [|t r IH]; intros i s Hinv; destruct i as [|j]; simpl;
    try exact Hinv.
  - pose proof (step_keys_unique t Hinv) as H.
    destruct (step t s) as [t' s']. exact H.
  - specialize (IH j s Hinv). destruct (advance j r s) as [r' s']. exact IH.
Qed.

Lemma serve_keys_unique (reqs : list Request) :
  forall s, keys_unique s -> keys_unique (serve reqs s).
Proof.
  unfold serve.
  induction reqs as [|r reqs IH]; intros s Hinv; simpl; [exact Hinv|].
  apply IH, run_keys_unique, Hinv.
Qed.

Lemma reachable_keys_unique (evs : list Event) :
  keys_unique (store (schedule evs boot)).
Proof.
  unfold schedule.
  assert (H : forall sys, keys_unique (store sys) ->
                          keys_unique (store (fold_left fire evs sys))).
  { induction evs as [|ev evs IH]; intros sys Hinv; simpl; [exact Hinv|].
    apply IH. destruct ev as [r|i]; simpl; [exact Hinv|].
    pose proof (advance_keys_unique i (inflight sys) Hinv) as H.
    destruct (advance i (inflight sys) (store sys)) as [ts s]. exact H. }
  apply H, keys_unique_empty.
Qed.

(* ================================================================== *)
(** * Join requests: approval and rejection *)

Lemma find_has_request_id (s : Store) (requestId : string) (request : StudioJoinRequest) :
  find_request s requestId = Some request -> request_id request = requestId.
Proof.
  unfold find_request. intros H. apply find_some_true in H.
  apply String.eqb_eq in H. exact H.
Qed.


(** X3: [approveRequest] and [rejectRequest] check, in this order, that the
    caller is OWNER or MODERATOR of the studio (Forbidden, even for a
    request that does not exist), that the request exists (NotFound), that
    it belongs to the studio named in the call (BadRequest) and that it is
    PENDING (Conflict).  A refused call leaves the store as it was. *)
Theorem join_request_review_guards
    (s : Store) (studioId requestId approverId : string) :
  (not_staff (role_of s studioId approverId) = true ->
   run (approveRequest studioId requestId approverId) s
   = (Threw (ServiceErr
        (forbidden "Only owners and moderators can approve join requests")), s)
   /\ run (rejectRequest studioId requestId approverId) s
      = (Threw (ServiceErr
           (forbidden "Only owners and moderators can reject join requests")), s))
  /\
  (not_staff (role_of s studioId approverId) = false ->
   find_request s requestId = None ->
   run (approveRequest studioId requestId approverId) s
   = (Threw (ServiceErr (notFound "Join request not found")), s)
   /\ run (rejectRequest studioId requestId approverId) s
      = (Threw (ServiceErr (notFound "Join request not found")), s))
  /\
  (forall request,
     not_staff (role_of s studioId approverId) = false ->
     find_request s requestId = Some request ->
     request_studioId request <> studioId ->
     run (approveRequest studioId requestId approverId) s
     = (Threw (ServiceErr (badRequest "Request does not belong to this studio")), s)
     /\ run (rejectRequest studioId requestId approverId) s
        = (Threw (ServiceErr (badRequest "Request does not belong to this studio")), s))
  /\
  (forall request,
     not_staff (role_of s studioId approverId) = false ->
     find_request s requestId = Some request ->
     request_studioId request = studioId ->
     request_status request <> RequestStatus.PENDING ->
     run (approveRequest studioId requestId approverId) s
     = (Threw (ServiceErr (conflict "Request is not pending")), s)
     /\ run (rejectRequest studioId requestId approverId) s
        = (Threw (ServiceErr (conflict "Request is not pending")), s)).
Proof.
  unfold find_request, role_of, find_member.
  split; [|split; [|split]].
  - intros Hstaff. unfold approveRequest, rejectRequest. simpl.
    destruct (find (member_is studioId approverId) (members s)) as [a|];
      simpl in *; rewrite ?Hstaff; split; reflexivity.
  - intros Hstaff Hr. unfold approveRequest, rejectRequest. simpl.
    destruct (find (member_is studioId approverId) (members s)) as [a|];
      simpl in *; [|discriminate].
    rewrite Hstaff. simpl. rewrite Hr. split; reflexivity.
  - intros request Hstaff Hr Hsid. unfold approveRequest, rejectRequest. simpl.
    destruct (find (member_is studioId approverId) (members s)) as [a|];
      simpl in *; [|discriminate].
    rewrite Hstaff. simpl. rewrite Hr. simpl. rewrite (eqb_neq_false Hsid).
    split; reflexivity.
  - intros request Hstaff Hr Hsid Hst. unfold approveRequest, rejectRequest. simpl.
    destruct (find (member_is studioId approverId) (members s)) as [a|];
      simpl in *; [|discriminate].
    rewrite Hstaff. simpl. rewrite Hr. simpl.
    rewrite Hsid, String.eqb_refl, (RequestStatus_eqb_neq Hst).
    split; reflexivity.
Qed.

Lemma rejectRequest_rejects
    (s : Store) (studioId requestId approverId : string) (request : StudioJoinRequest) :
  not_staff (role_of s studioId approverId) = false ->
  find_request s requestId = Some request ->
  request_studioId request = studioId ->
  request_status request = RequestStatus.PENDING ->
  run (rejectRequest studioId requestId approverId) s
  = (Resolved (set_request RequestStatus.REJECTED None request),
     with_joinRequests
       (updated_rows (request_has_id requestId)
          (set_request RequestStatus.REJECTED None) (joinRequests s)) s).
Proof.
  unfold find_request, role_of, find_member. intros Hstaff Hr Hsid Hst.
  unfold rejectRequest. simpl.
  destruct (find (member_is studioId approverId) (members s)) as [a|];
    simpl in *; [|discriminate].
  rewrite Hstaff. simpl. rewrite Hr. simpl.
  rewrite Hsid, String.eqb_refl, Hst. simpl.
  rewrite (update_first_found _ (set_request RequestStatus.REJECTED None) _ Hr).
  reflexivity.
Qed.

Lemma updated_rows_length (A : Type) (p : A -> bool) (f : A -> A) (l : list A) :
  List.length (updated_rows p f l) = List.length l.
Proof.
  unfold updated_rows.
  assert (H : forall y l', update_first p f l = Some (y, l') ->
                           List.length l' = List.length l).
  { induction l as [|x r IH]; simpl; intros y l' H; [discriminate|].
    destruct (p x).
    - injection H as _ <-. reflexivity.
    - destruct (update_first p f r) as [[z r']|]; [|discriminate].
      injection H as _ <-. simpl. f_equal. eauto. }
  destruct (update_first p f l) as [[y l']|]; eauto.
Qed.

Lemma updated_rows_filter (A : Type) (p q : A -> bool) (f : A -> A) (l : list A) :
  (forall x, q (f x) = q x) ->
  List.length (filter q (updated_rows p f l)) = List.length (filter q l).
Proof.
  intros Hq. unfold updated_rows.
  destruct (update_first p f l) as [[y l']|] eqn:E; [|reflexivity].
  eapply update_first_filter; eauto.
Qed.

(** X4: rejecting a PENDING join request marks it REJECTED and touches
    nothing else; when its user then asks to join the waitlist studio
    again, the very same row (same id) is PENDING again with the new
    message, and the table has as many rows as before. *)
Theorem rejectRequest_then_rejoin
    (s : Store) (studioId requestId approverId : string)
    (request : StudioJoinRequest) (studio : Studio) (message : string) :
  (forall a b, requests s a b <= 1) ->
  not_staff (role_of s studioId approverId) = false ->
  find_request s requestId = Some request ->
  request_studioId request = studioId ->
  request_status request = RequestStatus.PENDING ->
  find_studio s studioId = Some studio ->
  studio_joinType studio = WAITLIST ->
  find_member s studioId (request_userId request) = None ->
  let rejected := set_request RequestStatus.REJECTED None request in
  let again := mkJoinRequest requestId studioId (request_userId request)
                             RequestStatus.PENDING (Some message) in
  exists s1 s2,
    run (rejectRequest studioId requestId approverId) s = (Resolved rejected, s1)
    /\ members s1 = members s
    /\ find_request_for s1 studioId (request_userId request) = Some rejected
    /\ run (requestToJoin studioId (request_userId request) (Some message)) s1
       = (Resolved (Requested again), s2)
    /\ find_request s2 requestId = Some again
    /\ List.length (joinRequests s2) = List.length (joinRequests s).
Proof.
  intros Huniq Hstaff Hr Hsid Hst Hstudio Hjt Hm. cbv zeta.
  pose proof (@find_has_request_id s requestId request Hr) as Hid.
  rewrite (@rejectRequest_rejects s studioId requestId approverId request
             Hstaff Hr Hsid Hst).
  set (rows1 := updated_rows (request_has_id requestId)
                  (set_request RequestStatus.REJECTED None) (joinRequests s)).
  set (s1 := with_joinRequests rows1 s).
  assert (Hby_id : find (request_has_id requestId) rows1
                   = Some (set_request RequestStatus.REJECTED None request)).
  { apply find_updated_rows; [apply request_has_id_set|exact Hr]. }
  assert (Hby_key : find_request_for s1 studioId (request_userId request)
                    = Some (set_request RequestStatus.REJECTED None request)).
  { unfold find_request_for. simpl. apply unique_find.
    - unfold rows1. rewrite updated_rows_filter by reflexivity. apply Huniq.
    - apply find_some in Hby_id. tauto.
    - apply request_is_eq. simpl. tauto. }
  pose proof (@requestToJoin_cases s1 studioId (request_userId request) (Some message)
                studio Hstudio Hm) as Hcases.
  rewrite Hjt, Hby_key in Hcases.
  cbn [request_status request_id set_request] in Hcases.
  destruct Hcases as (row & Hrow & Hrun).
  rewrite Hid in Hrow, Hrun.
  unfold find_request in Hrow. simpl in Hrow. rewrite Hby_id in Hrow.
  injection Hrow as <-.
  do 2 eexists. split; [reflexivity|]. split; [reflexivity|].
  split; [exact Hby_key|]. split.
  - rewrite Hrun. unfold set_request. simpl. rewrite Hid, Hsid. reflexivity.
  - split.
    + unfold find_request. simpl.
      etransitivity;
        [apply find_updated_rows; [intros x; reflexivity|exact Hby_id]|].
      simpl. rewrite Hid, Hsid. reflexivity.
    + simpl. unfold rows1. rewrite !updated_rows_length. reflexivity.
Qed.

(* ================================================================== *)
(** * Removing members, leaving, changing roles *)

Section OtherRows.
Variable A : Type.
Variables p q : A -> bool.
Hypothesis disjoint : forall x, p x = true -> q x = false.

Lemma find_remaining_other (l : list A) :
  find q (remaining_rows p l) = find q l.
Proof.
  unfold remaining_rows.
  induction l as [|x r IH]; simpl; [reflexivity|].
  destruct (p x) eqn:E.
  - rewrite (disjoint E). reflexivity.
  - destruct (remove_first p r) as [[y r']|]; simpl.
    + destruct (q x); [reflexivity|exact IH].
    + reflexivity.
Qed.

Lemma find_updated_other (f : A -> A) (l : list A) :
  (forall x, q (f x) = q x) ->
  find q (updated_rows p f l) = find q l.
Proof.
  intros Hq. unfold updated_rows.
  induction l as [|x r IH]; simpl; [reflexivity|].
  destruct (p x) eqn:E.
  - simpl. rewrite Hq, (disjoint E). reflexivity.
  - destruct (update_first p f r) as [[y r']|]; simpl.
    + destruct (q x); [reflexivity|exact IH].
    + reflexivity.
Qed.
End OtherRows.

Lemma find_remaining_same (A : Type) (p : A -> bool) (l : list A) :
  List.length (filter p l) <= 1 -> find p (remaining_rows p l) = None.
Proof.
  unfold remaining_rows.
  induction l as [|x r IH]; simpl; [reflexivity|].
  destruct (p x) eqn:E; simpl; intros Hlen.
  - destruct (find p r) as [y|] eqn:Ef; [|reflexivity].
    apply find_some in Ef.
    assert (Hy : In y (filter p r)) by (apply filter_In; exact Ef).
    destruct (filter p r); [destruct Hy|simpl in Hlen; lia].
  - specialize (IH Hlen).
    destruct (remove_first p r) as [[y r']|]; simpl; rewrite E; exact IH.
Qed.

Lemma member_is_other (S U S' U' : string) (m : StudioMember) :
  (S', U') <> (S, U) -> member_is S U m = true -> member_is S' U' m = false.
Proof.
  intros Hne H. apply member_is_eq in H. destruct H as [<- <-].
  destruct (member_is S' U' m) eqn:E; [|reflexivity].
  apply member_is_eq in E. destruct E as [<- <-]. congruence.
Qed.

(** X5: when the rules allow the removal (an OWNER removing anyone but
    themselves as OWNER, a MODERATOR removing a MEMBER), [removeMember]
    deletes the target's membership: the target has no role afterwards and
    every other membership is as before. *)
Theorem removeMember_removes
    (s : Store) (studioId userId removerId : string)
    (target : StudioMember) (removerRole : StudioRole) :
  members_unique s ->
  role_of s studioId removerId = Some removerRole ->
  find_member s studioId userId = Some target ->
  (removerRole = OWNER /\ ~ (member_role target = OWNER /\ userId = removerId))
  \/ (removerRole = MODERATOR /\ member_role target = MEMBER) ->
  let s' := with_members (remaining_rows (member_is studioId userId) (members s)) s in
  run (removeMember studioId userId removerId) s = (Resolved tt, s')
  /\ role_of s' studioId userId = None
  /\ (forall S U, (S, U) <> (studioId, userId) -> find_member s' S U = find_member s S U).
Proof.
  intros Huniq Hrole Ht Hallowed. cbv zeta.
  destruct (role_of_find _ _ _ Hrole) as (a & Ha & Har).
  unfold find_member in *. split; [|split].
  - unfold removeMember. simpl. rewrite Ha. simpl. rewrite Har.
    assert (Hself : StudioRole_eqb (member_role target) OWNER && (userId =? removerId)
                    = false).
    { destruct Hallowed as [[_ Hn]|[_ ->]]; [|reflexivity].
      destruct (member_role target); try reflexivity.
      destruct (userId =? removerId) eqn:E; [|reflexivity].
      apply String.eqb_eq in E. exfalso. apply Hn. split; [reflexivity|exact E]. }
    destruct Hallowed as [[-> _]|[-> Hm]]; simpl; rewrite Ht; simpl.
    + rewrite Hself. simpl. rewrite (remove_first_found _ _ Ht). reflexivity.
    + rewrite Hm. simpl. rewrite (remove_first_found _ _ Ht). reflexivity.
  - unfold role_of, find_member. simpl.
    rewrite find_remaining_same; [reflexivity|apply Huniq].
  - intros S U Hne. simpl. apply find_remaining_other.
    intros x. apply member_is_other, Hne.
Qed.

(** X6: a member who is not the OWNER can leave: the membership is deleted,
    the user has no role afterwards and no other membership changes.
    Someone who is not a member is told NotFound. *)
Theorem leaveStudio_leaves (s : Store) (studioId userId : string) :
  (forall m,
     members_unique s ->
     find_member s studioId userId = Some m ->
     member_role m <> OWNER ->
     let s' := with_members (remaining_rows (member_is studioId userId) (members s)) s in
     run (leaveStudio studioId userId) s = (Resolved tt, s')
     /\ role_of s' studioId userId = None
     /\ (forall S U, (S, U) <> (studioId, userId) ->
                     find_member s' S U = find_member s S U))
  /\
  (find_member s studioId userId = None ->
   run (leaveStudio studioId userId) s
   = (Threw (ServiceErr (notFound "You are not a member of this studio")), s)).
Proof.
  unfold find_member. split.
  - intros m Huniq Hm Hrole. cbv zeta. split; [|split].
    + unfold leaveStudio. simpl. rewrite Hm. simpl.
      destruct (member_role m); try congruence; simpl;
        rewrite (remove_first_found _ _ Hm); reflexivity.
    + unfold role_of, find_member. simpl.
      rewrite find_remaining_same; [reflexivity|apply Huniq].
    + intros S U Hne. simpl. apply find_remaining_other.
      intros x. apply member_is_other, Hne.
  - intros Hm. unfold leaveStudio. simpl. rewrite Hm. reflexivity.
Qed.

(** X7: the OWNER changing another member's role to MODERATOR or MEMBER
    succeeds: the target has the new role afterwards and every other
    membership is as before. *)
Theorem updateMemberRole_updates
    (s : Store) (studioId userId updaterId : string) (role : StudioRole)
    (target : StudioMember) :
  role_of s studioId updaterId = Some OWNER ->
  find_member s studioId userId = Some target ->
  userId <> updaterId ->
  role <> OWNER ->
  let s' := with_members
              (updated_rows (member_is studioId userId) (set_member_role role) (members s))
              s in
  run (updateMemberRole studioId userId role updaterId) s
  = (Resolved (set_member_role role target), s')
  /\ role_of s' studioId userId = Some role
  /\ (forall S U, (S, U) <> (studioId, userId) -> find_member s' S U = find_member s S U).
Proof.
  intros Hrole Ht Hne Hr. cbv zeta.
  destruct (role_of_find _ _ _ Hrole) as (a & Ha & Har).
  unfold find_member in *. split; [|split].
  - unfold updateMemberRole. simpl. rewrite Ha. simpl. rewrite Har. simpl.
    rewrite Ht. simpl. rewrite (eqb_neq_false Hne).
    destruct role; try congruence; simpl;
      rewrite (update_first_found _ _ _ Ht); reflexivity.
  - unfold role_of, find_member. simpl.
    rewrite (find_updated_rows _ (set_member_role role)
               (member_is_set_role studioId userId role) _ Ht).
    reflexivity.
  - intros S U Hne'. simpl. apply find_updated_other; [|reflexivity].
    intros x. apply member_is_other, Hne'.
Qed.

(* ================================================================== *)
(** * Managing a studio takes a staff role *)

(** X8: every request that manages a studio (updating it, inviting,
    approving or rejecting a join request, removing a member, changing a
    role, reviewing an application) is refused with Forbidden, and changes
    nothing, when the caller is neither OWNER nor MODERATOR of that
    studio. *)
Theorem manage_requires_staff
    (r : Request) (s : Store) (studioId actorId : string) :
  authority r s = Some (studioId, actorId) ->
  not_staff (role_of s studioId actorId) = true ->
  exists message,
    run (handle r) s = (Threw (ServiceErr (forbidden message)), s).
Proof.
  unfold role_of, find_member.
  destruct r; simpl; try discriminate; intros H Hstaff;
    try (injection H as -> ->).
  - (* updateStudio *)
    eexists. apply run_settle_threw. unfold updateStudio. simpl.
    rewrite Hstaff. reflexivity.
  - (* approveRequest *)
    eexists. apply run_settle_threw. unfold approveRequest. simpl.
    rewrite Hstaff. reflexivity.
  - (* rejectRequest *)
    eexists. apply run_settle_threw. unfold rejectRequest. simpl.
    rewrite Hstaff. reflexivity.
  - (* removeMember *)
    eexists. unfold removeMember. simpl. rewrite Hstaff. reflexivity.
  - (* updateMemberRole *)
    eexists. apply run_settle_threw. unfold updateMemberRole. simpl.
    destruct (find (member_is studioId actorId) (members s)) as [a|]; simpl in *;
      [|reflexivity].
    destruct (member_role a); try discriminate; reflexivity.
  - (* inviteUser *)
    eexists. apply run_settle_threw. unfold inviteUser. simpl.
    rewrite Hstaff. reflexivity.
  - (* reviewResponse *)
    unfold find_response in H.
    destruct (find (response_has_id responseId) (waitlistResponses s)) as [w|] eqn:Ew;
      simpl in H; [|discriminate].
    injection H as <- <-.
    eexists. apply run_settle_threw. unfold reviewResponse. simpl.
    rewrite ?Ew. simpl. rewrite Hstaff. reflexivity.
Qed.

(* ================================================================== *)
(** * What keeps the owner the owner *)

(** Splits a goal about [run p s] along the paths of [p]: one case per
    answer of the store and per branch of the code. *)
Ltac path_split :=
  match goal with
  | |- context [option_map ?f (find ?p ?l)] => destruct (find p l) eqn:?
  | |- context [match find ?p ?l with _ => _ end] => destruct (find p l) eqn:?
  | |- context [match existsb ?p ?l with _ => _ end] => destruct (existsb p l) eqn:?
  | |- context [match update_first ?p ?f ?l with _ => _ end] =>
      destruct (update_first p f l) as [[? ?]|] eqn:?
  | |- context [match remove_first ?p ?l with _ => _ end] =>
      destruct (remove_first p l) as [[? ?]|] eqn:?
  | |- context [match negb ?x with _ => _ end] => destruct x eqn:?
  | |- context [match (?a && ?b)%bool with _ => _ end] => destruct a eqn:?
  | |- context [match String.eqb ?a ?b with _ => _ end] => destruct (String.eqb a b) eqn:?
  | |- context [match StudioRole_eqb ?a ?b with _ => _ end] =>
      destruct (StudioRole_eqb a b) eqn:?
  | |- context [match InviteStatus.eqb ?a ?b with _ => _ end] =>
      destruct (InviteStatus.eqb a b) eqn:?
  | |- context [match RequestStatus.eqb ?a ?b with _ => _ end] =>
      destruct (RequestStatus.eqb a b) eqn:?
  | |- context [match studio_joinType ?x with _ => _ end] =>
      destruct (studio_joinType x) eqn:?
  | |- context [match member_role ?x with _ => _ end] => destruct (member_role x) eqn:?
  | |- context [match request_status ?x with _ => _ end] =>
      destruct (request_status x) eqn:?
  | |- context [match ?v with _ => _ end] => is_var v; destruct v
  end.
Ltac paths := repeat (simpl; path_split); simpl.

Lemma role_app (p : StudioMember -> bool) (l l' : list StudioMember) (r : StudioRole) :
  option_map member_role (find p l) = Some r ->
  option_map member_role (find p (l ++ l')) = Some r.
Proof.
  induction l as [|x t IH]; simpl; [discriminate|].
  destruct (p x); auto.
Qed.


Lemma remove_first_other (A : Type) (p q : A -> bool) (l l' : list A) (y : A) :
  (forall x, p x = true -> q x = false) ->
  remove_first p l = Some (y, l') -> find q l' = find q l.
Proof.
  intros Hd H. pose proof (@find_remaining_other A p q Hd l) as E.
  unfold remaining_rows in E. rewrite H in E. exact E.
Qed.

Lemma update_first_other (A : Type) (p q : A -> bool) (f : A -> A) (l l' : list A) (y : A) :
  (forall x, p x = true -> q x = false) ->
  (forall x, q (f x) = q x) ->
  update_first p f l = Some (y, l') -> find q l' = find q l.
Proof.
  intros Hd Hq H. pose proof (@find_updated_other A p q Hd f l Hq) as E.
  unfold updated_rows in E. rewrite H in E. exact E.
Qed.

(** The row an operation is about to delete or rewrite is not the owner's:
    the target is no OWNER, or the actor is an OWNER other than the
    target, which a studio with a single owner does not have. *)
Lemma owner_not_target (s : Store) (S U S' T R : string) (a m0 : StudioMember) :
  role_of s S U = Some OWNER ->
  single_owner s S U ->
  find (member_is S' R) (members s) = Some a ->
  find (member_is S' T) (members s) = Some m0 ->
  (member_role m0 = OWNER -> member_role a = OWNER /\ (T =? R) = false) ->
  (S, U) <> (S', T).
Proof.
  intros Hrole Hsingle Ha Hm0 Himp Heq. injection Heq as <- <-.
  unfold role_of, find_member in Hrole. rewrite Hm0 in Hrole. simpl in Hrole.
  injection Hrole as Hrole. destruct (Himp Hrole) as [Har Hne].
  pose proof (find_some _ _ Ha) as [Hin Hkey].
  apply member_is_eq in Hkey. destruct Hkey as [HS HR].
  rewrite (Hsingle a Hin HS Har) in HR. subst R.
  rewrite String.eqb_refl in Hne. discriminate.
Qed.

Lemma owner_not_leaver (s : Store) (S U S' T : string) (m0 : StudioMember) :
  role_of s S U = Some OWNER ->
  find (member_is S' T) (members s) = Some m0 ->
  member_role m0 <> OWNER ->
  (S, U) <> (S', T).
Proof.
  intros Hrole Hm0 Hne Heq. injection Heq as <- <-.
  unfold role_of, find_member in Hrole. rewrite Hm0 in Hrole. simpl in Hrole.
  congruence.
Qed.

Lemma role_after_remove (p q : StudioMember -> bool) (l l' : list StudioMember)
    (y : StudioMember) (r : StudioRole) :
  (forall x, p x = true -> q x = false) ->
  remove_first p l = Some (y, l') ->
  option_map member_role (find q l) = Some r ->
  option_map member_role (find q l') = Some r.
Proof. intros Hd H. rewrite (@remove_first_other _ p q l l' y Hd H). auto. Qed.

Lemma role_after_update (p q : StudioMember -> bool) (f : StudioMember -> StudioMember)
    (l l' : list StudioMember) (y : StudioMember) (r : StudioRole) :
  (forall x, p x = true -> q x = false) ->
  (forall x, q (f x) = q x) ->
  update_first p f l = Some (y, l') ->
  option_map member_role (find q l) = Some r ->
  option_map member_role (find q l') = Some r.
Proof. intros Hd Hq H. rewrite (@update_first_other _ p q f l l' y Hd Hq H). auto. Qed.

Ltac owner_kept Hrole Hsingle :=
  simpl in *; try discriminate;
  unfold role_of, find_member; simpl;
  match goal with
  | H : remove_first (member_is _ _) _ = Some _ |- _ =>
      eapply role_after_remove; [|exact H|exact Hrole]
  | H : update_first (member_is _ _) _ _ = Some _ |- _ =>
      eapply role_after_update; [| |exact H|exact Hrole]; [|reflexivity]
  end;
  intros x; apply member_is_other;
  first
    [ match goal with
      | Ha : find (member_is _ _) _ = Some _, Hm : find (member_is _ _) _ = Some _ |- _ =>
          apply (@owner_not_target _ _ _ _ _ _ _ _ Hrole Hsingle Ha Hm);
          intros Hm0; split;
          first [assumption | congruence
                | rewrite Hm0 in *; simpl in *; discriminate]
      end
    | eapply (@owner_not_leaver _ _ _ _ _ _ Hrole); [eassumption|];
      first [congruence | intros Hm0; rewrite Hm0 in *; simpl in *; discriminate] ].

(** Takes the data of an update that holds scalar fields only apart. *)
Ltac scalar_data Hscalar :=
  try match goal with
      | data : StudioData |- _ =>
          destruct data as [? ? ? ? [|? ?]]; [|simpl in Hscalar; discriminate Hscalar]
      end.

(** Whatever request is served, short of deleting the studio and of an
    update that writes to the memberships, a studio's single owner is
    still its owner afterwards. *)
Lemma request_keeps_owner (r : Request) (s : Store) (studioId ownerId : string) :
  scalar_only r = true ->
  deletes_studio r = false ->
  role_of s studioId ownerId = Some OWNER ->
  single_owner s studioId ownerId ->
  role_of (snd (run (handle r) s)) studioId ownerId = Some OWNER.
Proof.
  intros Hscalar Hdel Hrole Hsingle.
  destruct r; try discriminate Hdel; scalar_data Hscalar;
    unfold handle, settle;
    unfold createStudio, updateStudio, requestToJoin, approveRequest, rejectRequest,
      removeMember, updateMemberRole, leaveStudio, inviteUser, respondToInvite,
      submitResponse, reviewResponse, getMemberRole;
    paths; try exact Hrole; try (apply role_app, Hrole).
  all: owner_kept Hrole Hsingle.
Qed.

(** An update of a studio whose data holds one write to a membership:
    the caller has to be staff, as for any update; the write is carried
    out with the update, whoever the membership is of. *)
Lemma updateStudio_writes_member
    (s : Store) (studioId staffId : string) (studio : Studio) (w : MemberWrite)
    (s1 : Store) :
  not_staff (role_of s studioId staffId) = false ->
  find_studio s studioId = Some studio ->
  member_write studioId w s = inr s1 ->
  exists s',
    run (updateStudio studioId staffId (mkStudioData None None None None [w])) s
    = (Resolved studio, s')
    /\ members s' = members s1.
Proof.
  unfold role_of, find_member, find_studio. intros Hstaff Hst Hw.
  unfold updateStudio. simpl. rewrite Hstaff. simpl.
  rewrite (update_first_found _ (fun row => row) _ Hst). simpl.
  set (s0 := with_studios _ s).
  assert (E : match member_write studioId w s0 with
              | inl e => inl e
              | inr x => inr (members x)
              end
              = match member_write studioId w s with
                | inl e => inl e
                | inr x => inr (members x)
                end).
  { destruct w; simpl; try reflexivity.
    - destruct (existsb _ _); reflexivity.
    - destruct (update_first _ _ _) as [[? ?]|]; reflexivity.
    - destruct (remove_first _ _) as [[? ?]|]; reflexivity. }
  rewrite Hw in E.
  destruct (member_write studioId w s0) as [e|s'] eqn:E0; [discriminate|].
  injection E as E. exists s'. split; [reflexivity|exact E].
Qed.

(** X9: a studio's only OWNER keeps that role under every request but
    two kinds.  Removal and role change stop at the owner (a MODERATOR may
    not touch an OWNER, the OWNER may not act on themselves), leaving is
    refused to an OWNER, and an update of the studio that holds scalar
    fields only touches no membership.  The two kinds are the deletion of
    the studio and an update whose data writes to the memberships: such
    an update has no check but the one that the caller is OWNER or
    MODERATOR, so any MODERATOR can give the owner another role with it,
    or delete the owner's membership. *)
Theorem owner_kept_unless_members_written (s : Store) (studioId ownerId : string) :
  role_of s studioId ownerId = Some OWNER ->
  single_owner s studioId ownerId ->
  (forall r,
     scalar_only r = true ->
     deletes_studio r = false ->
     role_of (snd (run (handle r) s)) studioId ownerId = Some OWNER)
  /\
  (forall staffId studio,
     not_staff (role_of s studioId staffId) = false ->
     find_studio s studioId = Some studio ->
     (forall role,
        exists s',
          run (updateStudio studioId staffId
                 (mkStudioData None None None None [members_update ownerId role])) s
          = (Resolved studio, s')
          /\ role_of s' studioId ownerId = Some role)
     /\
     (members_unique s ->
      exists s',
        run (updateStudio studioId staffId
               (mkStudioData None None None None [members_delete ownerId])) s
        = (Resolved studio, s')
        /\ role_of s' studioId ownerId = None)).
Proof.
  intros Hrole Hsingle. split.
  - intros r Hscalar Hdel. apply request_keeps_owner; assumption.
  - intros staffId studio Hstaff Hst.
    destruct (role_of_find _ _ _ Hrole) as (a & Ha & Har). split.
    + intros role.
      destruct (@updateStudio_writes_member s studioId staffId studio
                  (members_update ownerId role)
                  (with_members (updated_rows (member_is studioId ownerId)
                                   (set_member_role role) (members s)) s)
                  Hstaff Hst) as (s' & Hrun & Hm).
      { simpl. rewrite (update_first_found _ (set_member_role role) _ Ha). reflexivity. }
      exists s'. split; [exact Hrun|].
      unfold role_of, find_member. rewrite Hm. simpl.
      rewrite (find_updated_rows _ (set_member_role role)
                 (member_is_set_role studioId ownerId role) _ Ha).
      reflexivity.
    + intros Huniq.
      destruct (@updateStudio_writes_member s studioId staffId studio
                  (members_delete ownerId)
                  (with_members (remaining_rows (member_is studioId ownerId) (members s)) s)
                  Hstaff Hst) as (s' & Hrun & Hm).
      { simpl. rewrite (remove_first_found _ _ Ha). reflexivity. }
      exists s'. split; [exact Hrun|].
      unfold role_of, find_member. rewrite Hm. simpl.
      rewrite find_remaining_same; [reflexivity|apply Huniq].
Qed.

(* ================================================================== *)
(** * Invites and applications against the unique keys *)

Lemma update_first_missed (A : Type) (p : A -> bool) (f : A -> A) (l : list A) :
  update_first p f l = None -> forall x, In x l -> p x = false.
Proof.
  induction l as [|a r IH]; simpl; intros H x Hin; [tauto|].
  destruct (p a) eqn:E; [discriminate|].
  destruct (update_first p f r) as [[z r']|]; [discriminate|].
  destruct Hin as [<-|Hin]; auto.
Qed.

(** Closes the paths on which the store would have refused a statement:
    the row looked up a moment before is there to be rewritten, and a pair
    with no row is free to be written. *)
Ltac never_refused :=
  match goal with
  | H : existsb ?p ?l = true, F : find ?p ?l = None |- _ =>
      rewrite existsb_find, F in H; discriminate H
  | H : update_first ?p _ ?l = None, F : find ?p ?l = Some _ |- _ =>
      rewrite (update_first_found _ _ _ F) in H; discriminate H
  | H : update_first (invite_has_id (invite_id ?i)) _ ?l = None,
    F : find _ ?l = Some ?i |- _ =>
      apply find_some in F; destruct F as [F _];
      pose proof (@update_first_missed _ _ _ _ H _ F) as N;
      unfold invite_has_id in N; rewrite String.eqb_refl in N; discriminate N
  end.

Lemma inviteUser_own_errors
    (s : Store) (studioId inviterId userId : string) (role : option StudioRole)
    (e : Error) (s' : Store) :
  run (inviteUser studioId inviterId userId role) s = (Threw e, s') ->
  exists se, e = ServiceErr se.
Proof.
  unfold inviteUser, getMemberRole. paths; intros H;
    try discriminate H; try (injection H as <- _; eauto); never_refused.
Qed.

Lemma submitResponse_own_errors
    (s : Store) (studioId userId : string) (answers : Answers)
    (e : Error) (s' : Store) :
  run (submitResponse studioId userId answers) s = (Threw e, s') ->
  exists se, e = ServiceErr se.
Proof.
  unfold submitResponse. paths; intros H;
    try discriminate H; try (injection H as <- _; eauto); never_refused.
Qed.

(** X1: [inviteUser] and [submitResponse] look the row of the (studio,
    user) pair up before they write, rewrite it when there is one and
    create it when there is none; so, run with no other request in
    between and whatever the state, neither is ever refused by the store:
    when one fails, it fails with an error of the service.  And in every
    state the service can reach, however the store calls of concurrent
    requests interleave, a (studio, user) pair has at most one invite, one
    join request and one waitlist response, and no two studios share a
    slug. *)
Theorem keys_unique_reachable :
  (forall s studioId inviterId userId role e s',
     run (inviteUser studioId inviterId userId role) s = (Threw e, s') ->
     exists se, e = ServiceErr se)
  /\ (forall s studioId userId answers e s',
        run (submitResponse studioId userId answers) s = (Threw e, s') ->
        exists se, e = ServiceErr se)
  /\ (forall evs, keys_unique (store (schedule evs boot))).
Proof.
  split; [|split].
  - intros. eapply inviteUser_own_errors; eassumption.
  - intros. eapply submitResponse_own_errors; eassumption.
  - apply reachable_keys_unique.
Qed.

(* ================================================================== *)
(** * What a request can do to the tables *)

Lemma known_by_studio (s : Store) (studioId : string) (st : Studio) :
  find (studio_has_id studioId) (studios s) = Some st -> known_studio s studioId.
Proof.
  intros H. left. exists st. apply find_some in H. destruct H as [Hin Hid].
  split; [exact Hin|]. apply String.eqb_eq in Hid. exact Hid.
Qed.

Lemma known_by_member (s : Store) (studioId userId : string) (m : StudioMember) :
  find (member_is studioId userId) (members s) = Some m -> known_studio s studioId.
Proof.
  intros H. right. exists m. apply find_some in H. destruct H as [Hin Hkey].
  split; [exact Hin|]. apply member_is_eq in Hkey. tauto.
Qed.

Ltac known :=
  first [ eapply known_by_studio; eassumption | eapply known_by_member; eassumption ].

Ltac not_owner :=
  let H := fresh in
  first [ discriminate
        | intros ->; simpl in *; discriminate
        | intros H; rewrite H in *; simpl in *; discriminate
        | intros H; injection H as H; rewrite H in *; simpl in *; discriminate ].

Ltac studios_done :=
  first [ apply sc_same
        | eapply sc_updated; [|eassumption]; intros;
          repeat match goal with
            | |- context [match ?v with _ => _ end] => is_var v; destruct v
            end;
          reflexivity ].

Ltac members_done :=
  first [ apply mc_same
        | eapply mc_member; known
        | eapply mc_invited; eapply find_some; eassumption
        | eapply mc_removed; eassumption
        | eapply mc_role; [|eassumption]; not_owner ].

Ltac invites_done :=
  first [ apply ic_same
        | eapply ic_new; [not_owner|known]
        | eapply ic_updated; [|eassumption]; not_owner ].

(** Every request but the creation of a studio, its deletion and an
    update that writes to the memberships changes the tables in one of the
    ways listed by [studio_change], [member_change] and [invite_change],
    and never takes the id counter back. *)
Lemma handle_effect (r : Request) (s : Store) :
  (forall ownerId name slug joinType, r <> CreateStudio ownerId name slug joinType) ->
  scalar_only r = true ->
  deletes_studio r = false ->
  let s' := snd (run (handle r) s) in
  (nextId s <= nextId s')%N
  /\ studio_change s (studios s')
  /\ member_change s (members s')
  /\ invite_change s (invites s').
Proof.
  intros Hr Hscalar Hdel. cbv zeta.
  destruct r; try (exfalso; eapply Hr; reflexivity); clear Hr;
    try discriminate Hdel; scalar_data Hscalar;
    unfold handle, settle;
    unfold updateStudio, requestToJoin, approveRequest, rejectRequest,
      removeMember, updateMemberRole, leaveStudio, inviteUser, respondToInvite,
      submitResponse, reviewResponse, getMemberRole;
    paths;
    (split; [|split; [|split]]);
    match goal with
    | |- (_ <= _)%N => simpl; lia
    | |- studio_change _ _ => studios_done
    | |- member_change _ _ => members_done
    | |- invite_change _ _ => invites_done
    end.
Qed.

(** Creating a studio: nothing happens (the slug is taken), or the studio
    row and the creator's OWNER row are both written, or the creator
    already had a membership row under the id the store was about to
    generate. *)
Lemma createStudio_effect
    (ownerId name slug : string) (joinType : option StudioJoinType) (s : Store) :
  let s' := snd (run (handle (CreateStudio ownerId name slug joinType)) s) in
  s' = s
  \/ (exists st,
        studio_id st = cuid (nextId s)
        /\ find_member s (cuid (nextId s)) ownerId = None
        /\ s' = with_members (members s ++ [mkMember (cuid (nextId s)) ownerId OWNER])
                  (bump (with_studios (studios s ++ [st]) s)))
  \/ (exists m, find_member s (cuid (nextId s)) ownerId = Some m).
Proof.
  cbv zeta. unfold handle, settle, createStudio, find_member. paths.
  all: try (left; reflexivity).
  all: try (right; right; rewrite existsb_find in *;
            match goal with
            | H : context [find ?p ?l] |- _ => destruct (find p l); [eauto|discriminate]
            end).
  all: right; left; eexists; split; [|split; [|reflexivity]]; try reflexivity;
    rewrite existsb_find in *;
    match goal with
    | H : context [find ?p ?l] |- _ => destruct (find p l); [discriminate|reflexivity]
    end.
Qed.

(* ================================================================== *)
(** * What histories keep of the shape of the store *)

Lemma cuid_inj (n m : N) : cuid n = cuid m -> n = m.
Proof.
  unfold cuid. simpl. intros H. injection H as H.
  apply DecimalN.Unsigned.to_uint_inj.
  apply (f_equal NilEmpty.uint_of_string) in H.
  rewrite !NilEmpty.usu in H. congruence.
Qed.

Lemma issued_mono (s s' : Store) (id : string) :
  (nextId s <= nextId s')%N -> issued s id -> issued s' id.
Proof. intros Hle (n & Hn & ->). exists n. split; [lia|reflexivity]. Qed.

Lemma issued_not_next (s : Store) (id : string) :
  issued s id -> id <> cuid (nextId s).
Proof. intros (n & Hn & ->) H. apply cuid_inj in H. lia. Qed.

Section RowsAfter.
Variable A : Type.
Variable p : A -> bool.

Lemma remove_first_In (l l' : list A) (y x : A) :
  remove_first p l = Some (y, l') -> In x l' -> In x l.
Proof.
  revert l' y. induction l as [|a r IH]; simpl; intros l' y H; [discriminate|].
  destruct (p a).
  - injection H as _ <-. simpl. auto.
  - destruct (remove_first p r) as [[z r']|]; [|discriminate].
    injection H as _ <-. simpl. intros [->|Hin]; eauto.
Qed.

Lemma update_first_In (f : A -> A) (l l' : list A) (y x : A) :
  update_first p f l = Some (y, l') -> In x l' ->
  In x l \/ exists x0, In x0 l /\ x = f x0.
Proof.
  revert l' y. induction l as [|a r IH]; simpl; intros l' y H; [discriminate|].
  destruct (p a).
  - injection H as _ <-. simpl. intros [<-|Hin]; eauto.
  - destruct (update_first p f r) as [[z r']|]; [|discriminate].
    injection H as _ <-. simpl. intros [->|Hin]; [auto|].
    destruct (IH _ _ eq_refl Hin) as [?|(x0 & ? & ?)]; eauto.
Qed.

Lemma update_first_filter_le (q : A -> bool) (f : A -> A) (l l' : list A) (y : A) :
  (forall x, q (f x) = true -> q x = true) ->
  update_first p f l = Some (y, l') ->
  List.length (filter q l') <= List.length (filter q l).
Proof.
  intros Hq. revert l' y.
  induction l as [|a r IH]; simpl; intros l' y H; [discriminate|].
  destruct (p a).
  - injection H as _ <-. simpl.
    destruct (q (f a)) eqn:E; [rewrite (Hq _ E); simpl; lia|].
    destruct (q a); simpl; lia.
  - destruct (update_first p f r) as [[z r']|]; [|discriminate].
    injection H as _ <-. simpl. specialize (IH _ _ eq_refl).
    destruct (q a); simpl; lia.
Qed.
End RowsAfter.

Lemma filter_at_most_one (A : Type) (q : A -> bool) (l : list A) (a b : A) :
  List.length (filter q l) <= 1 ->
  In a l -> In b l -> q a = true -> q b = true -> a = b.
Proof.
  intros Hlen Ha Hb Hqa Hqb.
  assert (Ha' : In a (filter q l)) by (apply filter_In; tauto).
  assert (Hb' : In b (filter q l)) by (apply filter_In; tauto).
  destruct (filter q l) as [|x [|y t]]; simpl in *; [tauto| |lia].
  destruct Ha' as [<-|[]], Hb' as [<-|[]]. reflexivity.
Qed.

Lemma is_owner_of_eq (studioId : string) (m : StudioMember) :
  is_owner_of studioId m = true <-> member_studioId m = studioId /\ member_role m = OWNER.
Proof.
  unfold is_owner_of. rewrite andb_true_iff, String.eqb_eq.
  destruct (member_role m); simpl; intuition congruence.
Qed.

(** With at most one OWNER row per studio, the owner is the single owner. *)
Lemma owner_is_single (s : Store) (studioId userId : string) :
  owners s studioId <= 1 ->
  role_of s studioId userId = Some OWNER ->
  single_owner s studioId userId.
Proof.
  intros Hone Hrole m Hin HS Hr.
  destruct (role_of_find _ _ _ Hrole) as (a & Ha & Har).
  pose proof (find_some _ _ Ha) as [Hina Hkey].
  apply member_is_eq in Hkey. destruct Hkey as [HaS HaU].
  assert (E : m = a).
  { apply (@filter_at_most_one _ (is_owner_of studioId) (members s)); auto;
      apply is_owner_of_eq; auto. }
  subst m. exact HaU.
Qed.

Lemma studio_change_ids (s : Store) (l : list Studio) :
  studio_change s l ->
  forall st, In st l -> exists st0, In st0 (studios s) /\ studio_id st = studio_id st0.
Proof.
  intros [|id f y l' Hf Hup] st Hin; [eauto|].
  destruct (@update_first_In _ _ _ _ _ _ _ Hup Hin) as [?|(x0 & ? & ->)]; eauto.
Qed.

Lemma well_formed_ids (s : Store) : well_formed s -> ids_issued s.
Proof.
  intros Hwf. split; [|split].
  - apply (wf_studios Hwf).
  - apply (wf_members Hwf).
  - intros i Hin. apply (wf_invites Hwf), Hin.
Qed.

Lemma known_issued (s : Store) (studioId : string) :
  ids_issued s -> known_studio s studioId -> issued s studioId.
Proof.
  intros (Hs & Hm & _) [(st & Hin & <-)|(m & Hin & <-)].
  - apply Hs, Hin.
  - apply Hm, Hin.
Qed.

Lemma member_change_issued (s : Store) (l : list StudioMember) :
  ids_issued s -> member_change s l ->
  forall m, In m l -> issued s (member_studioId m).
Proof.
  intros Hids Hch m Hin. pose proof Hids as (Hs & Hm & Hi). destruct Hch.
  - apply Hm, Hin.
  - apply in_app_or in Hin. destruct Hin as [Hin|[<-|[]]].
    + apply Hm, Hin.
    + apply known_issued; assumption.
  - apply in_app_or in Hin. destruct Hin as [Hin|[<-|[]]].
    + apply Hm, Hin.
    + apply Hi. assumption.
  - apply Hm.
    match goal with H : remove_first _ _ = Some _ |- _ =>
      exact (@remove_first_In _ _ _ _ _ _ H Hin)
    end.
  - match goal with H : update_first _ _ _ = Some _ |- _ =>
      destruct (@update_first_In _ _ _ _ _ _ _ H Hin) as [Hin'|(x0 & Hin' & ->)]
    end; apply Hm in Hin'; exact Hin'.
Qed.

Lemma invite_change_issued (s : Store) (l : list StudioInvite) :
  ids_issued s -> invite_change s l ->
  forall i, In i l -> issued s (invite_studioId i).
Proof.
  intros Hids Hch i Hin. pose proof Hids as (Hs & Hm & Hi). destruct Hch.
  - apply Hi, Hin.
  - apply in_app_or in Hin. destruct Hin as [Hin|[<-|[]]].
    + apply Hi, Hin.
    + simpl. apply known_issued; assumption.
  - match goal with H : update_first _ _ _ = Some _ |- _ =>
      destruct (@update_first_In _ _ _ _ _ _ _ H Hin) as [Hin'|(x0 & Hin' & ->)]
    end; apply Hi in Hin'; exact Hin'.
Qed.

Lemma member_change_owners (s : Store) (l : list StudioMember) :
  well_formed s -> member_change s l ->
  forall studioId, List.length (filter (is_owner_of studioId) l) <= 1.
Proof.
  intros Hwf Hch S. pose proof (wf_owners Hwf S) as Hone. unfold owners in Hone.
  destruct Hch.
  - exact Hone.
  - rewrite filter_app, length_app. simpl.
    unfold is_owner_of at 2. simpl. rewrite andb_false_r. simpl. lia.
  - rewrite filter_app, length_app. simpl.
    destruct (is_owner_of S _) eqn:E; simpl; [|lia].
    apply is_owner_of_eq in E. simpl in E.
    match goal with H : In _ (invites s) |- _ => apply (wf_invites Hwf) in H end.
    tauto.
  - match goal with H : remove_first _ _ = Some _ |- _ =>
      pose proof (@remove_first_filter _ _ (is_owner_of S) _ _ _ H)
    end. lia.
  - assert (Hq : forall x, is_owner_of S (set_member_role role x) = true ->
                           is_owner_of S x = true).
    { intros x E. apply is_owner_of_eq in E. simpl in E. tauto. }
    match goal with H : update_first _ _ _ = Some _ |- _ =>
      pose proof (@update_first_filter_le _ _ (is_owner_of S) _ _ _ _ Hq H)
    end. lia.
Qed.

Lemma invite_change_wf (s : Store) (l : list StudioInvite) :
  well_formed s -> invite_change s l ->
  forall i, In i l -> issued s (invite_studioId i) /\ invite_role i <> OWNER.
Proof.
  intros Hwf Hch i Hin. destruct Hch.
  - apply (wf_invites Hwf), Hin.
  - apply in_app_or in Hin. destruct Hin as [Hin|[<-|[]]].
    + apply (wf_invites Hwf), Hin.
    + simpl. split; [apply known_issued; [apply well_formed_ids|]; assumption|assumption].
  - match goal with H : update_first _ _ _ = Some _ |- _ =>
      destruct (@update_first_In _ _ _ _ _ _ _ H Hin) as [Hin'|(x0 & Hin' & ->)]
    end; apply (wf_invites Hwf) in Hin'; [exact Hin'|].
    destruct Hin' as [Hiss Hrole]. simpl. split; [exact Hiss|].
    destruct role; [congruence|exact Hrole].
Qed.

Lemma well_formed_empty : well_formed empty_store.
Proof.
  constructor; simpl; try tauto. intros S. unfold owners. simpl. lia.
Qed.

Lemma well_formed_created
    (s : Store) (st : Studio) (ownerId : string) :
  well_formed s ->
  studio_id st = cuid (nextId s) ->
  find_member s (cuid (nextId s)) ownerId = None ->
  well_formed (with_members (members s ++ [mkMember (cuid (nextId s)) ownerId OWNER])
                 (bump (with_studios (studios s ++ [st]) s))).
Proof.
  intros Hwf Hid Hnone.
  assert (Hle : (nextId s <= N.succ (nextId s))%N) by lia.
  assert (Hnew : forall s0, nextId s0 = N.succ (nextId s) -> issued s0 (cuid (nextId s))).
  { intros s0 E. exists (nextId s). split; [lia|reflexivity]. }
  constructor; simpl.
  - intros x Hin. apply in_app_or in Hin. destruct Hin as [Hin|[<-|[]]].
    + eapply issued_mono; [|apply (wf_studios Hwf), Hin]. exact Hle.
    + rewrite Hid. apply Hnew. reflexivity.
  - intros x Hin. apply in_app_or in Hin. destruct Hin as [Hin|[<-|[]]].
    + eapply issued_mono; [|apply (wf_members Hwf), Hin]. exact Hle.
    + apply Hnew. reflexivity.
  - intros x Hin. destruct (wf_invites Hwf _ Hin) as [Hiss Hrole].
    split; [|exact Hrole]. eapply issued_mono; [|exact Hiss]. exact Hle.
  - intros S. unfold owners. simpl. rewrite filter_app, length_app. simpl.
    destruct (is_owner_of S _) eqn:E; simpl.
    + apply is_owner_of_eq in E. simpl in E. destruct E as [<- _].
      assert (Hempty : filter (is_owner_of (cuid (nextId s))) (members s) = []).
      { destruct (filter _ (members s)) as [|m t] eqn:Ef; [reflexivity|].
        assert (Hm : In m (filter (is_owner_of (cuid (nextId s))) (members s)))
          by (rewrite Ef; left; reflexivity).
        apply filter_In in Hm. destruct Hm as [Hin Hown].
        apply is_owner_of_eq in Hown. destruct Hown as [HS _].
        exfalso. apply (issued_not_next (wf_members Hwf _ Hin)). exact HS. }
      rewrite Hempty. simpl. lia.
    + pose proof (wf_owners Hwf S) as Hone. unfold owners in Hone. lia.
  - intros x Hin. apply in_app_or in Hin. destruct Hin as [Hin|[<-|[]]].
    + destruct (wf_owned Hwf _ Hin) as [U HU]. exists U.
      unfold role_of, find_member in *. simpl. apply role_app, HU.
    + exists ownerId. rewrite Hid. unfold role_of, find_member in *. simpl.
      rewrite (find_app_new _ _ _ Hnone); [reflexivity|].
      apply member_is_eq. split; reflexivity.
Qed.

(** What an update of a studio does to the store, whatever its data: the
    studio's row is rewritten, its id kept, and the writes to the
    memberships are carried out in the order given; or nothing at all. *)
Lemma updateStudio_effect (studioId userId : string) (data : StudioData) (s : Store) :
  let s' := snd (run (handle (UpdateStudio studioId userId data)) s) in
  s' = s
  \/ exists f y l,
       (forall x, studio_id (f x) = studio_id x)
       /\ update_first (studio_has_id studioId) f (studios s) = Some (y, l)
       /\ member_writes studioId (data_members data) (with_studios l s) = inr s'.
Proof.
  cbv zeta. unfold handle, settle, updateStudio. simpl.
  destruct (not_staff _); simpl; [left; reflexivity|].
  destruct (update_first _ _ _) as [[y l]|] eqn:Hup; simpl; [|left; reflexivity].
  destruct (member_writes _ _ _) as [e|s1] eqn:Hw; simpl; [left; reflexivity|].
  right. eexists _, y, l. split; [|split; [exact Hup|exact Hw]].
  intros x. simpl. destruct (data_name data), (data_joinType data); reflexivity.
Qed.

(** What the deletion of a studio does to the store: nothing, or the
    studio goes with every row that names it, or the studio's row goes
    alone. *)
Lemma deleteStudio_effect
    (onDelete : ReferentialAction) (studioId userId : string) (s : Store) :
  let s' := snd (run (handle (DeleteStudio onDelete studioId userId)) s) in
  s' = s
  \/ s' = without_studio studioId s
  \/ s' = with_studios (filter (fun st => negb (studio_id st =? studioId)) (studios s)) s.
Proof.
  cbv zeta. unfold handle, deleteStudio. simpl.
  destruct (find (member_is studioId userId) (members s)) as [m|]; simpl; [|auto].
  destruct (negb _); simpl; [auto|].
  destruct (find (studio_has_id studioId) (studios s)); simpl; [|auto].
  destruct onDelete; simpl; [auto|].
  destruct (referenced studioId s); simpl; auto.
Qed.

Lemma update_first_hit (A : Type) (p : A -> bool) (f : A -> A) (l l' : list A) (y : A) :
  update_first p f l = Some (y, l') -> exists x, In x l /\ p x = true.
Proof.
  revert l' y. induction l as [|a r IH]; simpl; intros l' y H; [discriminate|].
  destruct (p a) eqn:E; [eauto|].
  destruct (update_first p f r) as [[z r']|]; [|discriminate].
  destruct (IH _ _ eq_refl) as (x & Hin & Hp). eauto.
Qed.

(** A membership left by writes to the memberships of a studio is of that
    studio, or of a studio that had a membership before. *)
Lemma member_write_studio (studioId : string) (w : MemberWrite) (s s' : Store) :
  member_write studioId w s = inr s' ->
  forall m, In m (members s') ->
  member_studioId m = studioId
  \/ exists m0, In m0 (members s) /\ member_studioId m = member_studioId m0.
Proof.
  destruct w as [userId role|userId role|userId|role]; simpl; intros H m Hin.
  - destruct (existsb _ _); [discriminate|]. injection H as <-. simpl in Hin.
    apply in_app_or in Hin. destruct Hin as [Hin|[<-|[]]]; eauto.
  - destruct (update_first _ _ _) as [[y l]|] eqn:E; [|discriminate].
    injection H as <-. simpl in Hin.
    destruct (@update_first_In _ _ _ _ _ _ _ E Hin) as [?|(x0 & ? & ->)]; eauto.
  - destruct (remove_first _ _) as [[y l]|] eqn:E; [|discriminate].
    injection H as <-. simpl in Hin.
    right. exists m. split; [|reflexivity]. exact (@remove_first_In _ _ _ _ _ _ E Hin).
  - injection H as <-. simpl in Hin. apply filter_In in Hin. destruct Hin. eauto.
Qed.

Lemma member_writes_studio (studioId : string) (ws : list MemberWrite) :
  forall s s',
    member_writes studioId ws s = inr s' ->
    forall m, In m (members s') ->
    member_studioId m = studioId
    \/ exists m0, In m0 (members s) /\ member_studioId m = member_studioId m0.
Proof.
  induction ws as [|w ws IH]; intros s s' H m Hin; simpl in H.
  - injection H as <-. eauto.
  - destruct (member_write studioId w s) as [e|s1] eqn:E; [discriminate|].
    destruct (IH _ _ H _ Hin) as [?|(m0 & Hin0 & E0)]; [auto|].
    destruct (member_write_studio _ _ _ E _ Hin0) as [?|(m1 & Hin1 & E1)].
    + left. congruence.
    + right. exists m1. split; [exact Hin1|congruence].
Qed.

Lemma filter_In_of (A : Type) (q : A -> bool) (l : list A) (x : A) :
  In x (filter q l) -> In x l.
Proof. intros H. apply filter_In in H. tauto. Qed.

(** Whatever the request, afterwards the rows still name generated ids
    only. *)
Lemma ids_issued_step (r : Request) (s : Store) :
  ids_issued s -> ids_issued (snd (run (handle r) s)).
Proof.
  intros Hids. pose proof Hids as (Hs & Hm & Hi).
  assert (Hcases : (exists o n sl j, r = CreateStudio o n sl j)
                   \/ (exists S U d, r = UpdateStudio S U d)
                   \/ (exists a S U, r = DeleteStudio a S U)
                   \/ ((forall o n sl j, r <> CreateStudio o n sl j)
                       /\ scalar_only r = true /\ deletes_studio r = false)).
  { destruct r; try (right; right; right; split; [intros; discriminate|split; reflexivity]);
      eauto 10. }
  destruct Hcases as [(o & n & sl & j & ->)|[(S & U & d & ->)|[(a & S & U & ->)|(Hr & Hsc & Hdel)]]].
  - destruct (createStudio_effect o n sl j s) as [E|[(st & Hid & Hnone & E)|(m & Hf)]].
    + rewrite E. exact Hids.
    + rewrite E.
      assert (Hle : (nextId s <= N.succ (nextId s))%N) by lia.
      assert (Hnew : forall s0, nextId s0 = N.succ (nextId s) -> issued s0 (cuid (nextId s))).
      { intros s0 E0. exists (nextId s). split; [lia|reflexivity]. }
      split; [|split]; simpl.
      * intros x Hin. apply in_app_or in Hin. destruct Hin as [Hin|[<-|[]]].
        -- eapply issued_mono; [|apply Hs, Hin]. exact Hle.
        -- rewrite Hid. apply Hnew. reflexivity.
      * intros x Hin. apply in_app_or in Hin. destruct Hin as [Hin|[<-|[]]].
        -- eapply issued_mono; [|apply Hm, Hin]. exact Hle.
        -- apply Hnew. reflexivity.
      * intros x Hin. eapply issued_mono; [|apply Hi, Hin]. exact Hle.
    + exfalso. unfold find_member in Hf. apply find_some in Hf.
      destruct Hf as [Hin Hkey]. apply member_is_eq in Hkey.
      apply (issued_not_next (Hm _ Hin)). tauto.
  - destruct (updateStudio_effect S U d s) as [E|(f & y & l & Hf & Hup & Hw)].
    + rewrite E. exact Hids.
    + set (s' := snd _) in *.
      destruct (member_writes_tables _ _ _ Hw) as (E1 & E2 & _ & _ & E5).
      simpl in E1, E2, E5.
      assert (Hsame : forall id, issued s id -> issued s' id).
      { intros id. apply issued_mono. rewrite E5. lia. }
      assert (Hl : forall st, In st l -> issued s (studio_id st)).
      { intros st Hin.
        destruct (@update_first_In _ _ _ _ _ _ _ Hup Hin) as [?|(x0 & ? & ->)];
          [|rewrite Hf]; auto. }
      split; [|split].
      * intros st Hin. rewrite E1 in Hin. auto.
      * intros m Hin. apply Hsame.
        destruct (member_writes_studio _ _ _ Hw _ Hin) as [->|(m0 & Hin0 & ->)].
        -- destruct (update_first_hit _ _ _ Hup) as (x & Hin' & Hid).
           apply String.eqb_eq in Hid. rewrite <- Hid. auto.
        -- simpl in Hin0. auto.
      * intros i Hin. rewrite E2 in Hin. auto.
  - destruct (deleteStudio_effect a S U s) as [E|[E|E]]; rewrite E.
    + exact Hids.
    + split; [|split]; simpl; intros x Hin; apply filter_In_of in Hin;
        apply (@issued_mono s); simpl; auto; lia.
    + split; [|split]; simpl; intros x Hin; try apply filter_In_of in Hin;
        apply (@issued_mono s); simpl; auto; lia.
  - destruct (handle_effect s Hr Hsc Hdel) as (Hn & Hst & Hmc & Hic).
    split; [|split].
    + intros st Hin. destruct (studio_change_ids Hst _ Hin) as (st0 & Hin0 & ->).
      eapply issued_mono; [exact Hn|]. auto.
    + intros m Hin. eapply issued_mono; [exact Hn|].
      eapply member_change_issued; eauto.
    + intros i Hin. eapply issued_mono; [exact Hn|].
      eapply invite_change_issued; eauto.
Qed.

Lemma serve_ids_issued (reqs : list Request) :
  forall s, ids_issued s -> ids_issued (serve reqs s).
Proof.
  unfold serve.
  induction reqs as [|r reqs IH]; intros s Hids; simpl; [exact Hids|].
  apply IH, ids_issued_step, Hids.
Qed.

Lemma history_ids_issued (history : list Request) : ids_issued (after history).
Proof.
  apply serve_ids_issued. repeat split; simpl; tauto.
Qed.

Lemma find_filter_all (A : Type) (p q : A -> bool) (l : list A) :
  (forall x, p x = true -> q x = true) ->
  find p (filter q l) = find p l.
Proof.
  intros Hq. induction l as [|a r IH]; simpl; [reflexivity|].
  destruct (q a) eqn:Eq; simpl.
  - destruct (p a); [reflexivity|exact IH].
  - destruct (p a) eqn:Ep; [rewrite (Hq _ Ep) in Eq; discriminate|exact IH].
Qed.

Lemma filter_filter_le (A : Type) (p q : A -> bool) (l : list A) :
  List.length (filter p (filter q l)) <= List.length (filter p l).
Proof.
  induction l as [|a r IH]; simpl; [lia|].
  destruct (q a), (p a) eqn:Ep; simpl; rewrite ?Ep; simpl; lia.
Qed.

(** A store that loses a studio, alone or with the rows that name it,
    stays well formed. *)
Lemma well_formed_deleted (onDelete : ReferentialAction) (studioId userId : string)
    (s : Store) :
  well_formed s -> well_formed (snd (run (handle (DeleteStudio onDelete studioId userId)) s)).
Proof.
  intros Hwf.
  destruct (deleteStudio_effect onDelete studioId userId s) as [E|[E|E]]; rewrite E.
  - exact Hwf.
  - constructor; simpl.
    + intros x Hin. apply filter_In_of in Hin. apply (wf_studios Hwf), Hin.
    + intros x Hin. apply filter_In_of in Hin. apply (wf_members Hwf), Hin.
    + intros x Hin. apply filter_In_of in Hin. apply (wf_invites Hwf), Hin.
    + intros S. unfold owners. simpl.
      pose proof (wf_owners Hwf S) as Hone. unfold owners in Hone.
      pose proof (@filter_filter_le _ (is_owner_of S)
                    (fun m => negb (member_studioId m =? studioId)) (members s)). lia.
    + intros st Hin. apply filter_In in Hin. destruct Hin as [Hin Hne].
      destruct (wf_owned Hwf _ Hin) as [U HU]. exists U.
      unfold role_of, find_member in *. simpl.
      rewrite find_filter_all; [exact HU|].
      intros x Hx. apply member_is_eq in Hx. destruct Hx as [-> _]. exact Hne.
  - constructor; simpl.
    + intros x Hin. apply filter_In_of in Hin. apply (wf_studios Hwf), Hin.
    + apply (wf_members Hwf).
    + apply (wf_invites Hwf).
    + apply (wf_owners Hwf).
    + intros st Hin. apply filter_In_of in Hin. apply (wf_owned Hwf _ Hin).
Qed.

Lemma well_formed_step (r : Request) (s : Store) :
  scalar_only r = true ->
  well_formed s -> well_formed (snd (run (handle r) s)).
Proof.
  intros Hscalar Hwf.
  assert (Hcases : (exists o n sl j, r = CreateStudio o n sl j)
                   \/ (exists a S U, r = DeleteStudio a S U)
                   \/ ((forall o n sl j, r <> CreateStudio o n sl j)
                       /\ deletes_studio r = false)).
  { destruct r; try (right; right; split; [intros; discriminate|reflexivity]); eauto 10. }
  destruct Hcases as [(o & n & sl & j & ->)|[(a & S & U & ->)|(Hr & Hdel)]].
  - destruct (createStudio_effect o n sl j s) as [E|[(st & Hid & Hnone & E)|(m & Hm)]].
    + rewrite E. exact Hwf.
    + rewrite E. apply well_formed_created; assumption.
    + exfalso. unfold find_member in Hm. apply find_some in Hm.
      destruct Hm as [Hin Hkey]. apply member_is_eq in Hkey.
      apply (issued_not_next (wf_members Hwf _ Hin)). tauto.
  - apply well_formed_deleted, Hwf.
  - destruct (handle_effect s Hr Hscalar Hdel) as (Hn & Hst & Hm & Hi).
    constructor.
    + intros st Hin. destruct (studio_change_ids Hst _ Hin) as (st0 & Hin0 & ->).
      eapply issued_mono; [exact Hn|]. apply (wf_studios Hwf), Hin0.
    + intros m Hin. eapply issued_mono; [exact Hn|].
      eapply member_change_issued; eauto. apply well_formed_ids, Hwf.
    + intros i Hin. destruct (invite_change_wf Hwf Hi _ Hin) as [Hiss Hrole].
      split; [|exact Hrole]. eapply issued_mono; eauto.
    + intros S. apply (member_change_owners Hwf Hm).
    + intros st Hin. destruct (studio_change_ids Hst _ Hin) as (st0 & Hin0 & ->).
      destruct (wf_owned Hwf _ Hin0) as [U HU]. exists U.
      apply request_keeps_owner; [exact Hscalar|exact Hdel|exact HU|].
      apply owner_is_single; [apply (wf_owners Hwf)|exact HU].
Qed.

Lemma serve_well_formed (reqs : list Request) :
  forallb scalar_only reqs = true ->
  forall s, well_formed s -> well_formed (serve reqs s).
Proof.
  unfold serve.
  induction reqs as [|r reqs IH]; intros Hsc s Hwf; simpl; [exact Hwf|].
  simpl in Hsc. apply andb_true_iff in Hsc. destruct Hsc as [Hr Hrest].
  apply IH; [exact Hrest|]. apply well_formed_step; assumption.
Qed.

Lemma history_well_formed (history : list Request) :
  forallb scalar_only history = true -> well_formed (after history).
Proof. intros H. apply serve_well_formed; [exact H|apply well_formed_empty]. Qed.

(** X10: when requests are served one after the other and no update of a
    studio writes to the memberships (its data holds scalar fields only),
    every studio there is has exactly one OWNER: the creator's OWNER row
    is written with the studio, no operation adds a second OWNER, and none
    removes or demotes the one there is.  Studios may be deleted in
    between, whatever the store then does with the rows that name them. *)
Theorem one_owner_per_studio (history : list Request) (st : Studio) :
  forallb scalar_only history = true ->
  In st (studios (after history)) ->
  owners (after history) (studio_id st) = 1
  /\ exists userId, role_of (after history) (studio_id st) userId = Some OWNER.
Proof.
  intros Hscalar Hin. pose proof (history_well_formed history Hscalar) as Hwf.
  destruct (wf_owned Hwf _ Hin) as [U HU]. split; [|eauto].
  pose proof (wf_owners Hwf (studio_id st)) as Hone.
  destruct (role_of_find _ _ _ HU) as (a & Ha & Har).
  apply find_some in Ha. destruct Ha as [Hina Hkey].
  apply member_is_eq in Hkey. destruct Hkey as [HS _].
  assert (Hf : In a (filter (is_owner_of (studio_id st)) (members (after history)))).
  { apply filter_In. split; [exact Hina|]. apply is_owner_of_eq. tauto. }
  unfold owners in *.
  destruct (filter (is_owner_of (studio_id st)) (members (after history)));
    simpl in *; [tauto|lia].
Qed.

(** X11: when requests are served one after the other, no invite ever
    carries the role OWNER, and every invite names a studio id the store
    generated; so accepting an invite never makes an OWNER.  Updates of a
    studio are taken with scalar fields only. *)
Theorem invites_never_owner (history : list Request) (i : StudioInvite) :
  forallb scalar_only history = true ->
  In i (invites (after history)) ->
  invite_role i <> OWNER /\ issued (after history) (invite_studioId i).
Proof.
  intros Hscalar Hin.
  destruct (wf_invites (history_well_formed history Hscalar) _ Hin). tauto.
Qed.

(* ================================================================== *)
(** * Creating and updating a studio *)

(** X12: [createStudio] with a slug already in use fails with Conflict and
    changes nothing.  With a free slug, in any state of a sequential
    history, it writes the studio (join type WAITLIST unless given) under
    a new id and makes the creator its OWNER; the studio is then found by
    its id. *)
Theorem createStudio_creates
    (history : list Request) (ownerId name slug : string)
    (joinType : option StudioJoinType) :
  let s := after history in
  (forall existing,
     find (studio_has_slug slug) (studios s) = Some existing ->
     run (createStudio ownerId name slug joinType) s
     = (Threw (ServiceErr (conflict
          ("Studio with slug " ++ dquote ++ slug ++ dquote ++ " already exists"))), s))
  /\
  (find (studio_has_slug slug) (studios s) = None ->
   let studio := mkStudio (cuid (nextId s)) name slug
                   (match joinType with Some j => j | None => WAITLIST end) in
   let s' := with_members (members s ++ [mkMember (cuid (nextId s)) ownerId OWNER])
               (bump (with_studios (studios s ++ [studio]) s)) in
   run (createStudio ownerId name slug joinType) s = (Resolved studio, s')
   /\ find_studio s' (studio_id studio) = Some studio
   /\ role_of s' (studio_id studio) ownerId = Some OWNER).
Proof.
  cbv zeta. pose proof (history_ids_issued history) as (Hs & Hm & _).
  set (s := after history) in *. split.
  - intros existing H. unfold createStudio. simpl. rewrite H. reflexivity.
  - intros H.
    assert (Hnone : find (member_is (cuid (nextId s)) ownerId) (members s) = None).
    { destruct (find (member_is (cuid (nextId s)) ownerId) (members s)) as [m|] eqn:E;
        [|reflexivity].
      apply find_some in E. destruct E as [Hin Hkey]. apply member_is_eq in Hkey.
      exfalso. apply (issued_not_next (Hm _ Hin)). tauto. }
    assert (Hfresh : find (studio_has_id (cuid (nextId s))) (studios s) = None).
    { destruct (find (studio_has_id (cuid (nextId s))) (studios s)) as [x|] eqn:E;
        [|reflexivity].
      apply find_some in E. destruct E as [Hin Hkey]. apply String.eqb_eq in Hkey.
      exfalso. apply (issued_not_next (Hs _ Hin)). exact Hkey. }
    split; [|split].
    + unfold createStudio. simpl. rewrite H. simpl.
      rewrite existsb_find, H. simpl. rewrite existsb_find, Hnone. reflexivity.
    + unfold find_studio. simpl. apply find_app_new; [exact Hfresh|].
      unfold studio_has_id. simpl. apply String.eqb_refl.
    + unfold role_of, find_member. simpl. rewrite (find_app_new _ _ _ Hnone);
        [reflexivity|]. apply member_is_eq. split; reflexivity.
Qed.


(* ================================================================== *)
(** * Waitlist applications *)

Lemma find_app_some (A : Type) (p : A -> bool) (l l' : list A) (x : A) :
  find p l = Some x -> find p (l ++ l') = Some x.
Proof.
  induction l as [|y r IH]; simpl; [discriminate|].
  destruct (p y); auto.
Qed.

Lemma response_is_set (studioId userId : string) (a : option Answers)
    (st : RequestStatus.t) (r : StudioWaitlistResponse) :
  response_is studioId userId (set_response a st r) = response_is studioId userId r.
Proof. reflexivity. Qed.


(** X15: [reviewResponse] checks, in this order, that the application exists
    (NotFound), that the reviewer is OWNER or MODERATOR of the
    application's studio (Forbidden) and that the application is PENDING
    (Conflict).  A rejection only sets the status.  An approval of someone
    who is not a member sets the status and adds the MEMBER row.  Either
    way the application cannot be reviewed a second time: that is a
    Conflict. *)
Theorem reviewResponse_reviews
    (s : Store) (responseId userId : string) (status : Review.t) :
  (find_response s responseId = None ->
   run (reviewResponse responseId userId status) s
   = (Threw (ServiceErr (notFound "Waitlist response not found")), s))
  /\
  (forall response,
     find_response s responseId = Some response ->
     (not_staff (role_of s (response_studioId response) userId) = true ->
      run (reviewResponse responseId userId status) s
      = (Threw (ServiceErr
           (forbidden "Only owners and moderators can review waitlist responses")), s))
     /\
     (not_staff (role_of s (response_studioId response) userId) = false ->
      response_status response <> RequestStatus.PENDING ->
      run (reviewResponse responseId userId status) s
      = (Threw (ServiceErr (conflict "Response has already been reviewed")), s))
     /\
     (not_staff (role_of s (response_studioId response) userId) = false ->
      response_status response = RequestStatus.PENDING ->
      find_member s (response_studioId response) (response_userId response) = None ->
      let reviewed := set_response None (Review.status status) response in
      let rows := updated_rows (response_has_id responseId)
                    (set_response None (Review.status status)) (waitlistResponses s) in
      let s' := match status with
                | Review.APPROVED =>
                    with_members
                      (members s ++ [mkMember (response_studioId response)
                                              (response_userId response) MEMBER])
                      (with_waitlistResponses rows s)
                | Review.REJECTED => with_waitlistResponses rows s
                end in
      run (reviewResponse responseId userId status) s = (Resolved reviewed, s')
      /\ find_response s' responseId = Some reviewed
      /\ role_of s' (response_studioId response) (response_userId response)
         = match status with Review.APPROVED => Some MEMBER | Review.REJECTED => None end
      /\ forall again,
           run (reviewResponse responseId userId again) s'
           = (Threw (ServiceErr (conflict "Response has already been reviewed")), s'))).
Proof.
  unfold find_response, role_of, find_member. split.
  - intros H. unfold reviewResponse. simpl. rewrite H. reflexivity.
  - intros response Hr. split; [|split].
    + intros Hstaff. unfold reviewResponse. simpl. rewrite Hr. simpl.
      rewrite Hstaff. reflexivity.
    + intros Hstaff Hst. unfold reviewResponse. simpl. rewrite Hr. simpl.
      rewrite Hstaff. simpl. rewrite (RequestStatus_eqb_neq Hst). reflexivity.
    + intros Hstaff Hst Hm. cbv zeta.
      assert (Hfound : find (response_has_id responseId)
                (updated_rows (response_has_id responseId)
                   (set_response None (Review.status status)) (waitlistResponses s))
              = Some (set_response None (Review.status status) response)).
      { apply find_updated_rows; [apply response_has_id_set|exact Hr]. }
      assert (Hrun : run (reviewResponse responseId userId status) s
                = (Resolved (set_response None (Review.status status) response),
                   match status with
                   | Review.APPROVED =>
                       with_members
                         (members s ++ [mkMember (response_studioId response)
                                                 (response_userId response) MEMBER])
                         (with_waitlistResponses
                            (updated_rows (response_has_id responseId)
                               (set_response None (Review.status status))
                               (waitlistResponses s)) s)
                   | Review.REJECTED =>
                       with_waitlistResponses
                         (updated_rows (response_has_id responseId)
                            (set_response None (Review.status status))
                            (waitlistResponses s)) s
                   end)).
      { unfold reviewResponse. simpl. rewrite Hr. simpl. rewrite Hstaff. simpl.
        rewrite Hst. simpl.
        rewrite (update_first_found _ (set_response None (Review.status status)) _ Hr).
        destruct status; simpl; [|reflexivity].
        rewrite existsb_find, Hm. reflexivity. }
      split; [exact Hrun|]. split; [destruct status; exact Hfound|]. split.
      * destruct status; simpl.
        -- rewrite (find_app_new _ _ _ Hm); [reflexivity|].
           apply member_is_eq. split; reflexivity.
        -- rewrite Hm. reflexivity.
      * intros again. unfold reviewResponse. simpl.
        assert (Hstaff' : forall l',
                  not_staff (option_map member_role
                    (find (member_is (response_studioId response) userId)
                          (members s ++ l'))) = false).
        { intros l'.
          destruct (find (member_is (response_studioId response) userId) (members s))
            as [a|] eqn:Ea; simpl in Hstaff; [|discriminate].
          rewrite (find_app_some _ _ l' Ea). exact Hstaff. }
        destruct status; simpl in Hfound |- *; rewrite Hfound; simpl.
        -- rewrite Hstaff'. reflexivity.
        -- specialize (Hstaff' []). rewrite app_nil_r in Hstaff'.
           rewrite Hstaff'. reflexivity.
Qed.

Lemma find_updated_both (A : Type) (p q : A -> bool) (f : A -> A) (l : list A) (x : A) :
  (forall z, p (f z) = p z) ->
  find p l = Some x -> find q l = Some x ->
  find p (updated_rows q f l) = Some (f x).
Proof.
  intros Hp. unfold updated_rows.
  induction l as [|y r IH]; simpl; [discriminate|].
  destruct (q y) eqn:Eq; destruct (p y) eqn:Ep; intros Hfp Hfq.
  - injection Hfq as ->. simpl. rewrite Hp, Ep. reflexivity.
  - injection Hfq as ->. apply find_some_true in Hfp. congruence.
  - injection Hfp as ->. apply find_some_true in Hfq. congruence.
  - specialize (IH Hfp Hfq).
    destruct (update_first q f r) as [[z r']|] eqn:Eu; simpl; rewrite Ep.
    + exact IH.
    + destruct (update_first_find q f r Hfq) as [l' E]. congruence.
Qed.

(** X16: after a reviewer rejects a PENDING application, its user may apply
    again: the same row (same id) carries the new answers and is PENDING,
    the old answers are gone and the table has as many rows as before. *)
Theorem reject_then_reapply
    (s : Store) (responseId reviewerId : string) (response : StudioWaitlistResponse)
    (studio : Studio) (answers : Answers) :
  (forall a b, responses s a b <= 1) ->
  find_response s responseId = Some response ->
  not_staff (role_of s (response_studioId response) reviewerId) = false ->
  response_status response = RequestStatus.PENDING ->
  find_studio s (response_studioId response) = Some studio ->
  studio_joinType studio = WAITLIST ->
  find_member s (response_studioId response) (response_userId response) = None ->
  let rejected := set_response None RequestStatus.REJECTED response in
  let again := mkResponse responseId (response_studioId response)
                 (response_userId response) answers RequestStatus.PENDING in
  exists s1 s2,
    run (reviewResponse responseId reviewerId Review.REJECTED) s = (Resolved rejected, s1)
    /\ run (submitResponse (response_studioId response) (response_userId response)
              answers) s1
       = (Resolved again, s2)
    /\ find_response s2 responseId = Some again
    /\ find_response_for s2 (response_studioId response) (response_userId response)
       = Some again
    /\ List.length (waitlistResponses s2) = List.length (waitlistResponses s).
Proof.
  unfold find_response, role_of, find_studio, find_member, find_response_for.
  intros Huniq Hr Hstaff Hst Hstudio Hjt Hm. cbv zeta.
  set (S := response_studioId response) in *.
  set (U := response_userId response) in *.
  assert (Hid : response_id response = responseId).
  { apply find_some_true in Hr. apply String.eqb_eq in Hr. exact Hr. }
  set (rows1 := updated_rows (response_has_id responseId)
                  (set_response None RequestStatus.REJECTED) (waitlistResponses s)).
  assert (Hby_id : find (response_has_id responseId) rows1
                   = Some (set_response None RequestStatus.REJECTED response)).
  { apply find_updated_rows; [apply response_has_id_set|exact Hr]. }
  assert (Hby_key : find (response_is S U) rows1
                    = Some (set_response None RequestStatus.REJECTED response)).
  { apply unique_find.
    - unfold rows1. rewrite updated_rows_filter by reflexivity. apply Huniq.
    - apply find_some in Hby_id. tauto.
    - apply response_is_eq. simpl. tauto. }
  set (rows2 := updated_rows (response_is S U)
                  (set_response (Some answers) RequestStatus.PENDING) rows1).
  assert (Hagain : set_response (Some answers) RequestStatus.PENDING
                     (set_response None RequestStatus.REJECTED response)
                   = mkResponse responseId S U answers RequestStatus.PENDING).
  { unfold set_response. simpl. rewrite Hid. reflexivity. }
  assert (Hkey2 : find (response_is S U) rows2
                  = Some (mkResponse responseId S U answers RequestStatus.PENDING)).
  { rewrite <- Hagain. apply find_updated_rows; [apply response_is_set|exact Hby_key]. }
  exists (with_waitlistResponses rows1 s), (with_waitlistResponses rows2 s).
  split; [|split; [|split; [|split]]].
  - unfold reviewResponse. simpl. rewrite Hr. simpl. fold S. rewrite Hstaff. simpl.
    rewrite Hst. simpl.
    rewrite (update_first_found _ (set_response None RequestStatus.REJECTED) _ Hr).
    reflexivity.
  - unfold submitResponse. simpl. rewrite Hstudio. simpl. rewrite Hjt. simpl.
    rewrite Hm. simpl. rewrite Hby_key. simpl.
    rewrite (update_first_found _
               (set_response (Some answers) RequestStatus.PENDING) _ Hby_key).
    rewrite Hagain. reflexivity.
  - simpl. rewrite <- Hagain.
    apply find_updated_both; [apply response_has_id_set|exact Hby_id|exact Hby_key].
  - exact Hkey2.
  - simpl. unfold rows2, rows1. rewrite !updated_rows_length. reflexivity.
Qed.

(* ================================================================== *)
(** * Declining an invite and being invited again *)

(** X17: declining a PENDING invite marks it REJECTED and changes no
    membership.  When a staff member then invites the same user again, no
    second invite is made: the same row (same id) is PENDING again and
    carries the role of the new invitation (MEMBER when none is given). *)
Theorem decline_then_reinvite
    (s : Store) (inviteId userId inviterId : string) (invite : StudioInvite)
    (role : option StudioRole) :
  (forall a b, invitations s a b <= 1) ->
  find_invite s inviteId = Some invite ->
  invite_userId invite = userId ->
  invite_status invite = InviteStatus.PENDING ->
  not_staff (role_of s (invite_studioId invite) inviterId) = false ->
  role <> Some OWNER ->
  ~ (role_of s (invite_studioId invite) inviterId = Some MODERATOR
     /\ role = Some MODERATOR) ->
  find_member s (invite_studioId invite) userId = None ->
  let declined := set_invite InviteStatus.REJECTED None invite in
  let again := mkInvite inviteId (invite_studioId invite) userId InviteStatus.PENDING
                 (match role with Some r => r | None => MEMBER end) in
  exists s1 s2,
    run (respondToInvite inviteId userId false) s = (Resolved (declined, None), s1)
    /\ members s1 = members s
    /\ run (inviteUser (invite_studioId invite) inviterId userId role) s1
       = (Resolved again, s2)
    /\ find_invite s2 inviteId = Some again
    /\ List.length (invites s2) = List.length (invites s).
Proof.
  intros Huniq Hi Hu Hst Hstaff Hrole Hmod Hm. cbv zeta.
  assert (Hid : invite_id invite = inviteId).
  { unfold find_invite in Hi. apply find_some_true in Hi.
    apply String.eqb_eq in Hi. exact Hi. }
  set (S := invite_studioId invite) in *.
  set (rows1 := updated_rows (invite_has_id inviteId)
                  (set_invite InviteStatus.REJECTED None) (invites s)).
  set (s1 := with_invites rows1 s).
  assert (Hby_id : find (invite_has_id inviteId) rows1
                   = Some (set_invite InviteStatus.REJECTED None invite)).
  { apply find_updated_rows; [apply invite_has_id_set|exact Hi]. }
  assert (Hby_key : find_invite_for s1 S userId
                    = Some (set_invite InviteStatus.REJECTED None invite)).
  { unfold find_invite_for. simpl. apply unique_find.
    - unfold rows1. rewrite updated_rows_filter by reflexivity. apply Huniq.
    - apply find_some in Hby_id. tauto.
    - apply invite_is_eq. simpl. tauto. }
  pose proof (@inviteUser_cases s1 S inviterId userId role Hstaff Hrole Hmod Hm)
    as Hcases.
  cbv zeta in Hcases. rewrite Hby_key in Hcases.
  cbn [invite_status invite_id set_invite] in Hcases.
  destruct Hcases as (row & Hrow & Hrun).
  rewrite Hid in Hrow, Hrun.
  unfold find_invite in Hrow. simpl in Hrow. rewrite Hby_id in Hrow.
  injection Hrow as <-.
  assert (Hagain :
            set_invite InviteStatus.PENDING
              (Some (match role with Some r => r | None => MEMBER end))
              (set_invite InviteStatus.REJECTED None invite)
            = mkInvite inviteId S userId InviteStatus.PENDING
                (match role with Some r => r | None => MEMBER end)).
  { unfold set_invite. simpl. rewrite Hid, Hu. reflexivity. }
  exists s1, (with_invites
                (updated_rows (invite_has_id inviteId)
                   (set_invite InviteStatus.PENDING
                      (Some (match role with Some r => r | None => MEMBER end)))
                   rows1) s1).
  split; [|split; [|split; [|split]]].
  - unfold respondToInvite, find_invite in *. simpl. rewrite Hi. simpl.
    rewrite Hu, String.eqb_refl, Hst. simpl.
    rewrite (update_first_found _ (set_invite InviteStatus.REJECTED None) _ Hi).
    reflexivity.
  - reflexivity.
  - rewrite Hrun, Hagain. reflexivity.
  - unfold find_invite. simpl. rewrite <- Hagain.
    apply find_updated_rows; [apply invite_has_id_set|exact Hby_id].
  - simpl. unfold rows1. rewrite !updated_rows_length. reflexivity.
Qed.

(* ================================================================== *)
(** * The failures a caller can be sent *)

Lemma raises_only_bind (P : ServiceError -> Prop) (A B : Type)
    (p : Prog A) (f : A -> Prog B) :
  raises_only P p -> (forall a, raises_only P (f a)) -> raises_only P (bind p f).
Proof.
  intros Hp Hf. induction Hp; simpl.
  - apply Hf.
  - apply raises_throw. assumption.
  - apply raises_call. auto.
Qed.

Lemma run_raises (P : ServiceError -> Prop) (R : Type) (p : Prog R) :
  raises_only P p ->
  forall s e s', run p s = (Threw (ServiceErr e), s') -> P e.
Proof.
  intros Hp. induction Hp as [r|e0 He0|X op k Hk IH]; simpl; intros s e s' H.
  - discriminate.
  - congruence.
  - destruct (exec op s) as [pe|[x s1]]; [discriminate|]. eauto.
Qed.

Lemma service_failure_notFound m : service_failure (notFound m).
Proof. unfold service_failure. simpl. tauto. Qed.
Lemma service_failure_badRequest m : service_failure (badRequest m).
Proof. unfold service_failure. simpl. tauto. Qed.
Lemma service_failure_forbidden m : service_failure (forbidden m).
Proof. unfold service_failure. simpl. tauto. Qed.
Lemma service_failure_conflict m : service_failure (conflict m).
Proof. unfold service_failure. simpl. tauto. Qed.

Ltac raising :=
  repeat (cbn [bind];
    lazymatch goal with
    | |- raises_only _ (Ret _) => apply raises_ret
    | |- raises_only _ (Throw (ServiceErr (notFound _))) =>
        apply raises_throw, service_failure_notFound
    | |- raises_only _ (Throw (ServiceErr (badRequest _))) =>
        apply raises_throw, service_failure_badRequest
    | |- raises_only _ (Throw (ServiceErr (forbidden _))) =>
        apply raises_throw, service_failure_forbidden
    | |- raises_only _ (Throw (ServiceErr (conflict _))) =>
        apply raises_throw, service_failure_conflict
    | |- raises_only _ (Call _ _) => apply raises_call; intros
    | |- raises_only _ (match ?x with _ => _ end) => destruct x
    | |- raises_only _ (bind _ _) => apply raises_only_bind; [|intros]
    end).

Lemma handle_raises (r : Request) : raises_only service_failure (handle r).
Proof.
  destruct r; unfold handle, settle;
    unfold createStudio, updateStudio, deleteStudio, requestToJoin, approveRequest,
      rejectRequest, removeMember, updateMemberRole, leaveStudio, inviteUser,
      respondToInvite, submitResponse, reviewResponse, getMemberRole, throw, await;
    raising.
Qed.

(** X18: whatever the request and the state of the store, a failure reaches
    the caller with status 400, 403, 404 or 409 and the matching code when
    the service raised it, and with status 500 when the store refused a
    statement; the service layer never produces any other status. *)
Theorem failure_statuses (r : Request) (s : Store) :
  match fst (run (handle r) s) with
  | Resolved _ => True
  | Threw e =>
      let reply := sendError e in
      (reply_status reply = 400 /\ reply_code reply = "BAD_REQUEST")
      \/ (reply_status reply = 403 /\ reply_code reply = "FORBIDDEN")
      \/ (reply_status reply = 404 /\ reply_code reply = "NOT_FOUND")
      \/ (reply_status reply = 409 /\ reply_code reply = "CONFLICT")
      \/ (reply_status reply = 500 /\ reply_code reply = "INTERNAL_ERROR"
          /\ exists pe, e = PrismaClientKnownRequestError pe)
  end.
Proof.
  destruct (run (handle r) s) as [[x|e] s'] eqn:E; simpl; [exact I|].
  destruct e as [se|pe]; simpl.
  - pose proof (run_raises (handle_raises r) s E) as H.
    unfold service_failure in H. tauto.
  - right. right. right. right. eauto.
Qed.

(* ================================================================== *)
(** * Concrete cases for the properties above *)

Lemma history_keys_unique (history : list Request) : keys_unique (after history).
Proof. apply serve_keys_unique, keys_unique_empty. Qed.

Lemma history_members_unique (history : list Request) : members_unique (after history).
Proof. apply serve_members_unique, members_unique_empty. Qed.

(** alice approves bob's request: bob is a MEMBER, the request APPROVED. *)
(** bob has a pending invite to the studio and is invited again: a Conflict
    of the service; bob has a pending application and applies again: a
    Conflict too. *)
Lemma keys_unique_reachable_witness :
  let invited := after History.invited in
  let applied := after Case.applied in
  let again := ServiceErr (conflict "User already has a pending invite") in
  let twice := ServiceErr (conflict "You already have a pending application") in
  run (inviteUser "c0" "alice" "bob" None) invited = (Threw again, invited)
  /\ (exists se, again = ServiceErr se)
  /\ run (submitResponse "c0" "bob" []) applied = (Threw twice, applied)
  /\ (exists se, twice = ServiceErr se).
Proof.
  intros invited applied again twice.
  assert (Hinvite : run (inviteUser "c0" "alice" "bob" None) invited
                    = (Threw again, invited)) by (vm_compute; reflexivity).
  assert (Happly : run (submitResponse "c0" "bob" []) applied = (Threw twice, applied))
    by (vm_compute; reflexivity).
  destruct keys_unique_reachable as (Hi & Ha & _).
  split; [exact Hinvite|]. split; [exact (Hi _ _ _ _ _ _ _ Hinvite)|].
  split; [exact Happly|]. exact (Ha _ _ _ _ _ _ Happly).
Defined.


(** bob cannot approve or reject; alice is told NotFound for an unknown
    request, BadRequest for a request of her other studio, Conflict for a
    request already approved. *)
Lemma join_request_review_guards_witness :
  let s := after Case.two_studios in
  run (approveRequest "c0" "c2" "bob") s
  = (Threw (ServiceErr (forbidden "Only owners and moderators can approve join requests")),
     s)
  /\ run (rejectRequest "c0" "c9" "alice") s
     = (Threw (ServiceErr (notFound "Join request not found")), s)
  /\ run (approveRequest "c1" "c2" "alice") s
     = (Threw (ServiceErr (badRequest "Request does not belong to this studio")), s)
  /\ run (rejectRequest "c0" "c1" "alice") (after History.approved_then_left)
     = (Threw (ServiceErr (conflict "Request is not pending")),
        after History.approved_then_left).
Proof.
  intros s.
  destruct (join_request_review_guards s "c0" "c2" "bob") as (Hforbidden & _).
  destruct (join_request_review_guards s "c0" "c9" "alice") as (_ & Habsent & _).
  destruct (join_request_review_guards s "c1" "c2" "alice") as (_ & _ & Hother & _).
  destruct (join_request_review_guards (after History.approved_then_left)
              "c0" "c1" "alice") as (_ & _ & _ & Hdone).
  split; [apply Hforbidden; vm_compute; reflexivity|].
  split; [apply Habsent; vm_compute; reflexivity|].
  split; [apply (Hother (mkJoinRequest "c2" "c0" "bob" RequestStatus.PENDING (Some "hi")));
          [vm_compute; reflexivity | vm_compute; reflexivity | vm_compute; discriminate]|].
  apply (Hdone (mkJoinRequest "c1" "c0" "bob" RequestStatus.APPROVED (Some "hi")));
    [vm_compute; reflexivity | vm_compute; reflexivity | reflexivity | discriminate].
Defined.

(** alice rejects bob's request; bob asks again with a new message. *)
Lemma rejectRequest_then_rejoin_witness :
  let s := after Case.requested in
  exists s1 s2,
    run (rejectRequest "c0" "c1" "alice") s
    = (Resolved (mkJoinRequest "c1" "c0" "bob" RequestStatus.REJECTED (Some "hi")), s1)
    /\ run (requestToJoin "c0" "bob" (Some "again")) s1
       = (Resolved (Requested
            (mkJoinRequest "c1" "c0" "bob" RequestStatus.PENDING (Some "again"))), s2)
    /\ List.length (joinRequests s2) = 1.
Proof.
  intros s.
  destruct (history_keys_unique Case.requested) as (_ & Hq & _).
  destruct (@rejectRequest_then_rejoin s "c0" "c1" "alice"
              (mkJoinRequest "c1" "c0" "bob" RequestStatus.PENDING (Some "hi"))
              (mkStudio "c0" "Studio" "studio" WAITLIST) "again" Hq)
    as (s1 & s2 & H1 & _ & _ & H2 & _ & Hlen); try (vm_compute; reflexivity).
  exists s1, s2. split; [exact H1|]. split; [exact H2|]. rewrite Hlen. reflexivity.
Defined.

(** In the staffed studio alice removes the moderator carol, carol removes
    the member bob, bob leaves by himself, and alice makes bob a
    moderator. *)
Lemma removeMember_removes_witness :
  let s := after History.staffed in
  fst (run (removeMember "c0" "carol" "alice") s) = Resolved tt
  /\ role_of (snd (run (removeMember "c0" "carol" "alice") s)) "c0" "carol" = None
  /\ fst (run (removeMember "c0" "bob" "carol") s) = Resolved tt
  /\ role_of (snd (run (removeMember "c0" "bob" "carol") s)) "c0" "alice" = Some OWNER.
Proof.
  intros s.
  destruct (@removeMember_removes s "c0" "carol" "alice"
              (mkMember "c0" "carol" MODERATOR) OWNER (history_members_unique _))
    as (H1 & H2 & _);
    try (vm_compute; reflexivity).
  { left. split; [reflexivity|]. intros [H _]. discriminate H. }
  destruct (@removeMember_removes s "c0" "bob" "carol"
              (mkMember "c0" "bob" MEMBER) MODERATOR (history_members_unique _))
    as (H3 & _ & H4);
    try (vm_compute; reflexivity).
  { right. split; reflexivity. }
  rewrite H1, H3. split; [reflexivity|]. split; [exact H2|]. split; [reflexivity|].
  unfold role_of. rewrite H4; [vm_compute; reflexivity|discriminate].
Defined.

Lemma leaveStudio_leaves_witness :
  let s := after History.staffed in
  fst (run (leaveStudio "c0" "bob") s) = Resolved tt
  /\ role_of (snd (run (leaveStudio "c0" "bob") s)) "c0" "bob" = None
  /\ run (leaveStudio "c0" "erin") s
     = (Threw (ServiceErr (notFound "You are not a member of this studio")), s).
Proof.
  intros s. destruct (leaveStudio_leaves s "c0" "bob") as (Hleave & _).
  destruct (leaveStudio_leaves s "c0" "erin") as (_ & Habsent).
  destruct (Hleave (mkMember "c0" "bob" MEMBER) (history_members_unique _))
    as (H1 & H2 & _); try (vm_compute; reflexivity); [discriminate|].
  rewrite H1. split; [reflexivity|]. split; [exact H2|].
  apply Habsent. vm_compute. reflexivity.
Defined.

Lemma updateMemberRole_updates_witness :
  let s := after History.staffed in
  fst (run (updateMemberRole "c0" "bob" MODERATOR "alice") s)
  = Resolved (mkMember "c0" "bob" MODERATOR)
  /\ role_of (snd (run (updateMemberRole "c0" "bob" MODERATOR "alice") s)) "c0" "bob"
     = Some MODERATOR.
Proof.
  intros s.
  destruct (@updateMemberRole_updates s "c0" "bob" "alice" MODERATOR
              (mkMember "c0" "bob" MEMBER))
    as (H1 & H2 & _);
    [vm_compute; reflexivity | vm_compute; reflexivity | discriminate | discriminate |].
  rewrite H1. split; [reflexivity|exact H2].
Defined.

(** bob, a plain member, cannot invite, and erin, no member at all, cannot
    update the studio. *)
Lemma manage_requires_staff_witness :
  let s := after History.staffed in
  (exists message,
     run (handle (InviteUser "c0" "bob" "erin" None)) s
     = (Threw (ServiceErr (forbidden message)), s))
  /\ (exists message,
        run (handle (UpdateStudio "c0" "erin"
                       (mkStudioData None None None (Some OPEN)
                          [members_update "alice" MEMBER]))) s
        = (Threw (ServiceErr (forbidden message)), s)).
Proof.
  intros s. split.
  - apply (@manage_requires_staff (InviteUser "c0" "bob" "erin" None) s "c0" "bob");
      vm_compute; reflexivity.
  - apply (@manage_requires_staff
             (UpdateStudio "c0" "erin"
                (mkStudioData None None None (Some OPEN) [members_update "alice" MEMBER]))
             s "c0" "erin");
      vm_compute; reflexivity.
Defined.

(** alice stays OWNER of the staffed studio when the moderator carol tries
    to remove her and when she tries to leave; carol's update of the
    studio with a write to alice's membership makes alice a MEMBER, or
    deletes her membership. *)
Lemma owner_kept_unless_members_written_witness :
  let s := after History.staffed in
  let studio := mkStudio "c0" "Studio" "studio" WAITLIST in
  role_of (snd (run (handle (RemoveMember "c0" "alice" "carol")) s)) "c0" "alice"
  = Some OWNER
  /\ role_of (snd (run (handle (LeaveStudio "c0" "alice")) s)) "c0" "alice" = Some OWNER
  /\ (exists s',
        run (updateStudio "c0" "carol"
               (mkStudioData None None None None [members_update "alice" MEMBER])) s
        = (Resolved studio, s')
        /\ role_of s' "c0" "alice" = Some MEMBER)
  /\ (exists s',
        run (updateStudio "c0" "carol"
               (mkStudioData None None None None [members_delete "alice"])) s
        = (Resolved studio, s')
        /\ role_of s' "c0" "alice" = None).
Proof.
  intros s studio.
  assert (Hrole : role_of s "c0" "alice" = Some OWNER) by (vm_compute; reflexivity).
  assert (Hsingle : single_owner s "c0" "alice").
  { intros m Hin _ Hr. vm_compute in Hin.
    destruct Hin as [<-|[<-|[<-|[<-|[]]]]]; try reflexivity; discriminate Hr. }
  destruct (@owner_kept_unless_members_written s "c0" "alice" Hrole Hsingle)
    as [Hkeep Hwrite].
  split; [apply Hkeep; reflexivity|]. split; [apply Hkeep; reflexivity|].
  destruct (Hwrite "carol" studio) as [Hup Hdel];
    [vm_compute; reflexivity|vm_compute; reflexivity|].
  split; [apply Hup|]. apply Hdel. apply history_members_unique.
Defined.

Lemma one_owner_per_studio_witness :
  let st := mkStudio "c0" "Studio" "studio" WAITLIST in
  forallb scalar_only History.staffed = true
  /\ In st (studios (after History.staffed))
  /\ owners (after History.staffed) "c0" = 1.
Proof.
  intros st.
  assert (Hscalar : forallb scalar_only History.staffed = true) by reflexivity.
  assert (Hin : In st (studios (after History.staffed))) by (vm_compute; tauto).
  split; [exact Hscalar|]. split; [exact Hin|].
  exact (proj1 (one_owner_per_studio History.staffed st Hscalar Hin)).
Defined.

Lemma invites_never_owner_witness :
  let i := mkInvite "c1" "c0" "carol" InviteStatus.ACCEPTED MODERATOR in
  forallb scalar_only History.staffed = true
  /\ In i (invites (after History.staffed)) /\ invite_role i <> OWNER.
Proof.
  intros i.
  assert (Hscalar : forallb scalar_only History.staffed = true) by reflexivity.
  assert (Hin : In i (invites (after History.staffed))) by (vm_compute; tauto).
  split; [exact Hscalar|]. split; [exact Hin|].
  exact (proj1 (invites_never_owner History.staffed i Hscalar Hin)).
Defined.

(** After the staffed history, a second studio under the slug "studio" is
    a Conflict and one under "other" is created with alice as OWNER. *)
Lemma createStudio_creates_witness :
  let s := after History.staffed in
  fst (run (createStudio "alice" "Again" "studio" None) s)
  = Threw (ServiceErr (conflict
      ("Studio with slug " ++ dquote ++ "studio" ++ dquote ++ " already exists")))
  /\ fst (run (createStudio "alice" "Other" "other" (Some OPEN)) s)
     = Resolved (mkStudio "c4" "Other" "other" OPEN)
  /\ role_of (snd (run (createStudio "alice" "Other" "other" (Some OPEN)) s)) "c4" "alice"
     = Some OWNER.
Proof.
  intros s.
  destruct (createStudio_creates History.staffed "alice" "Again" "studio" None)
    as (Htaken & _).
  destruct (createStudio_creates History.staffed "alice" "Other" "other" (Some OPEN))
    as (_ & Hfree).
  split.
  - fold s in Htaken.
    rewrite (Htaken (mkStudio "c0" "Studio" "studio" WAITLIST));
      [reflexivity|vm_compute; reflexivity].
  - destruct Hfree as (Hrun & _ & Hrole); [vm_compute; reflexivity|].
    fold s in Hrun, Hrole. rewrite Hrun. split; [reflexivity|]. exact Hrole.
Defined.



Lemma reviewResponse_reviews_witness :
  let s := after Case.applied in
  run (reviewResponse "c9" "alice" Review.APPROVED) s
  = (Threw (ServiceErr (notFound "Waitlist response not found")), s)
  /\ run (reviewResponse "c1" "bob" Review.APPROVED) s
     = (Threw (ServiceErr
          (forbidden "Only owners and moderators can review waitlist responses")), s)
  /\ fst (run (reviewResponse "c1" "alice" Review.APPROVED) s)
     = Resolved (mkResponse "c1" "c0" "bob" [("q1", "because")] RequestStatus.APPROVED)
  /\ role_of (snd (run (reviewResponse "c1" "alice" Review.APPROVED) s)) "c0" "bob"
     = Some MEMBER.
Proof.
  intros s.
  destruct (reviewResponse_reviews s "c9" "alice" Review.APPROVED) as (Habsent & _).
  destruct (reviewResponse_reviews s "c1" "bob" Review.APPROVED) as (_ & Hbob).
  destruct (reviewResponse_reviews s "c1" "alice" Review.APPROVED) as (_ & Halice).
  set (response := mkResponse "c1" "c0" "bob" [("q1", "because")] RequestStatus.PENDING).
  destruct (Hbob response) as (Hforbidden & _); [vm_compute; reflexivity|].
  destruct (Halice response) as (_ & _ & Hok); [vm_compute; reflexivity|].
  destruct Hok as (Hrun & _ & Hrole & _); try (vm_compute; reflexivity).
  split; [apply Habsent; vm_compute; reflexivity|].
  split; [apply Hforbidden; vm_compute; reflexivity|].
  rewrite Hrun. split; [reflexivity|exact Hrole].
Defined.

Lemma reject_then_reapply_witness :
  let s := after Case.applied in
  exists s1 s2,
    fst (run (reviewResponse "c1" "alice" Review.REJECTED) s)
    = Resolved (mkResponse "c1" "c0" "bob" [("q1", "because")] RequestStatus.REJECTED)
    /\ snd (run (reviewResponse "c1" "alice" Review.REJECTED) s) = s1
    /\ run (submitResponse "c0" "bob" [("q1", "better")]) s1
       = (Resolved (mkResponse "c1" "c0" "bob" [("q1", "better")] RequestStatus.PENDING),
          s2)
    /\ List.length (waitlistResponses s2) = 1.
Proof.
  intros s.
  destruct (history_keys_unique Case.applied) as (_ & _ & Hw & _).
  destruct (@reject_then_reapply s "c1" "alice"
              (mkResponse "c1" "c0" "bob" [("q1", "because")] RequestStatus.PENDING)
              (mkStudio "c0" "Studio" "studio" WAITLIST) [("q1", "better")] Hw)
    as (s1 & s2 & H1 & H2 & _ & _ & Hlen); try (vm_compute; reflexivity).
  exists s1, s2. rewrite H1. split; [reflexivity|]. split; [reflexivity|].
  split; [exact H2|]. rewrite Hlen. reflexivity.
Defined.

Lemma decline_then_reinvite_witness :
  let s := after History.invited in
  exists s1 s2,
    run (respondToInvite "c1" "bob" false) s
    = (Resolved (mkInvite "c1" "c0" "bob" InviteStatus.REJECTED MEMBER, None), s1)
    /\ run (inviteUser "c0" "alice" "bob" (Some MODERATOR)) s1
       = (Resolved (mkInvite "c1" "c0" "bob" InviteStatus.PENDING MODERATOR), s2)
    /\ List.length (invites s2) = 1.
Proof.
  intros s.
  destruct (history_keys_unique History.invited) as (Hi & _).
  destruct (@decline_then_reinvite s "c1" "bob" "alice"
              (mkInvite "c1" "c0" "bob" InviteStatus.PENDING MEMBER)
              (Some MODERATOR) Hi)
    as (s1 & s2 & H1 & _ & H2 & _ & Hlen); try (vm_compute; reflexivity).
  - discriminate.
  - intros [H _]. vm_compute in H. discriminate H.
  - exists s1, s2. split; [exact H1|]. split; [exact H2|]. rewrite Hlen. reflexivity.
Defined.
(* ================================================================== *)
(** * The content services *)

Section OrderByFacts.
Variable A : Type.
Variable key : A -> Z.

Lemma insert_asc_perm (x : A) (l : list A) : Permutation (x :: l) (insert_asc key x l).
Proof.
  induction l as [|y r IH]; simpl; [reflexivity|].
  destruct (key x <=? key y)%Z; [reflexivity|].
  rewrite perm_swap. apply perm_skip, IH.
Qed.

Lemma order_asc_perm (l : list A) : Permutation l (order_asc key l).
Proof.
  induction l as [|x r IH]; simpl; [reflexivity|].
  rewrite <- insert_asc_perm. apply perm_skip, IH.
Qed.

Lemma insert_asc_last (a x : A) (l : list A) :
  (key a < key x)%Z ->
  insert_asc key a (l ++ [x])%list = (insert_asc key a l ++ [x])%list.
Proof.
  intros Hlt. induction l as [|y r IH]; simpl.
  - destruct (Z.leb_spec (key a) (key x)); [reflexivity|lia].
  - destruct (key a <=? key y)%Z; [reflexivity|]. rewrite IH. reflexivity.
Qed.

(** A row whose key is above every key of the table is listed last. *)
Lemma order_asc_last (l : list A) (x : A) :
  (forall y, In y l -> (key y < key x)%Z) ->
  order_asc key (l ++ [x])%list = (order_asc key l ++ [x])%list.
Proof.
  induction l as [|a r IH]; intros H; simpl; [reflexivity|].
  rewrite IH by (intros y Hy; apply H; right; exact Hy).
  apply insert_asc_last, H. left. reflexivity.
Qed.

Lemma greatest_none (l : list A) : greatest key l = None -> l = [].
Proof.
  destruct l as [|x r]; simpl; [reflexivity|].
  destruct (greatest key r) as [y|]; [|discriminate].
  destruct (key x <? key y)%Z; discriminate.
Qed.

Lemma greatest_bound (l : list A) (g : A) :
  greatest key l = Some g -> In g l /\ forall y, In y l -> (key y <= key g)%Z.
Proof.
  revert g. induction l as [|x r IH]; simpl; intros g H; [discriminate|].
  destruct (greatest key r) as [y|] eqn:E.
  - destruct (IH y eq_refl) as (Hin & Hmax).
    destruct (Z.ltb_spec (key x) (key y)); injection H as <-.
    + split; [right; exact Hin|]. intros z [<-|Hz]; [lia|apply Hmax, Hz].
    + split; [left; reflexivity|].
      intros z [<-|Hz]; [lia|]. specialize (Hmax z Hz). lia.
  - injection H as <-. apply greatest_none in E. subst r.
    split; [left; reflexivity|]. intros z [<-|[]]. lia.
Qed.

Lemma insert_asc_swap (x y : A) (l : list A) :
  key x <> key y ->
  insert_asc key x (insert_asc key y l) = insert_asc key y (insert_asc key x l).
Proof.
  intros Hne. induction l as [|z r IH]; simpl;
    repeat match goal with
           | |- context [(?a <=? ?b)%Z] => destruct (Z.leb_spec a b); simpl
           end;
    try reflexivity; try lia.
  rewrite IH. reflexivity.
Qed.

(** With no two keys equal, the listing does not depend on the order of
    the table. *)
Lemma order_asc_permutation (l l' : list A) :
  Permutation l l' -> NoDup (map key l) -> order_asc key l = order_asc key l'.
Proof.
  induction 1 as [|x l l' _ IH|x y l|l l' l'' H1 IH1 H2 IH2]; intros Hnd; simpl.
  - reflexivity.
  - rewrite IH; [reflexivity|]. simpl in Hnd. inversion Hnd. assumption.
  - apply insert_asc_swap. simpl in Hnd. inversion Hnd as [|? ? Hin _].
    intros E. apply Hin. left. symmetry. exact E.
  - rewrite IH1 by exact Hnd. apply IH2.
    eapply Permutation_NoDup; [|exact Hnd]. apply Permutation_map, H1.
Qed.

(** A table already in strictly ascending order is listed as it is. *)
Lemma order_asc_sorted (l : list A) :
  StronglySorted (fun a b => (key a < key b)%Z) l -> order_asc key l = l.
Proof.
  induction 1 as [|x l _ IH Hall]; simpl; [reflexivity|].
  rewrite IH. destruct l as [|y r]; simpl; [reflexivity|].
  inversion Hall as [|? ? Hxy _]. destruct (Z.leb_spec (key x) (key y)); [reflexivity|lia].
Qed.
(** The listing is in ascending order of the key. *)
Lemma insert_asc_sorted (x : A) (l : list A) :
  StronglySorted (fun a b => (key a <= key b)%Z) l ->
  StronglySorted (fun a b => (key a <= key b)%Z) (insert_asc key x l).
Proof.
  induction 1 as [|y r Hr IH Hall]; simpl.
  - constructor; constructor.
  - rewrite Forall_forall in Hall. destruct (Z.leb_spec (key x) (key y)).
    + constructor; [constructor; [assumption|apply Forall_forall; assumption]|].
      constructor; [assumption|].
      apply Forall_forall. intros a Ha. specialize (Hall a Ha). simpl in Hall. lia.
    + constructor; [exact IH|].
      apply Forall_forall. intros a Ha.
      apply (Permutation_in _ (Permutation_sym (insert_asc_perm x r))) in Ha.
      destruct Ha as [<-|Ha]; [lia|apply Hall, Ha].
Qed.

Lemma order_asc_ascending (l : list A) :
  StronglySorted (fun a b => (key a <= key b)%Z) (order_asc key l).
Proof.
  induction l as [|x r IH]; simpl; [constructor|]. apply insert_asc_sorted, IH.
Qed.

Lemma insert_asc_above (x : A) (l : list A) :
  (forall y, In y l -> (key y < key x)%Z) -> insert_asc key x l = (l ++ [x])%list.
Proof.
  induction l as [|a r IH]; simpl; intros H; [reflexivity|].
  destruct (Z.leb_spec (key x) (key a)) as [Hle|_].
  - specialize (H a (or_introl eq_refl)). lia.
  - f_equal. apply IH. intros y Hy. apply H. right. exact Hy.
Qed.

Lemma order_asc_top (l1 l2 : list A) (x : A) :
  (forall y, In y (l1 ++ l2)%list -> (key y < key x)%Z) ->
  order_asc key (l1 ++ x :: l2)%list = (order_asc key (l1 ++ l2) ++ [x])%list.
Proof.
  induction l1 as [|a r IH]; intros H; simpl.
  - apply insert_asc_above. intros y Hy. apply H. simpl.
    eapply Permutation_in; [symmetry; apply order_asc_perm|exact Hy].
  - rewrite IH by (intros y Hy; apply H; right; exact Hy).
    apply insert_asc_last, H. left. reflexivity.
Qed.

(** However the store scans them, a row whose key is above every other
    key is listed last, after a listing of the other rows. *)
Lemma order_asc_scan_last (scan : Scan A) (l : list A) (x : A) :
  (forall y, In y l -> (key y < key x)%Z) ->
  exists l0,
    Permutation l l0
    /\ order_asc key (scan (l ++ [x])%list) = (order_asc key l0 ++ [x])%list.
Proof.
  intros Habove.
  assert (Hin : In x (scan (l ++ [x])%list)).
  { eapply Permutation_in; [apply arrange_perm|]. apply in_or_app. right. left. reflexivity. }
  destruct (in_split _ _ Hin) as (l1 & l2 & E).
  assert (Hperm : Permutation l (l1 ++ l2)%list).
  { apply (@Permutation_cons_inv _ _ _ x).
    rewrite (Permutation_middle l1 l2 x), <- E, <- (arrange_perm scan).
    apply Permutation_cons_append. }
  exists (l1 ++ l2)%list. split; [exact Hperm|].
  rewrite E. apply order_asc_top. intros y Hy. apply Habove.
  eapply Permutation_in; [symmetry; exact Hperm|exact Hy].
Qed.

(** With no two keys equal, every scan gives the same listing. *)
Lemma order_asc_any_scan (scan scan' : Scan A) (l : list A) :
  NoDup (map key l) ->
  order_asc key (scan l) = order_asc key (scan' l).
Proof.
  intros Hnd. apply order_asc_permutation.
  - rewrite <- (arrange_perm scan), <- (arrange_perm scan'). reflexivity.
  - eapply Permutation_NoDup; [|exact Hnd]. apply Permutation_map, arrange_perm.
Qed.
End OrderByFacts.

(** ** Running the pieces *)

Lemma with_core_same (c : Site) : with_core (core c) c = c.
Proof. destruct c. reflexivity. Qed.

Lemma with_faqs_same (c : Site) : with_faqs (faqs c) c = c.
Proof. destruct c. reflexivity. Qed.

Lemma lift_getMemberRole (studioId userId : string) (c : Site) :
  lift (getMemberRole studioId userId) c = (Resolved (role_of (core c) studioId userId), c).
Proof.
  unfold lift, getMemberRole, role_of, find_member. simpl.
  rewrite with_core_same. reflexivity.
Qed.

Lemma faq_has_id_other (a b : string) :
  a <> b -> forall x, faq_has_id a x = true -> faq_has_id b x = false.
Proof.
  unfold faq_has_id. intros Hne x H. apply String.eqb_eq in H.
  apply String.eqb_neq. congruence.
Qed.

Lemma faq_has_id_set (id : string) (q a : option string) (o : option Z) (x : StudioFAQ) :
  faq_has_id id (set_faq q a o x) = faq_has_id id x.
Proof. reflexivity. Qed.

Lemma faq_of_set (studioId : string) (q a : option string) (o : option Z) (x : StudioFAQ) :
  faq_of studioId (set_faq q a o x) = faq_of studioId x.
Proof. reflexivity. Qed.

(* ================================================================== *)
(** * services/faqService.ts *)

(** What addFAQ does for staff when the orders of the studio's FAQs are
    32-bit numbers below the greatest. *)
Lemma addFAQ_run (c : Site) (studioId userId question answer : string) :
  not_staff (role_of (core c) studioId userId) = false ->
  (forall f, In f (faqs c) -> faq_studioId f = studioId ->
             (-2147483648 <= faq_order f < 2147483647)%Z) ->
  exists faq,
    addFAQ studioId userId question answer c
    = (Resolved faq, mkSite (bump (core c)) (faqs c ++ [faq])%list (waitlistQuestions c))
    /\ (faq_id faq, faq_studioId faq, faq_question faq, faq_answer faq)
       = (cuid (nextId (core c)), studioId, question, answer)
    /\ (forall f, In f (faqs c) -> faq_studioId f = studioId ->
                  (faq_order f < faq_order faq)%Z)
    /\ (filter (faq_of studioId) (faqs c) = [] -> faq_order faq = 0%Z).
Proof.
  intros Hrole Hrange.
  unfold addFAQ, svc_bind. rewrite lift_getMemberRole, Hrole.
  unfold studioFAQ_findFirst_desc, studioFAQ_create, svc_ret. cbv zeta.
  destruct (greatest faq_order (filter (faq_of studioId) (faqs c))) as [g|] eqn:E.
  - destruct (greatest_bound _ _ E) as (Hg & Hmax).
    apply filter_In in Hg. destruct Hg as (Hg & Hst). apply String.eqb_eq in Hst.
    pose proof (Hrange g Hg Hst) as Hgr.
    assert (Hok : int32 (faq_order g + 1) = true).
    { unfold int32. apply andb_true_iff. split; apply Z.leb_le; lia. }
    rewrite Hok. eexists. split; [reflexivity|]. split; [reflexivity|]. split.
    + intros f Hin Hf. simpl.
      assert (Hle : (faq_order f <= faq_order g)%Z).
      { apply Hmax. apply filter_In. split; [exact Hin|]. apply String.eqb_eq, Hf. }
      lia.
    + intros Hnone. rewrite Hnone in E. discriminate E.
  - apply greatest_none in E. simpl.
    eexists. split; [reflexivity|]. split; [reflexivity|]. split.
    + intros f Hin Hf. exfalso.
      assert (Hf' : In f (filter (faq_of studioId) (faqs c))).
      { apply filter_In. split; [exact Hin|]. apply String.eqb_eq, Hf. }
      rewrite E in Hf'. destruct Hf'.
    + reflexivity.
Qed.

(** X19: addFAQ is refused with Forbidden for a caller who is not OWNER or
    MODERATOR of the studio, and nothing is written.  For staff, when the
    orders of the studio's FAQs are 32-bit numbers below the greatest one,
    it appends one FAQ of that studio whose order is above the order of
    every FAQ the studio had (0 when it had none).  However the store
    orders FAQs of equal order, the new FAQ then comes last in getFAQs,
    after the FAQs the studio had, which are listed in ascending order;
    when no two of them had the same order, they are listed as getFAQs
    listed them before.  When a FAQ of the studio has the greatest 32-bit
    number as its order, or more, the store refuses the new FAQ and
    nothing is written. *)
Theorem addFAQ_adds_last (c : Site) (studioId userId question answer : string) :
  (not_staff (role_of (core c) studioId userId) = true ->
   addFAQ studioId userId question answer c
   = (Threw (ServiceErr (forbidden "Only owners and moderators can manage FAQs")), c))
  /\ (not_staff (role_of (core c) studioId userId) = false ->
      (forall f, In f (faqs c) -> faq_studioId f = studioId ->
                 (-2147483648 <= faq_order f < 2147483647)%Z) ->
      exists faq c',
        addFAQ studioId userId question answer c = (Resolved faq, c')
        /\ faqs c' = (faqs c ++ [faq])%list
        /\ members (core c') = members (core c)
        /\ (faq_studioId faq, faq_question faq, faq_answer faq)
           = (studioId, question, answer)
        /\ (forall f, In f (faqs c) -> faq_studioId f = studioId ->
                      (faq_order f < faq_order faq)%Z)
        /\ (filter (faq_of studioId) (faqs c) = [] -> faq_order faq = 0%Z)
        /\ forall scan : Scan StudioFAQ,
             exists before,
               getFAQs scan studioId c' = (Resolved (before ++ [faq])%list, c')
               /\ Permutation (filter (faq_of studioId) (faqs c)) before
               /\ StronglySorted (fun a b => (faq_order a <= faq_order b)%Z) before
               /\ (NoDup (map faq_order (filter (faq_of studioId) (faqs c))) ->
                   forall scan' : Scan StudioFAQ,
                     getFAQs scan' studioId c = (Resolved before, c)))
  /\ (not_staff (role_of (core c) studioId userId) = false ->
      (exists f, In f (faqs c) /\ faq_studioId f = studioId
                 /\ (2147483647 <= faq_order f)%Z) ->
      addFAQ studioId userId question answer c
      = (Threw (PrismaClientKnownRequestError (P2020 "StudioFAQ")), c)).
Proof.
  split; [|split].
  - intros Hrole. unfold addFAQ, svc_bind. rewrite lift_getMemberRole, Hrole. reflexivity.
  - intros Hrole Hrange.
    destruct (@addFAQ_run c studioId userId question answer Hrole Hrange)
      as (faq & Hrun & Hfields & Habove & Hfirst).
    eexists faq, _. split; [exact Hrun|]. split; [reflexivity|]. split; [reflexivity|].
    split; [injection Hfields as _ -> -> ->; reflexivity|].
    split; [exact Habove|]. split; [exact Hfirst|].
    intros scan. unfold getFAQs, studioFAQ_findMany. cbn [faqs].
    assert (Hmine : faq_of studioId faq = true).
    { unfold faq_of. injection Hfields as _ -> _ _. apply String.eqb_refl. }
    rewrite filter_app. simpl. rewrite Hmine.
    destruct (@order_asc_scan_last _ faq_order scan (filter (faq_of studioId) (faqs c)) faq)
      as (l0 & Hperm & Hlist).
    { intros y Hy. apply filter_In in Hy. destruct Hy as (Hin & Hy).
      apply Habove; [exact Hin|]. apply String.eqb_eq, Hy. }
    exists (order_asc faq_order l0). split; [rewrite Hlist; reflexivity|].
    split; [rewrite Hperm at 1; apply order_asc_perm|].
    split; [apply order_asc_ascending|].
    intros Hnd scan'. f_equal. f_equal. symmetry. apply order_asc_permutation.
    + rewrite <- (arrange_perm scan'). symmetry. exact Hperm.
    + eapply Permutation_NoDup; [|exact Hnd]. apply Permutation_map, Hperm.
  - intros Hrole (f & Hin & Hf & Hbig).
    unfold addFAQ, svc_bind. rewrite lift_getMemberRole, Hrole.
    unfold studioFAQ_findFirst_desc, studioFAQ_create, svc_ret. cbv zeta.
    assert (Hf' : In f (filter (faq_of studioId) (faqs c))).
    { apply filter_In. split; [exact Hin|]. apply String.eqb_eq, Hf. }
    destruct (greatest faq_order (filter (faq_of studioId) (faqs c))) as [g|] eqn:E.
    + destruct (greatest_bound _ _ E) as (_ & Hmax). specialize (Hmax f Hf').
      assert (Hno : int32 (faq_order g + 1) = false).
      { unfold int32. apply andb_false_iff. right. apply Z.leb_gt. lia. }
      rewrite Hno. reflexivity.
    + apply greatest_none in E. rewrite E in Hf'. destruct Hf'.
Qed.

(** X20: updateFAQ looks the FAQ up before it checks the caller: an
    unknown id is NotFound for everybody, and a known one is Forbidden for
    a caller who is not staff of the studio the FAQ belongs to.  For staff
    the question and the answer given are replaced and the id, the studio
    and the order are kept; no other FAQ changes. *)
Theorem updateFAQ_updates (c : Site) (faqId userId : string) (question answer : option string) :
  (find (faq_has_id faqId) (faqs c) = None ->
   updateFAQ faqId userId question answer c
   = (Threw (ServiceErr (notFound "FAQ not found")), c))
  /\ forall faq,
       find (faq_has_id faqId) (faqs c) = Some faq ->
       (not_staff (role_of (core c) (faq_studioId faq) userId) = true ->
        updateFAQ faqId userId question answer c
        = (Threw (ServiceErr (forbidden "Only owners and moderators can update FAQs")), c))
       /\ (not_staff (role_of (core c) (faq_studioId faq) userId) = false ->
           let updated :=
             mkFAQ (faq_id faq) (faq_studioId faq)
                   (match question with Some q => q | None => faq_question faq end)
                   (match answer with Some a => a | None => faq_answer faq end)
                   (faq_order faq) in
           exists c',
             updateFAQ faqId userId question answer c = (Resolved updated, c')
             /\ core c' = core c
             /\ find (faq_has_id faqId) (faqs c') = Some updated
             /\ (forall other, other <> faqId ->
                   find (faq_has_id other) (faqs c') = find (faq_has_id other) (faqs c))
             /\ List.length (faqs c') = List.length (faqs c)).
Proof.
  unfold updateFAQ, svc_bind, studioFAQ_findUnique. split.
  - intros ->. reflexivity.
  - intros faq Hfaq. rewrite Hfaq, lift_getMemberRole.
    split; intros Hrole; rewrite Hrole; [reflexivity|].
    unfold studioFAQ_update, svc_ret.
    rewrite (update_first_found _ (set_faq question answer None) _ Hfaq).
    eexists. split; [reflexivity|]. split; [reflexivity|]. cbn [faqs with_faqs].
    split; [|split].
    + apply (@find_updated_rows _ (faq_has_id faqId) (set_faq question answer None)
               (faq_has_id_set faqId question answer None) _ _ Hfaq).
    + intros other Hne.
      apply (@find_updated_other _ (faq_has_id faqId) (faq_has_id other)
               (faq_has_id_other (not_eq_sym Hne))).
      intros x. reflexivity.
    + apply updated_rows_length.
Qed.

Lemma remove_first_perm (A : Type) (p : A -> bool) (l l' : list A) (x : A) :
  remove_first p l = Some (x, l') -> Permutation l (x :: l').
Proof.
  revert l'. induction l as [|y r IH]; simpl; intros l' H; [discriminate|].
  destruct (p y).
  - injection H as <- <-. reflexivity.
  - destruct (remove_first p r) as [[z r']|]; [|discriminate].
    injection H as <- <-. rewrite perm_swap. apply perm_skip, IH. reflexivity.
Qed.

(** X21: deleteFAQ has the guards of updateFAQ, NotFound before Forbidden.
    For staff it removes the FAQ found under the id and nothing else: the
    FAQs left are the ones there were, with their orders as they were. *)
Theorem deleteFAQ_deletes (c : Site) (faqId userId : string) :
  (find (faq_has_id faqId) (faqs c) = None ->
   deleteFAQ faqId userId c = (Threw (ServiceErr (notFound "FAQ not found")), c))
  /\ forall faq,
       find (faq_has_id faqId) (faqs c) = Some faq ->
       (not_staff (role_of (core c) (faq_studioId faq) userId) = true ->
        deleteFAQ faqId userId c
        = (Threw (ServiceErr (forbidden "Only owners and moderators can delete FAQs")), c))
       /\ (not_staff (role_of (core c) (faq_studioId faq) userId) = false ->
           exists c',
             deleteFAQ faqId userId c = (Resolved tt, c')
             /\ core c' = core c
             /\ Permutation (faqs c) (faq :: faqs c')
             /\ (forall other, other <> faqId ->
                   find (faq_has_id other) (faqs c') = find (faq_has_id other) (faqs c))).
Proof.
  unfold deleteFAQ, svc_bind, studioFAQ_findUnique. split.
  - intros ->. reflexivity.
  - intros faq Hfaq. rewrite Hfaq, lift_getMemberRole.
    split; intros Hrole; rewrite Hrole; [reflexivity|].
    unfold studioFAQ_delete, svc_ret.
    pose proof (remove_first_found _ _ Hfaq) as Hrm. rewrite Hrm.
    eexists. split; [reflexivity|]. split; [reflexivity|]. cbn [faqs with_faqs].
    split.
    + apply (remove_first_perm _ _ Hrm).
    + intros other Hne.
      apply (@find_remaining_other _ (faq_has_id faqId) (faq_has_id other)
               (faq_has_id_other (not_eq_sym Hne))).
Qed.

(** ** reorderFAQs *)

Lemma updated_rows_map (A B : Type) (p : A -> bool) (f : A -> A) (g : A -> B)
    (l : list A) :
  (forall x, g (f x) = g x) -> map g (updated_rows p f l) = map g l.
Proof.
  intros Hg. unfold updated_rows.
  assert (H : forall y l', update_first p f l = Some (y, l') -> map g l' = map g l).
  { induction l as [|x r IH]; simpl; intros y l' H; [discriminate|].
    destruct (p x).
    - injection H as _ <-. simpl. rewrite Hg. reflexivity.
    - destruct (update_first p f r) as [[z r']|]; [|discriminate].
      injection H as _ <-. simpl. f_equal. eapply IH. reflexivity. }
  destruct (update_first p f l) as [[y l']|]; [|reflexivity].
  eapply H. reflexivity.
Qed.

Lemma reorder_from_app (done rest : list string) :
  forall (i : nat) (c : Site),
    reorder_from i (done ++ rest)%list c
    = svc_bind (reorder_from i done)
               (fun _ => reorder_from (i + List.length done) rest) c.
Proof.
  induction done as [|id done IH]; intros i c; simpl.
  - unfold svc_bind, svc_ret. rewrite Nat.add_0_r. reflexivity.
  - unfold svc_bind.
    destruct (studioFAQ_update id None None (Some (Z.of_nat i)) c) as [[u|e] c1];
      [|reflexivity].
    rewrite IH. unfold svc_bind.
    replace (S i + List.length done) with (i + S (List.length done)) by lia.
    reflexivity.
Qed.

(** The loop of reorderFAQs on ids that are all there: the FAQ found
    under the [k]-th id gets the order [i + k], whatever studio it is of;
    no other field and no other FAQ changes. *)
Lemma reorder_from_assigns (ids : list string) :
  forall (i : nat) (c : Site),
    NoDup ids ->
    (forall id, In id ids -> find (faq_has_id id) (faqs c) <> None) ->
    exists c',
      reorder_from i ids c = (Resolved tt, c')
      /\ core c' = core c
      /\ waitlistQuestions c' = waitlistQuestions c
      /\ (forall k id, nth_error ids k = Some id ->
            exists f,
              find (faq_has_id id) (faqs c) = Some f
              /\ find (faq_has_id id) (faqs c')
                 = Some (set_faq None None (Some (Z.of_nat (i + k))) f))
      /\ (forall id, ~ In id ids ->
            find (faq_has_id id) (faqs c') = find (faq_has_id id) (faqs c))
      /\ map faq_id (faqs c') = map faq_id (faqs c)
      /\ map faq_studioId (faqs c') = map faq_studioId (faqs c).
Proof.
  induction ids as [|id ids IH]; intros i c Hnd Hall.
  - exists c. simpl. unfold svc_ret. repeat split; try reflexivity.
    intros [|k] id H; discriminate H.
  - inversion Hnd as [|? ? Hnotin Hnd']. subst.
    destruct (find (faq_has_id id) (faqs c)) as [f|] eqn:Hf;
      [|exfalso; apply (Hall id); [left; reflexivity|exact Hf]].
    set (g := set_faq None None (Some (Z.of_nat i))).
    set (c1 := with_faqs (updated_rows (faq_has_id id) g (faqs c)) c).
    assert (Hother : forall other, other <> id ->
              find (faq_has_id other) (faqs c1) = find (faq_has_id other) (faqs c)).
    { intros other Hne. unfold c1. cbn [faqs with_faqs].
      apply (@find_updated_other _ (faq_has_id id) (faq_has_id other)
               (faq_has_id_other (not_eq_sym Hne))).
      intros x. reflexivity. }
    destruct (IH (S i) c1 Hnd') as (c' & Hrun & Hcore & Hq & Hlisted & Hunlisted & Hids & Hst).
    { intros id' Hin. rewrite Hother; [apply Hall; right; exact Hin|].
      intros ->. contradiction. }
    exists c'. split; [|split; [|split; [|split; [|split; [|split]]]]].
    + simpl. unfold svc_bind, studioFAQ_update.
      rewrite (update_first_found _ (set_faq None None (Some (Z.of_nat i))) _ Hf).
      exact Hrun.
    + rewrite Hcore. reflexivity.
    + rewrite Hq. reflexivity.
    + intros [|k] id' H; simpl in H.
      * injection H as <-. exists f. split; [exact Hf|].
        rewrite (Hunlisted id Hnotin). unfold c1. cbn [faqs with_faqs].
        rewrite Nat.add_0_r.
        apply (@find_updated_rows _ (faq_has_id id) g (faq_has_id_set id None None _) _ _ Hf).
      * destruct (Hlisted k id' H) as (f' & Hf1 & Hf').
        assert (Hne : id' <> id).
        { intros ->. apply Hnotin. eapply nth_error_In. exact H. }
        exists f'. split; [rewrite <- (Hother id' Hne); exact Hf1|].
        replace (i + S k) with (S i + k) by lia. exact Hf'.
    + intros id' Hnot. rewrite Hunlisted by (intros Hin; apply Hnot; right; exact Hin).
      apply Hother. intros ->. apply Hnot. left. reflexivity.
    + rewrite Hids. unfold c1. cbn [faqs with_faqs]. apply updated_rows_map.
      intros x. reflexivity.
    + rewrite Hst. unfold c1. cbn [faqs with_faqs]. apply updated_rows_map.
      intros x. reflexivity.
Qed.

(** X22: for staff of the studio named in the call, reorderFAQs with
    distinct ids that all exist gives the FAQ under the k-th id the order
    k, and leaves its other fields and every FAQ not listed as they were.
    The studio named is only used for the permission check and the
    listing returned: a listed FAQ of any other studio is renumbered as
    well.  The listing returned is the one getFAQs computes on the state
    left, for the same scan of the rows, whatever that scan is. *)
Theorem reorderFAQs_assigns
    (scan : Scan StudioFAQ) (c : Site) (studioId userId : string) (faqIds : list string) :
  not_staff (role_of (core c) studioId userId) = false ->
  NoDup faqIds ->
  (forall id, In id faqIds -> find (faq_has_id id) (faqs c) <> None) ->
  exists listed c',
    reorderFAQs scan studioId userId faqIds c = (Resolved listed, c')
    /\ getFAQs scan studioId c' = (Resolved listed, c')
    /\ (forall k id, nth_error faqIds k = Some id ->
          exists f,
            find (faq_has_id id) (faqs c) = Some f
            /\ find (faq_has_id id) (faqs c')
               = Some (mkFAQ (faq_id f) (faq_studioId f) (faq_question f) (faq_answer f)
                             (Z.of_nat k)))
    /\ (forall id, ~ In id faqIds ->
          find (faq_has_id id) (faqs c') = find (faq_has_id id) (faqs c)).
Proof.
  intros Hrole Hnd Hall.
  destruct (reorder_from_assigns 0 c Hnd Hall)
    as (c' & Hrun & _ & _ & Hlisted & Hunlisted & _).
  exists (order_asc faq_order (scan (filter (faq_of studioId) (faqs c')))), c'.
  split; [|split; [reflexivity|split; [exact Hlisted|exact Hunlisted]]].
  unfold reorderFAQs, svc_bind. rewrite lift_getMemberRole, Hrole, Hrun. reflexivity.
Qed.

(** X23: the updates of reorderFAQs are not undone when a later one
    fails.  When the ids before an unknown id all exist, the call throws
    the store's missing-row error, which sendError reports as a 500, and
    the FAQs listed before the unknown id keep their new orders. *)
Theorem reorderFAQs_partial
    (scan : Scan StudioFAQ) (c : Site) (studioId userId : string)
    (done : list string) (missing : string) (rest : list string) :
  not_staff (role_of (core c) studioId userId) = false ->
  NoDup done ->
  (forall id, In id done -> find (faq_has_id id) (faqs c) <> None) ->
  find (faq_has_id missing) (faqs c) = None ->
  exists e c',
    reorderFAQs scan studioId userId (done ++ missing :: rest)%list c = (Threw e, c')
    /\ e = PrismaClientKnownRequestError (P2025 "StudioFAQ")
    /\ reply_status (sendError e) = 500
    /\ (forall k id, nth_error done k = Some id ->
          exists f,
            find (faq_has_id id) (faqs c) = Some f
            /\ find (faq_has_id id) (faqs c')
               = Some (mkFAQ (faq_id f) (faq_studioId f) (faq_question f) (faq_answer f)
                             (Z.of_nat k)))
    /\ find (faq_has_id missing) (faqs c') = None.
Proof.
  intros Hrole Hnd Hall Hmissing.
  destruct (reorder_from_assigns 0 c Hnd Hall)
    as (c' & Hrun & _ & _ & Hlisted & Hunlisted & _).
  assert (Hnot : ~ In missing done).
  { intros Hin. apply (Hall missing Hin). exact Hmissing. }
  assert (Hgone : find (faq_has_id missing) (faqs c') = None).
  { rewrite (Hunlisted missing Hnot). exact Hmissing. }
  exists (PrismaClientKnownRequestError (P2025 "StudioFAQ")), c'.
  split; [|split; [reflexivity|split; [reflexivity|split; [exact Hlisted|exact Hgone]]]].
  unfold reorderFAQs. unfold svc_bind at 1. rewrite lift_getMemberRole, Hrole.
  unfold svc_bind at 1. rewrite reorder_from_app. unfold svc_bind at 1. rewrite Hrun.
  simpl. unfold svc_bind at 1. unfold studioFAQ_update.
  rewrite (update_first_none _ _ _ Hgone). reflexivity.
Qed.

Section Paired.
Variables A B : Type.
Variable R : A -> B -> Prop.

Lemma Forall2_In_l (l : list A) (l' : list B) (x : A) :
  Forall2 R l l' -> In x l -> exists y, In y l' /\ R x y.
Proof.
  induction 1 as [|a b l l' Hab _ IH]; intros Hin; [destruct Hin|].
  destruct Hin as [<-|Hin].
  - exists b. split; [left; reflexivity|exact Hab].
  - destruct (IH Hin) as (y & Hy & Hxy). exists y. split; [right; exact Hy|exact Hxy].
Qed.

Lemma Forall2_In_r (l : list A) (l' : list B) (y : B) :
  Forall2 R l l' -> In y l' -> exists x, In x l /\ R x y.
Proof.
  induction 1 as [|a b l l' Hab _ IH]; intros Hin; [destruct Hin|].
  destruct Hin as [<-|Hin].
  - exists a. split; [left; reflexivity|exact Hab].
  - destruct (IH Hin) as (x & Hx & Hxy). exists x. split; [right; exact Hx|exact Hxy].
Qed.

Lemma Forall2_nth_error_r (l : list A) (l' : list B) (k : nat) (y : B) :
  Forall2 R l l' -> nth_error l' k = Some y -> exists x, nth_error l k = Some x /\ R x y.
Proof.
  intros H. revert k. induction H as [|a b l l' Hab _ IH]; intros [|k] Hk;
    simpl in Hk; try discriminate.
  - injection Hk as <-. exists a. split; [reflexivity|exact Hab].
  - apply IH, Hk.
Qed.
End Paired.

Lemma find_by_id_unique (l : list StudioFAQ) (r : StudioFAQ) :
  NoDup (map faq_id l) -> In r l -> find (faq_has_id (faq_id r)) l = Some r.
Proof.
  induction l as [|x l IH]; simpl; intros Hnd Hin; [destruct Hin|].
  inversion Hnd as [|? ? Hnot Hnd']. subst. unfold faq_has_id at 1.
  destruct Hin as [->|Hin].
  - rewrite String.eqb_refl. reflexivity.
  - destruct (String.eqb_spec (faq_id x) (faq_id r)) as [E|_]; [|apply IH; assumption].
    exfalso. apply Hnot. rewrite E. apply in_map, Hin.
Qed.

Lemma filter_ids_same (studioId : string) (l l' : list StudioFAQ) :
  map faq_id l = map faq_id l' ->
  map faq_studioId l = map faq_studioId l' ->
  map faq_id (filter (faq_of studioId) l) = map faq_id (filter (faq_of studioId) l').
Proof.
  revert l'. induction l as [|x l IH]; intros [|y l'] Hid Hst; simpl in *;
    try discriminate; try reflexivity.
  injection Hid as Hx Hid. injection Hst as Hy Hst.
  assert (E : faq_of studioId x = faq_of studioId y)
    by (unfold faq_of; rewrite Hy; reflexivity).
  rewrite E. destruct (faq_of studioId y); simpl; [rewrite Hx; f_equal|];
    apply IH; assumption.
Qed.

Lemma NoDup_map_filter (A B : Type) (g : A -> B) (p : A -> bool) (l : list A) :
  NoDup (map g l) -> NoDup (map g (filter p l)).
Proof.
  induction l as [|x l IH]; simpl; intros Hnd; [constructor|].
  inversion Hnd as [|? ? Hnot Hnd']. subst.
  destruct (p x); simpl; [|apply IH, Hnd'].
  constructor; [|apply IH, Hnd'].
  intros Hin. apply Hnot. apply in_map_iff in Hin. destruct Hin as (y & <- & Hy).
  apply in_map. apply filter_In in Hy. apply Hy.
Qed.

Lemma rows_of_ids (l : list StudioFAQ) (ids : list string) :
  (forall id, In id ids -> find (faq_has_id id) l <> None) ->
  exists rows, Forall2 (fun id r => find (faq_has_id id) l = Some r) ids rows.
Proof.
  induction ids as [|id ids IH]; intros H.
  - exists []. constructor.
  - destruct IH as (rows & Hrows); [intros x Hx; apply H; right; exact Hx|].
    destruct (find (faq_has_id id) l) as [r|] eqn:E;
      [|exfalso; apply (H id); [left; reflexivity|exact E]].
    exists (r :: rows). constructor; assumption.
Qed.

Lemma strictly_sorted_from (A : Type) (key : A -> Z) (l : list A) :
  forall i : nat,
    (forall k r, nth_error l k = Some r -> key r = Z.of_nat (i + k)) ->
    StronglySorted (fun a b => (key a < key b)%Z) l.
Proof.
  induction l as [|x l IH]; intros i H; constructor.
  - apply (IH (S i)). intros k r Hk. rewrite (H (S k) r Hk). f_equal. lia.
  - apply Forall_forall. intros y Hy. apply In_nth_error in Hy. destruct Hy as (k & Hk).
    rewrite (H 0 x eq_refl), (H (S k) y Hk). lia.
Qed.

Lemma strictly_sorted_NoDup (A : Type) (key : A -> Z) (l : list A) :
  StronglySorted (fun a b => (key a < key b)%Z) l -> NoDup (map key l).
Proof.
  induction 1 as [|x l _ IH Hall]; simpl; constructor; [|exact IH].
  intros Hin. apply in_map_iff in Hin. destruct Hin as (y & Hy & Hin).
  rewrite Forall_forall in Hall. specialize (Hall y Hin). lia.
Qed.

(** X24: when the ids passed to reorderFAQs are exactly the ids of the
    studio's FAQs, each once, the listing returned has the FAQs in the
    order asked for, numbered 0, 1, 2 and so on, however the store orders
    FAQs of equal order. *)
Theorem reorderFAQs_lists_as_asked
    (scan : Scan StudioFAQ) (c : Site) (studioId userId : string) (faqIds : list string) :
  not_staff (role_of (core c) studioId userId) = false ->
  NoDup (map faq_id (faqs c)) ->
  Permutation faqIds (map faq_id (filter (faq_of studioId) (faqs c))) ->
  exists listed c',
    reorderFAQs scan studioId userId faqIds c = (Resolved listed, c')
    /\ map faq_id listed = faqIds
    /\ (forall k f, nth_error listed k = Some f -> faq_order f = Z.of_nat k).
Proof.
  intros Hrole Hunique Hperm.
  assert (Hnd : NoDup faqIds).
  { eapply Permutation_NoDup; [symmetry; exact Hperm|]. apply NoDup_map_filter, Hunique. }
  assert (Hall : forall id, In id faqIds -> find (faq_has_id id) (faqs c) <> None).
  { intros id Hin. apply (Permutation_in _ Hperm) in Hin.
    apply in_map_iff in Hin. destruct Hin as (r & <- & Hr). apply filter_In in Hr.
    rewrite (@find_by_id_unique _ _ Hunique (proj1 Hr)). discriminate. }
  destruct (reorder_from_assigns 0 c Hnd Hall)
    as (c' & Hrun & _ & _ & Hlisted & _ & Hids & Hst).
  set (F' := filter (faq_of studioId) (faqs c')).
  assert (Hunique' : NoDup (map faq_id (faqs c'))) by (rewrite Hids; exact Hunique).
  assert (HF' : Permutation faqIds (map faq_id F')).
  { unfold F'. rewrite (@filter_ids_same studioId _ _ Hids Hst). exact Hperm. }
  destruct (@rows_of_ids (faqs c') faqIds) as (T & HT).
  { intros id Hin. apply In_nth_error in Hin. destruct Hin as (k & Hk).
    destruct (Hlisted k id Hk) as (f & _ & ->). discriminate. }
  assert (HTids : map faq_id T = faqIds).
  { clear - HT. induction HT as [|id r ids rows Hr _ IH]; simpl; [reflexivity|].
    f_equal; [|exact IH]. apply find_some in Hr. apply String.eqb_eq, Hr. }
  assert (HTorder : forall k r, nth_error T k = Some r -> faq_order r = Z.of_nat (0 + k)).
  { intros k r Hk. destruct (@Forall2_nth_error_r _ _ _ _ _ _ _ HT Hk) as (id & Hid & Hr).
    destruct (Hlisted k id Hid) as (f & _ & Hf). rewrite Hr in Hf.
    injection Hf as ->. reflexivity. }
  assert (Hsorted : StronglySorted (fun a b => (faq_order a < faq_order b)%Z) T)
    by (apply (@strictly_sorted_from _ faq_order T 0 HTorder)).
  assert (HTF : Permutation T F').
  { apply NoDup_Permutation.
    - apply (NoDup_map_inv faq_id). rewrite HTids. exact Hnd.
    - apply (NoDup_map_inv faq_id). eapply Permutation_NoDup; [exact HF'|exact Hnd].
    - intros r. split; intros Hin.
      + destruct (@Forall2_In_r _ _ _ _ _ _ HT Hin) as (id & Hid & Hr).
        apply (Permutation_in _ HF') in Hid. apply in_map_iff in Hid.
        destruct Hid as (r' & <- & Hr').
        assert (Hin' : In r' (faqs c')) by (apply filter_In in Hr'; apply Hr').
        rewrite (@find_by_id_unique _ _ Hunique' Hin') in Hr. injection Hr as <-. exact Hr'.
      + assert (Hid : In (faq_id r) faqIds).
        { apply (Permutation_in _ (Permutation_sym HF')). apply in_map, Hin. }
        destruct (@Forall2_In_l _ _ _ _ _ _ HT Hid) as (r' & Hr' & Hfind).
        assert (Hin' : In r (faqs c')) by (apply filter_In in Hin; apply Hin).
        rewrite (@find_by_id_unique _ _ Hunique' Hin') in Hfind. injection Hfind as <-.
        exact Hr'. }
  assert (Hlist : order_asc faq_order (scan F') = T).
  { assert (HTs : Permutation T (scan F')) by (rewrite <- (arrange_perm scan); exact HTF).
    rewrite <- (@order_asc_permutation _ faq_order _ _ HTs (@strictly_sorted_NoDup _ _ _ Hsorted)).
    apply order_asc_sorted, Hsorted. }
  exists T, c'. split; [|split; [exact HTids|exact HTorder]].
  unfold reorderFAQs, svc_bind. rewrite lift_getMemberRole, Hrole, Hrun.
  unfold studioFAQ_findMany. fold F'. rewrite Hlist. reflexivity.
Qed.

(* ================================================================== *)
(** * services/waitlistService.ts: the questions *)

Lemma filter_none (A : Type) (p : A -> bool) (l : list A) :
  (forall x, In x l -> p x = false) -> filter p l = [].
Proof.
  induction l as [|x l IH]; simpl; intros H; [reflexivity|].
  rewrite (H x (or_introl eq_refl)). apply IH. intros y Hy. apply H. right. exact Hy.
Qed.

Lemma filter_all (A : Type) (p : A -> bool) (l : list A) :
  (forall x, In x l -> p x = true) -> filter p l = l.
Proof.
  induction l as [|x l IH]; simpl; intros H; [reflexivity|].
  rewrite (H x (or_introl eq_refl)). f_equal. apply IH. intros y Hy. apply H. right. exact Hy.
Qed.

Lemma filter_filter (A : Type) (p q : A -> bool) (l : list A) :
  (forall x, p x = true -> q x = true) -> filter p (filter q l) = filter p l.
Proof.
  intros H. induction l as [|x l IH]; simpl; [reflexivity|].
  destruct (q x) eqn:Eq; simpl.
  - destruct (p x); [f_equal|]; exact IH.
  - destruct (p x) eqn:Ep; [|exact IH]. rewrite (H x Ep) in Eq. discriminate.
Qed.

(** The loop of setQuestions on entries whose orders are 32-bit numbers:
    one new question per entry, appended in the order of the entries. *)
Lemma create_from_creates (studioId : string) (questions : list (string * option Z)) :
  forall (i : nat) (created : list StudioWaitlistQuestion) (c : Site),
  (forall k text order, nth_error questions k = Some (text, order) ->
                        int32 (order_or (i + k) order) = true) ->
  exists rows c',
    create_from studioId i questions created c = (Resolved (created ++ rows)%list, c')
    /\ waitlistQuestions c' = (waitlistQuestions c ++ rows)%list
    /\ faqs c' = faqs c
    /\ members (core c') = members (core c)
    /\ List.length rows = List.length questions
    /\ (forall q, In q rows -> question_studioId q = studioId)
    /\ (forall k text order, nth_error questions k = Some (text, order) ->
          exists q,
            nth_error rows k = Some q
            /\ question_text q = text
            /\ question_order q = order_or (i + k) order).
Proof.
  induction questions as [|[text order] rest IH]; intros i created c Hrange.
  - exists [], c. simpl. unfold svc_ret. rewrite !app_nil_r.
    repeat split; try reflexivity; [intros q []|intros [|k] ? ? H; discriminate H].
  - simpl. unfold svc_bind, studioWaitlistQuestion_create. cbv zeta.
    pose proof (Hrange 0 text order eq_refl) as Hok. rewrite Nat.add_0_r in Hok.
    rewrite Hok.
    set (q := mkQuestion (cuid (nextId (core c))) studioId text (order_or i order)).
    set (c1 := mkSite (bump (core c)) (faqs c) (waitlistQuestions c ++ [q])%list).
    destruct (IH (S i) (created ++ [q])%list c1)
      as (rows & c' & Hrun & Hq & Hfaqs & Hmembers & Hlen & Hst & Hnth).
    { intros k t o H. replace (S i + k) with (i + S k) by lia. apply (Hrange (S k) t o H). }
    exists (q :: rows), c'. rewrite Hrun, <- app_assoc. simpl.
    split; [reflexivity|]. split; [rewrite Hq; unfold c1; simpl; rewrite <- app_assoc; reflexivity|].
    split; [exact Hfaqs|]. split; [exact Hmembers|]. split; [rewrite Hlen; reflexivity|].
    split; [intros x [<-|Hx]; [reflexivity|apply Hst, Hx]|].
    intros [|k] t o H; simpl in H.
    + injection H as <- <-. exists q. rewrite Nat.add_0_r. repeat split.
    + destruct (Hnth k t o H) as (x & Hx & Ht & Ho). exists x.
      replace (i + S k) with (S i + k) by lia. repeat split; assumption.
Qed.

(** The loop of setQuestions up to an entry whose order is no 32-bit
    number: the store refuses that entry, the questions of the entries
    before it stay created, and the entries after it are not looked at. *)
Lemma create_from_refused
    (studioId : string) (done : list (string * option Z)) (text : string)
    (order : option Z) (rest : list (string * option Z)) :
  forall (i : nat) (created : list StudioWaitlistQuestion) (c : Site),
  (forall k t o, nth_error done k = Some (t, o) -> int32 (order_or (i + k) o) = true) ->
  int32 (order_or (i + List.length done) order) = false ->
  exists rows c',
    create_from studioId i (done ++ (text, order) :: rest)%list created c
    = (Threw (PrismaClientKnownRequestError (P2020 "StudioWaitlistQuestion")), c')
    /\ waitlistQuestions c' = (waitlistQuestions c ++ rows)%list
    /\ (forall q, In q rows -> question_studioId q = studioId)
    /\ map question_text rows = map fst done.
Proof.
  induction done as [|[t o] done IH]; intros i created c Hrange Hout.
  - simpl in Hout. rewrite Nat.add_0_r in Hout.
    exists [], c. simpl. unfold svc_bind, studioWaitlistQuestion_create.
    rewrite Hout, app_nil_r. repeat split. intros q [].
  - simpl. unfold svc_bind, studioWaitlistQuestion_create. cbv zeta.
    pose proof (Hrange 0 t o eq_refl) as Hok. rewrite Nat.add_0_r in Hok.
    rewrite Hok.
    set (q := mkQuestion (cuid (nextId (core c))) studioId t (order_or i o)).
    set (c1 := mkSite (bump (core c)) (faqs c) (waitlistQuestions c ++ [q])%list).
    destruct (IH (S i) (created ++ [q])%list c1) as (rows & c' & Hrun & Hq & Hst & Htexts).
    { intros k t' o' H. replace (S i + k) with (i + S k) by lia. apply (Hrange (S k) t' o' H). }
    { simpl in Hout. replace (S i + List.length done) with (i + S (List.length done)) by lia.
      exact Hout. }
    exists (q :: rows), c'. rewrite Hrun.
    split; [reflexivity|]. split; [rewrite Hq; unfold c1; simpl; rewrite <- app_assoc; reflexivity|].
    split; [intros x [<-|Hx]; [reflexivity|apply Hst, Hx]|].
    simpl. rewrite Htexts. reflexivity.
Qed.

(** The questions of a studio once its former ones are deleted and the
    rows [rows], all of the studio, are appended. *)
Lemma questions_replaced
    (studioId : string) (l rows : list StudioWaitlistQuestion) :
  (forall q, In q rows -> question_studioId q = studioId) ->
  filter (question_of studioId)
    (filter (fun q => negb (question_of studioId q)) l ++ rows)%list = rows
  /\ forall other, other <> studioId ->
       filter (question_of other)
         (filter (fun q => negb (question_of studioId q)) l ++ rows)%list
       = filter (question_of other) l.
Proof.
  intros Hst. split.
  - rewrite filter_app, filter_none, filter_all; [reflexivity| |].
    + intros q Hin. unfold question_of. apply String.eqb_eq, Hst, Hin.
    + intros q Hin. apply filter_In in Hin. destruct Hin as (_ & Hin).
      destruct (question_of studioId q); [discriminate|reflexivity].
  - intros other Hne. rewrite filter_app.
    rewrite (@filter_none _ (question_of other) rows), app_nil_r.
    + apply filter_filter. intros q Hq'. unfold question_of in *.
      apply String.eqb_eq in Hq'. rewrite Hq'.
      destruct (String.eqb_spec other studioId); [contradiction|reflexivity].
    + intros q Hin. unfold question_of. rewrite (Hst q Hin).
      apply String.eqb_neq. congruence.
Qed.

(** X25: setQuestions is refused with Forbidden for a caller who is not
    staff of the studio, and nothing is written.  For staff, when the
    order of every entry (the one it gives, or else its position) is a
    32-bit number, the studio's questions afterwards are exactly the ones
    created from the entries, in the order of the entries: every earlier
    question of the studio is gone, each new one has the order of its
    entry, and the questions of other studios and the memberships are
    untouched; getQuestions then lists the new questions in ascending
    order, however the store orders questions of equal order.  When the
    order of an entry is no 32-bit number, the store refuses that entry
    and the call fails with a 500; the earlier questions of the studio
    are gone all the same and nothing brings them back: the studio is
    left with the questions of the entries before the refused one. *)
Theorem setQuestions_replaces
    (c : Site) (studioId userId : string) (questions : list (string * option Z)) :
  (not_staff (role_of (core c) studioId userId) = true ->
   setQuestions studioId userId questions c
   = (Threw (ServiceErr (forbidden "Only owners and moderators can manage waitlist questions")),
      c))
  /\ (not_staff (role_of (core c) studioId userId) = false ->
      (forall k text order, nth_error questions k = Some (text, order) ->
                            int32 (order_or k order) = true) ->
      exists created c',
        setQuestions studioId userId questions c = (Resolved created, c')
        /\ filter (question_of studioId) (waitlistQuestions c') = created
        /\ (forall scan : Scan StudioWaitlistQuestion,
              exists listed,
                getQuestions scan studioId c' = (Resolved listed, c')
                /\ Permutation created listed
                /\ StronglySorted (fun a b => (question_order a <= question_order b)%Z)
                     listed)
        /\ List.length created = List.length questions
        /\ (forall k text order, nth_error questions k = Some (text, order) ->
              exists q,
                nth_error created k = Some q
                /\ question_text q = text
                /\ question_order q = order_or k order)
        /\ (forall other, other <> studioId ->
              filter (question_of other) (waitlistQuestions c')
              = filter (question_of other) (waitlistQuestions c))
        /\ members (core c') = members (core c))
  /\ (not_staff (role_of (core c) studioId userId) = false ->
      forall done text order rest,
        questions = (done ++ (text, order) :: rest)%list ->
        (forall k t o, nth_error done k = Some (t, o) -> int32 (order_or k o) = true) ->
        int32 (order_or (List.length done) order) = false ->
        exists e c',
          setQuestions studioId userId questions c = (Threw e, c')
          /\ e = PrismaClientKnownRequestError (P2020 "StudioWaitlistQuestion")
          /\ reply_status (sendError e) = 500
          /\ map question_text (filter (question_of studioId) (waitlistQuestions c'))
             = map fst done
          /\ (forall other, other <> studioId ->
                filter (question_of other) (waitlistQuestions c')
                = filter (question_of other) (waitlistQuestions c))).
Proof.
  unfold setQuestions, svc_bind. rewrite lift_getMemberRole.
  split; [|split]; intros Hrole; rewrite Hrole; [reflexivity| |];
    unfold studioWaitlistQuestion_deleteMany;
    set (c1 := with_waitlistQuestions
                 (filter (fun q => negb (question_of studioId q)) (waitlistQuestions c)) c).
  - intros Hrange.
    destruct (@create_from_creates studioId questions 0 [] c1 Hrange)
      as (rows & c' & Hrun & Hq & _ & Hmembers & Hlen & Hst & Hnth).
    destruct (@questions_replaced studioId (waitlistQuestions c) rows Hst) as (Hmine & Hothers).
    assert (Hq' : waitlistQuestions c'
                  = (filter (fun q => negb (question_of studioId q)) (waitlistQuestions c)
                     ++ rows)%list) by exact Hq.
    exists rows, c'. split; [exact Hrun|]. split; [rewrite Hq'; exact Hmine|].
    split.
    { intros scan. unfold getQuestions, studioWaitlistQuestion_findMany.
      rewrite Hq', Hmine. eexists. split; [reflexivity|].
      split; [|apply order_asc_ascending].
      rewrite <- order_asc_perm. apply arrange_perm. }
    split; [exact Hlen|]. split; [exact Hnth|]. split; [|exact Hmembers].
    intros other Hne. rewrite Hq'. apply Hothers, Hne.
  - intros done text order rest -> Hrange Hout.
    destruct (@create_from_refused studioId done text order rest 0 [] c1 Hrange Hout)
      as (rows & c' & Hrun & Hq & Hst & Htexts).
    destruct (@questions_replaced studioId (waitlistQuestions c) rows Hst) as (Hmine & Hothers).
    assert (Hq' : waitlistQuestions c'
                  = (filter (fun q => negb (question_of studioId q)) (waitlistQuestions c)
                     ++ rows)%list) by exact Hq.
    eexists _, c'. split; [exact Hrun|]. split; [reflexivity|]. split; [reflexivity|].
    split; [rewrite Hq', Hmine; exact Htexts|].
    intros other Hne. rewrite Hq'. apply Hothers, Hne.
Qed.

(* ================================================================== *)
(** * Paginated lists *)

Lemma pages_cover (A : Type) (limit : nat) :
  0 < limit ->
  forall (n : nat) (l : list A),
    List.length l <= n * limit ->
    List.concat (map (fun p => firstn limit (skipn (p * limit) l)) (seq 0 n)) = l.
Proof.
  intros Hpos. induction n as [|n IH]; intros l Hlen.
  - destruct l; [reflexivity|simpl in Hlen; lia].
  - change (seq 0 (S n)) with (0 :: seq 1 n). rewrite <- seq_shift.
    cbn [map List.concat]. rewrite map_map. change (0 * limit) with 0. cbn [skipn].
    transitivity (firstn limit l ++ skipn limit l)%list; [|apply firstn_skipn].
    f_equal. rewrite <- (IH (skipn limit l)) at 1.
    + f_equal. apply map_ext. intros p. rewrite skipn_skipn. f_equal. f_equal. lia.
    + rewrite length_skipn. simpl in Hlen. lia.
Qed.

Lemma ceil_div_bounds (total limit : Z) :
  (0 <= total)%Z -> (1 <= limit)%Z ->
  exists n : nat,
    ceil_div total limit = Some (Z.of_nat n)
    /\ ((Z.of_nat n - 1) * limit < total <= Z.of_nat n * limit)%Z.
Proof.
  intros Htotal Hlimit. unfold ceil_div.
  destruct (Z.eqb_spec limit 0) as [E|_]; [lia|].
  pose proof (Z.div_mod (- total) limit ltac:(lia)) as Hdiv.
  pose proof (Z.mod_pos_bound (- total) limit ltac:(lia)) as Hmod.
  set (q := (- total / limit)%Z) in *.
  assert (Hq : (q <= 0)%Z) by nia.
  exists (Z.to_nat (- q)). rewrite Z2Nat.id by lia. split; [reflexivity|nia].
Qed.

(** The pages of a list: from 1 to the number of pages they hold every
    row once, in order; no page is longer than the limit, and the pages
    after the last are empty. *)
Lemma skip_take_pages (A : Type) (all : list A) (limit : Z) :
  (1 <= limit)%Z ->
  exists n : nat,
    ceil_div (Z.of_nat (List.length all)) limit = Some (Z.of_nat n)
    /\ ((Z.of_nat n - 1) * limit < Z.of_nat (List.length all) <= Z.of_nat n * limit)%Z
    /\ List.concat (map (fun p => skip_take ((Z.of_nat p - 1) * limit) limit all) (seq 1 n)) = all
    /\ (forall p, (Z.of_nat (List.length (skip_take ((p - 1) * limit) limit all)) <= limit)%Z)
    /\ (forall p, (Z.of_nat n < p)%Z -> skip_take ((p - 1) * limit) limit all = []).
Proof.
  intros Hlimit.
  destruct (@ceil_div_bounds (Z.of_nat (List.length all)) limit) as (n & Hn & Hbounds);
    [lia|exact Hlimit|].
  exists n. split; [exact Hn|]. split; [exact Hbounds|]. split; [|split].
  - rewrite <- seq_shift, map_map.
    transitivity
      (List.concat
         (map (fun p => firstn (Z.to_nat limit) (skipn (p * Z.to_nat limit) all))
              (seq 0 n))).
    + f_equal. apply map_ext. intros p. unfold skip_take. f_equal. f_equal. nia.
    + apply pages_cover; [lia|nia].
  - intros p. unfold skip_take. rewrite length_firstn. lia.
  - intros p Hp. unfold skip_take. rewrite skipn_all2; [apply firstn_nil|]. nia.
Qed.

(** X26: getMembers with a limit of at least 1 reports the number of
    memberships of the studio as the total and the least number of pages
    that holds them; pages 1 to that number, one after the other, are
    exactly the studio's memberships, each once; no page is longer than
    the limit and later pages are empty.  Left out, the page is 1 and
    the limit 20.  The call changes nothing. *)
Theorem getMembers_pages (c : Site) (studioId : string) (limit : Z) :
  (1 <= limit)%Z ->
  let all := filter (member_of studioId) (members (core c)) in
  let total := Z.of_nat (List.length all) in
  exists n : nat,
    ((Z.of_nat n - 1) * limit < total <= Z.of_nat n * limit)%Z
    /\ (forall page, (1 <= page)%Z ->
          exists rows,
            getMembers studioId (Some page) (Some limit) c
            = (Resolved (mkPaged rows total page limit (Some (Z.of_nat n))), c)
            /\ (Z.of_nat (List.length rows) <= limit)%Z
            /\ ((Z.of_nat n < page)%Z -> rows = []))
    /\ List.concat (map (fun p => page_rows
                               (getMembers studioId (Some (Z.of_nat p)) (Some limit) c))
                   (seq 1 n)) = all
    /\ getMembers studioId None None c = getMembers studioId (Some 1%Z) (Some 20%Z) c.
Proof.
  intros Hlimit all total.
  destruct (skip_take_pages all Hlimit) as (n & Hn & Hbounds & Hcover & Hlen & Hlate).
  exists n. split; [exact Hbounds|]. split; [|split; [exact Hcover|reflexivity]].
  intros page _. exists (skip_take ((page - 1) * limit) limit all).
  split; [|split; [apply Hlen|apply Hlate]].
  unfold getMembers. fold all. fold total. unfold total. rewrite Hn. reflexivity.
Qed.

(** X27: getResponses pages the studio's waitlist responses in the same
    way, over the responses with the status asked for when one is
    given and over all of them otherwise. *)
Theorem getResponses_pages
    (c : Site) (studioId : string) (status : option RequestStatus.t) (limit : Z) :
  (1 <= limit)%Z ->
  let all := filter (fun r =>
                       (response_studioId r =? studioId)
                       && match status with
                          | Some st => RequestStatus.eqb (response_status r) st
                          | None => true
                          end) (waitlistResponses (core c)) in
  let total := Z.of_nat (List.length all) in
  exists n : nat,
    ((Z.of_nat n - 1) * limit < total <= Z.of_nat n * limit)%Z
    /\ (forall page, (1 <= page)%Z ->
          exists rows,
            getResponses studioId status (Some page) (Some limit) c
            = (Resolved (mkPaged rows total page limit (Some (Z.of_nat n))), c)
            /\ (Z.of_nat (List.length rows) <= limit)%Z
            /\ ((Z.of_nat n < page)%Z -> rows = []))
    /\ List.concat (map (fun p => page_rows
                               (getResponses studioId status (Some (Z.of_nat p))
                                             (Some limit) c))
                   (seq 1 n)) = all.
Proof.
  intros Hlimit all total.
  destruct (skip_take_pages all Hlimit) as (n & Hn & Hbounds & Hcover & Hlen & Hlate).
  exists n. split; [exact Hbounds|]. split; [|exact Hcover].
  intros page _. exists (skip_take ((page - 1) * limit) limit all).
  split; [|split; [apply Hlen|apply Hlate]].
  unfold getResponses. cbv zeta. rewrite <- Hn. reflexivity.
Qed.

(* ================================================================== *)
(** * services/studioService.ts: lookups with the member count *)

Lemma createStudio_run
    (s : Store) (ownerId name slug : string) (joinType : option StudioJoinType) :
  ids_issued s ->
  find (studio_has_slug slug) (studios s) = None ->
  let studio := mkStudio (cuid (nextId s)) name slug
                  (match joinType with Some j => j | None => WAITLIST end) in
  run (createStudio ownerId name slug joinType) s
  = (Resolved studio,
     with_members (members s ++ [mkMember (cuid (nextId s)) ownerId OWNER])
                  (bump (with_studios (studios s ++ [studio]) s))).
Proof.
  intros (_ & Hm & _) H. cbv zeta.
  assert (Hnone : find (member_is (cuid (nextId s)) ownerId) (members s) = None).
  { destruct (find (member_is (cuid (nextId s)) ownerId) (members s)) as [m|] eqn:E;
      [|reflexivity].
    apply find_some in E. destruct E as [Hin Hkey]. apply member_is_eq in Hkey.
    exfalso. apply (issued_not_next (Hm _ Hin)). tauto. }
  unfold createStudio. simpl. rewrite H. simpl.
  rewrite existsb_find, H. simpl. rewrite existsb_find, Hnone. reflexivity.
Qed.

(** X28: after any sequence of requests served one after the other, a
    studio created under a free slug is found by getStudio under that
    slug and by getStudioById under its id, each time with a member
    count of 1, the creator's OWNER membership; a slug no studio has is
    NotFound. *)
Theorem getStudio_after_create
    (history : list Request) (c : Site) (ownerId name slug : string)
    (joinType : option StudioJoinType) :
  core c = after history ->
  find (studio_has_slug slug) (studios (core c)) = None ->
  getStudio slug c
  = (Threw (ServiceErr
       (notFound ("Studio with slug " ++ dquote ++ slug ++ dquote ++ " not found"))), c)
  /\ exists studio c',
       lift (createStudio ownerId name slug joinType) c = (Resolved studio, c')
       /\ getStudio slug c' = (Resolved (mkCounted studio 1), c')
       /\ getStudioById (studio_id studio) c' = (Resolved (mkCounted studio 1), c').
Proof.
  intros Hcore Hfree.
  assert (Hids : ids_issued (core c)) by (rewrite Hcore; apply history_ids_issued).
  split; [unfold getStudio; rewrite Hfree; reflexivity|].
  pose proof (@createStudio_run _ ownerId name slug joinType Hids Hfree) as Hrun.
  cbv zeta in Hrun. destruct Hids as (Hs & Hm & _).
  set (s := core c) in *.
  set (studio := mkStudio (cuid (nextId s)) name slug
                   (match joinType with Some j => j | None => WAITLIST end)) in *.
  assert (Hfresh : find (studio_has_id (cuid (nextId s))) (studios s) = None).
  { destruct (find (studio_has_id (cuid (nextId s))) (studios s)) as [x|] eqn:E;
      [|reflexivity].
    apply find_some in E. destruct E as [Hin Hkey]. apply String.eqb_eq in Hkey.
    exfalso. apply (issued_not_next (Hs _ Hin)). exact Hkey. }
  assert (Hcount : filter (member_of (cuid (nextId s)))
                     (members s ++ [mkMember (cuid (nextId s)) ownerId OWNER])
                   = [mkMember (cuid (nextId s)) ownerId OWNER]).
  { rewrite filter_app, filter_none.
    - simpl. unfold member_of. simpl. rewrite String.eqb_refl. reflexivity.
    - intros m Hin. unfold member_of. apply String.eqb_neq.
      apply (issued_not_next (Hm _ Hin)). }
  eexists studio, _. split; [unfold lift; fold s; rewrite Hrun; reflexivity|].
  unfold getStudio, getStudioById, with_count.
  cbn [core with_core studios members with_members bump with_studios studio_id studio].
  split.
  - rewrite (find_app_new _ _ _ Hfree) by (unfold studio_has_slug; apply String.eqb_refl).
    cbn [studio_id studio]. rewrite Hcount. reflexivity.
  - rewrite (find_app_new _ _ _ Hfresh) by (unfold studio_has_id; apply String.eqb_refl).
    cbn [studio_id studio]. rewrite Hcount. reflexivity.
Qed.

(* ================================================================== *)
(** * routes/faqs.ts, routes/waitlist.ts and middleware/auth.ts *)

Lemma requireAuth_absent (request : Headers) (c : Site) :
  header "x-user-id" request = None \/ header "x-user-id" request = Some "" ->
  requireAuth request c = (Threw (ServiceErr (unauthorized "Authentication required")), c).
Proof.
  unfold requireAuth, getAuthUser. intros [-> | ->]; reflexivity.
Qed.

Lemma requireAuth_present (request : Headers) (id : string) (c : Site) :
  header "x-user-id" request = Some id -> id <> "" ->
  exists user, requireAuth request c = (Resolved user, c) /\ user_id user = id.
Proof.
  unfold requireAuth, getAuthUser. intros -> Hne.
  destruct (String.eqb_spec id ""); [contradiction|].
  eexists. split; reflexivity.
Qed.

(** X29: the routes that write FAQs and questions reply 401 to a request
    with no user id, or an empty one, before anything else and write
    nothing.  With a user id, POST /:slug/faqs replies 404 for a slug no
    studio has, whoever asks, 403 when the user is not staff of the
    studio, and otherwise, the orders of the studio's FAQs being 32-bit
    numbers below the greatest, 201 with the FAQ added.  PUT and DELETE
    /:slug/faqs/:id never look the slug up: their reply is that of
    updateFAQ and deleteFAQ on the id alone.  The two GET routes ask for no
    user: for a slug no studio has they reply 404, and for a known slug
    200 with what getFAQs and getQuestions list for the studio, which is
    the studio's FAQs, or questions, each once. *)
Theorem faq_routes_reply
    (c : Site) (request : Headers) (slug question answer : string) :
  (header "x-user-id" request = None \/ header "x-user-id" request = Some "" ->
   let denied := mkReply 401 "UNAUTHORIZED" "Authentication required" in
   post_faq request slug question answer c = (Failed denied, c)
   /\ (forall id q a, put_faq request slug id q a c = (Failed denied, c))
   /\ (forall id, delete_faq request slug id c = (Failed denied, c))
   /\ (forall questions, put_questions request slug questions c = (Failed denied, c)))
  /\ (forall userId,
        header "x-user-id" request = Some userId -> userId <> "" ->
        (find (studio_has_slug slug) (studios (core c)) = None ->
         post_faq request slug question answer c
         = (Failed (mkReply 404 "NOT_FOUND"
                      ("Studio with slug " ++ dquote ++ slug ++ dquote ++ " not found")), c))
        /\ (forall studio,
              find (studio_has_slug slug) (studios (core c)) = Some studio ->
              (not_staff (role_of (core c) (studio_id studio) userId) = true ->
               post_faq request slug question answer c
               = (Failed (mkReply 403 "FORBIDDEN"
                            "Only owners and moderators can manage FAQs"), c))
              /\ (not_staff (role_of (core c) (studio_id studio) userId) = false ->
                  (forall f, In f (faqs c) -> faq_studioId f = studio_id studio ->
                             (-2147483648 <= faq_order f < 2147483647)%Z) ->
                  exists faq c',
                    post_faq request slug question answer c = (Sent 201 faq, c')
                    /\ faqs c' = (faqs c ++ [faq])%list
                    /\ faq_studioId faq = studio_id studio))
        /\ (forall id q a,
              put_faq request slug id q a c = respond 200 (updateFAQ id userId q a) c)
        /\ (forall id,
              delete_faq request slug id c = respond 204 (deleteFAQ id userId) c))
  /\ (forall (scan : Scan StudioFAQ) (scan' : Scan StudioWaitlistQuestion),
        (find (studio_has_slug slug) (studios (core c)) = None ->
         let missing := mkReply 404 "NOT_FOUND"
                          ("Studio with slug " ++ dquote ++ slug ++ dquote ++ " not found") in
         get_faqs scan slug c = (Failed missing, c)
         /\ get_questions scan' slug c = (Failed missing, c))
        /\ (forall studio,
              find (studio_has_slug slug) (studios (core c)) = Some studio ->
              (exists listed,
                 get_faqs scan slug c = (Sent 200 listed, c)
                 /\ getFAQs scan (studio_id studio) c = (Resolved listed, c)
                 /\ Permutation (filter (faq_of (studio_id studio)) (faqs c)) listed)
              /\ (exists listed,
                    get_questions scan' slug c = (Sent 200 listed, c)
                    /\ getQuestions scan' (studio_id studio) c = (Resolved listed, c)
                    /\ Permutation
                         (filter (question_of (studio_id studio)) (waitlistQuestions c))
                         listed))).
Proof.
  split; [|split].
  3: { intros scan scan'. split.
       - intros Hnone. cbv zeta.
         unfold get_faqs, get_questions, respond, svc_bind, getStudio.
         rewrite Hnone. split; reflexivity.
       - intros studio Hstudio.
         unfold get_faqs, get_questions, respond, svc_bind, getStudio.
         rewrite Hstudio. cbn [counted_studio with_count].
         split; eexists; (split; [reflexivity|]); (split; [reflexivity|]);
           rewrite <- order_asc_perm; apply arrange_perm. }
  - intros Habsent. cbv zeta.
    unfold post_faq, put_faq, delete_faq, put_questions, respond, svc_bind.
    rewrite (requireAuth_absent request c Habsent). repeat split.
  - intros userId Hid Hne.
    destruct (requireAuth_present request c Hid Hne) as (user & Hauth & <-).
    split; [|split; [|split]].
    + intros Hnone. unfold post_faq, respond, svc_bind, getStudio.
      rewrite Hauth, Hnone. reflexivity.
    + intros studio Hstudio. split.
      * intros Hrole. unfold post_faq, respond, addFAQ, svc_bind, getStudio.
        rewrite Hauth, Hstudio. cbn [counted_studio with_count].
        rewrite lift_getMemberRole, Hrole. reflexivity.
      * intros Hrole Hrange.
        destruct (@addFAQ_run c (studio_id studio) (user_id user) question answer
                    Hrole Hrange) as (faq & Hrun & Hfields & _).
        unfold post_faq, respond. unfold svc_bind at 1. rewrite Hauth.
        unfold svc_bind at 1. unfold getStudio. rewrite Hstudio.
        cbn [counted_studio with_count]. rewrite Hrun.
        eexists _, _. split; [reflexivity|]. split; [reflexivity|].
        injection Hfields as _ -> _ _. reflexivity.
    + intros id q a. unfold put_faq, respond. unfold svc_bind at 1.
      rewrite Hauth. reflexivity.
    + intros id. unfold delete_faq, respond. unfold svc_bind at 1.
      rewrite Hauth. reflexivity.
Qed.

(* ================================================================== *)
(** * services/inviteService.ts: the listings *)

(** What answering one's PENDING invite leaves in the invite table: the
    row under that id, ACCEPTED or REJECTED. *)
Lemma respondToInvite_invites
    (s : Store) (inviteId userId : string) (accept : bool) (invite : StudioInvite) :
  find_invite s inviteId = Some invite ->
  invite_userId invite = userId ->
  invite_status invite = InviteStatus.PENDING ->
  exists st,
    st <> InviteStatus.PENDING
    /\ invites (snd (run (respondToInvite inviteId userId accept) s))
       = updated_rows (invite_has_id inviteId) (set_invite st None) (invites s)
    /\ studios (snd (run (respondToInvite inviteId userId accept) s)) = studios s.
Proof.
  intros Hi Hu Hst. unfold find_invite in Hi.
  unfold respondToInvite. simpl. rewrite Hi. simpl.
  rewrite Hu, String.eqb_refl, Hst. simpl. destruct accept; simpl.
  - destruct (find (member_is (invite_studioId invite) userId) (members s)) as [m|] eqn:Hm;
      simpl.
    + rewrite (update_first_found _ (set_invite InviteStatus.ACCEPTED None) _ Hi). simpl.
      exists InviteStatus.ACCEPTED. split; [discriminate|]. split; reflexivity.
    + rewrite (update_first_found _ (set_invite InviteStatus.ACCEPTED None) _ Hi). simpl.
      rewrite existsb_find, Hm. simpl.
      exists InviteStatus.ACCEPTED. split; [discriminate|]. split; reflexivity.
  - rewrite (update_first_found _ (set_invite InviteStatus.REJECTED None) _ Hi). simpl.
    exists InviteStatus.REJECTED. split; [discriminate|]. split; reflexivity.
Qed.

(** X30: getInvites lists a user's PENDING invites, newest first, each
    with its studio.  An invite shows there until its user answers it:
    once respondToInvite has run, accepting or declining, whether or not
    the call ended in an error, the user's list holds no invite of that
    studio any more, while the studio's own list, getStudioInvites, still
    holds the answered invite. *)
Theorem answered_invite_leaves_list
    (c : Site) (inviteId userId : string) (accept : bool) (invite : StudioInvite) :
  (forall a b, invitations (core c) a b <= 1) ->
  find_invite (core c) inviteId = Some invite ->
  invite_userId invite = userId ->
  invite_status invite = InviteStatus.PENDING ->
  let c' := snd (lift (respondToInvite inviteId userId accept) c) in
  (exists listed,
     getInvites userId c = (Resolved listed, c)
     /\ In (invite, option_map summary (find_studio (core c) (invite_studioId invite)))
           listed)
  /\ (exists listed,
        getInvites userId c' = (Resolved listed, c')
        /\ forall entry, In entry listed ->
                         invite_studioId (fst entry) <> invite_studioId invite)
  /\ (exists listed answered,
        getStudioInvites (invite_studioId invite) c' = (Resolved listed, c')
        /\ In answered listed
        /\ invite_id answered = invite_id invite
        /\ invite_status answered <> InviteStatus.PENDING).
Proof.
  intros Huniq Hi Hu Hst.
  destruct (@respondToInvite_invites (core c) inviteId userId accept invite Hi Hu Hst)
    as (st & Hanswered & Hinvites & _).
  cbv zeta. unfold lift.
  destruct (run (respondToInvite inviteId userId accept) (core c)) as [o s'] eqn:Hrun.
  simpl in Hinvites. cbn [snd].
  assert (Hin : In invite (invites (core c))) by (apply find_some in Hi; tauto).
  assert (Hrow : In (set_invite st None invite) (invites s')).
  { rewrite Hinvites.
    assert (H : find (invite_has_id inviteId)
                  (updated_rows (invite_has_id inviteId) (set_invite st None)
                     (invites (core c)))
                = Some (set_invite st None invite))
      by (apply find_updated_rows; [apply invite_has_id_set|exact Hi]).
    apply find_some in H. tauto. }
  split; [|split].
  - eexists. split; [reflexivity|].
    apply (in_map (fun i => (i, option_map summary
                                  (find_studio (core c) (invite_studioId i))))).
    rewrite <- in_rev. apply filter_In. split; [exact Hin|].
    unfold pending_for. rewrite Hu, String.eqb_refl, Hst. reflexivity.
  - eexists. split; [reflexivity|]. cbn [core with_core].
    intros entry Hentry Hsame. apply in_map_iff in Hentry.
    destruct Hentry as (i & <- & Hi'). rewrite <- in_rev in Hi'.
    apply filter_In in Hi'. destruct Hi' as (Hi' & Hpending).
    unfold pending_for in Hpending. apply andb_true_iff in Hpending.
    destruct Hpending as (Huser & Hstatus). apply String.eqb_eq in Huser.
    cbn [fst] in Hsame.
    assert (E : i = set_invite st None invite).
    { apply (@filter_at_most_one _ (invite_is (invite_studioId invite) userId)
               (invites s')).
      - rewrite Hinvites, updated_rows_filter by reflexivity. apply Huniq.
      - exact Hi'.
      - exact Hrow.
      - apply invite_is_eq. split; assumption.
      - apply invite_is_eq. split; [reflexivity|exact Hu]. }
    subst i. cbn [invite_status set_invite] in Hstatus.
    destruct st; [contradiction|discriminate|discriminate].
  - exists (rev (filter (invite_of (invite_studioId invite)) (invites s'))),
           (set_invite st None invite).
    split; [reflexivity|]. split; [|split; [reflexivity|exact Hanswered]].
    rewrite <- in_rev. apply filter_In. split; [exact Hrow|].
    unfold invite_of. apply String.eqb_refl.
Qed.

(* ================================================================== *)
(** * Concrete cases for the content services *)

Lemma case_orders_small (studioId : string) (f : StudioFAQ) :
  In f (faqs SiteCase.faqs_added) -> faq_studioId f = studioId ->
  (-2147483648 <= faq_order f < 2147483647)%Z.
Proof.
  intros Hin _. vm_compute in Hin.
  destruct Hin as [<-|[<-|[<-|[]]]]; simpl; lia.
Qed.

(** bob, who owns another studio, cannot add to alice's; alice's third
    FAQ gets the order 2 and is listed last, also by a store that scans
    the table backwards. *)
Lemma addFAQ_adds_last_witness :
  addFAQ "c0" "bob" "Q" "A" SiteCase.faqs_added
  = (Threw (ServiceErr (forbidden "Only owners and moderators can manage FAQs")),
     SiteCase.faqs_added)
  /\ exists faq c',
       addFAQ "c0" "alice" "Q" "A" SiteCase.faqs_added = (Resolved faq, c')
       /\ faq = mkFAQ "c5" "c0" "Q" "A" 2
       /\ List.length (faqs c') = 4
       /\ exists before,
            getFAQs (backwards StudioFAQ) "c0" c' = (Resolved (before ++ [faq])%list, c').
Proof.
  destruct (addFAQ_adds_last SiteCase.faqs_added "c0" "bob" "Q" "A") as (Hdenied & _).
  destruct (addFAQ_adds_last SiteCase.faqs_added "c0" "alice" "Q" "A")
    as (_ & Hadded & _).
  split; [apply Hdenied; vm_compute; reflexivity|].
  destruct Hadded as (faq & c' & Hrun & Hfaqs & _ & _ & _ & _ & Hlist);
    [vm_compute; reflexivity|apply case_orders_small|].
  exists faq, c'. split; [exact Hrun|].
  assert (E : fst (addFAQ "c0" "alice" "Q" "A" SiteCase.faqs_added)
              = Resolved (mkFAQ "c5" "c0" "Q" "A" 2)) by (vm_compute; reflexivity).
  rewrite Hrun in E. simpl in E. injection E as E.
  split; [exact E|]. split; [rewrite Hfaqs, length_app; reflexivity|].
  destruct (Hlist (backwards StudioFAQ)) as (before & Hbefore & _).
  exists before. exact Hbefore.
Defined.

Lemma updateFAQ_updates_witness :
  updateFAQ "zz" "alice" (Some "Q") None SiteCase.faqs_added
  = (Threw (ServiceErr (notFound "FAQ not found")), SiteCase.faqs_added)
  /\ updateFAQ "c4" "alice" (Some "Q") None SiteCase.faqs_added
     = (Threw (ServiceErr (forbidden "Only owners and moderators can update FAQs")),
        SiteCase.faqs_added)
  /\ exists c',
       updateFAQ "c3" "alice" (Some "Q") None SiteCase.faqs_added
       = (Resolved (mkFAQ "c3" "c0" "Q" "A2" 1), c')
       /\ find (faq_has_id "c2") (faqs c') = Some (mkFAQ "c2" "c0" "Q1" "A1" 0).
Proof.
  destruct (updateFAQ_updates SiteCase.faqs_added "zz" "alice" (Some "Q") None)
    as (Habsent & _).
  destruct (updateFAQ_updates SiteCase.faqs_added "c4" "alice" (Some "Q") None)
    as (_ & Hother).
  destruct (updateFAQ_updates SiteCase.faqs_added "c3" "alice" (Some "Q") None)
    as (_ & Hmine).
  split; [apply Habsent; vm_compute; reflexivity|].
  destruct (Hother (mkFAQ "c4" "c1" "Q3" "A3" 0)) as (Hdenied & _);
    [vm_compute; reflexivity|].
  split; [apply Hdenied; vm_compute; reflexivity|].
  destruct (Hmine (mkFAQ "c3" "c0" "Q2" "A2" 1)) as (_ & Hdone);
    [vm_compute; reflexivity|].
  destruct Hdone as (c' & Hrun & _ & _ & Hrest & _); [vm_compute; reflexivity|].
  exists c'. split; [exact Hrun|]. rewrite Hrest; [vm_compute; reflexivity|discriminate].
Defined.

Lemma deleteFAQ_deletes_witness :
  deleteFAQ "c4" "alice" SiteCase.faqs_added
  = (Threw (ServiceErr (forbidden "Only owners and moderators can delete FAQs")),
     SiteCase.faqs_added)
  /\ exists c',
       deleteFAQ "c2" "alice" SiteCase.faqs_added = (Resolved tt, c')
       /\ List.length (faqs c') = 2
       /\ find (faq_has_id "c3") (faqs c') = Some (mkFAQ "c3" "c0" "Q2" "A2" 1).
Proof.
  destruct (deleteFAQ_deletes SiteCase.faqs_added "c4" "alice") as (_ & Hother).
  destruct (deleteFAQ_deletes SiteCase.faqs_added "c2" "alice") as (_ & Hmine).
  destruct (Hother (mkFAQ "c4" "c1" "Q3" "A3" 0)) as (Hdenied & _);
    [vm_compute; reflexivity|].
  split; [apply Hdenied; vm_compute; reflexivity|].
  destruct (Hmine (mkFAQ "c2" "c0" "Q1" "A1" 0)) as (_ & Hdone);
    [vm_compute; reflexivity|].
  destruct Hdone as (c' & Hrun & _ & Hperm & Hrest); [vm_compute; reflexivity|].
  exists c'. split; [exact Hrun|]. split.
  - apply Permutation_length in Hperm. simpl in Hperm.
    change (List.length (faqs SiteCase.faqs_added)) with 3 in Hperm. lia.
  - rewrite Hrest; [vm_compute; reflexivity|discriminate].
Defined.

Lemma case_ids_distinct : NoDup ["c3"; "c4"].
Proof.
  constructor; [intros [H|[]]; discriminate H|].
  constructor; [intros []|constructor].
Qed.

(** alice, staff of c0 only, reorders through c0 a list that names bob's
    FAQ c4: it is renumbered too. *)
Lemma reorderFAQs_assigns_witness :
  exists listed c',
    reorderFAQs (table_order StudioFAQ) "c0" "alice" ["c3"; "c4"] SiteCase.faqs_added
    = (Resolved listed, c')
    /\ find (faq_has_id "c3") (faqs c') = Some (mkFAQ "c3" "c0" "Q2" "A2" 0)
    /\ find (faq_has_id "c4") (faqs c') = Some (mkFAQ "c4" "c1" "Q3" "A3" 1)
    /\ find (faq_has_id "c2") (faqs c') = Some (mkFAQ "c2" "c0" "Q1" "A1" 0).
Proof.
  destruct (@reorderFAQs_assigns (table_order StudioFAQ) SiteCase.faqs_added
              "c0" "alice" ["c3"; "c4"])
    as (listed & c' & Hrun & _ & Hlisted & Hrest).
  - vm_compute. reflexivity.
  - exact case_ids_distinct.
  - intros id [<-|[<-|[]]]; vm_compute; discriminate.
  - exists listed, c'. split; [exact Hrun|].
    destruct (Hlisted 0 "c3" eq_refl) as (f3 & Hf3 & H3).
    destruct (Hlisted 1 "c4" eq_refl) as (f4 & Hf4 & H4).
    vm_compute in Hf3. injection Hf3 as <-. vm_compute in Hf4. injection Hf4 as <-.
    split; [exact H3|]. split; [exact H4|].
    rewrite Hrest; [vm_compute; reflexivity|].
    intros [H|[H|[]]]; discriminate H.
Defined.

Lemma reorderFAQs_partial_witness :
  exists e c',
    reorderFAQs (table_order StudioFAQ) "c0" "alice" ["c3"; "zz"; "c2"] SiteCase.faqs_added
    = (Threw e, c')
    /\ reply_status (sendError e) = 500
    /\ find (faq_has_id "c3") (faqs c') = Some (mkFAQ "c3" "c0" "Q2" "A2" 0).
Proof.
  destruct (@reorderFAQs_partial (table_order StudioFAQ) SiteCase.faqs_added
              "c0" "alice" ["c3"] "zz" ["c2"])
    as (e & c' & Hrun & _ & Hstatus & Hlisted & _).
  - vm_compute. reflexivity.
  - constructor; [intros []|constructor].
  - intros id [<-|[]]. vm_compute. discriminate.
  - vm_compute. reflexivity.
  - exists e, c'. split; [exact Hrun|]. split; [exact Hstatus|].
    destruct (Hlisted 0 "c3" eq_refl) as (f3 & Hf3 & H3).
    vm_compute in Hf3. injection Hf3 as <-. exact H3.
Defined.

Lemma reorderFAQs_lists_as_asked_witness :
  exists listed c',
    reorderFAQs (backwards StudioFAQ) "c0" "alice" ["c3"; "c2"] SiteCase.faqs_added
    = (Resolved listed, c')
    /\ map faq_id listed = ["c3"; "c2"].
Proof.
  destruct (@reorderFAQs_lists_as_asked (backwards StudioFAQ) SiteCase.faqs_added
              "c0" "alice" ["c3"; "c2"])
    as (listed & c' & Hrun & Hids & _).
  - vm_compute. reflexivity.
  - vm_compute. constructor; [intros [H|[H|[]]]; discriminate H|].
    constructor; [intros [H|[]]; discriminate H|].
    constructor; [intros []|constructor].
  - vm_compute. apply perm_swap.
  - exists listed, c'. split; [exact Hrun|exact Hids].
Defined.

(** bob cannot set the questions of alice's studio; alice's three entries
    make three questions; when her second entry has an order that is no
    32-bit number, the call fails with a 500 and the studio is left with
    the question of her first entry and not the one it had. *)
Lemma setQuestions_replaces_witness :
  let before := snd (setQuestions "c0" "alice" [("Old?", None)] SiteCase.faqs_added) in
  setQuestions "c0" "bob" [("Why?", None)] SiteCase.faqs_added
  = (Threw (ServiceErr
       (forbidden "Only owners and moderators can manage waitlist questions")),
     SiteCase.faqs_added)
  /\ (exists created c',
        setQuestions "c0" "alice" [("Why?", None); ("Who?", Some 5%Z); ("How?", None)]
                     SiteCase.faqs_added
        = (Resolved created, c')
        /\ map question_order created = [0; 5; 2]%Z
        /\ filter (question_of "c0") (waitlistQuestions c') = created)
  /\ map question_text (filter (question_of "c0") (waitlistQuestions before)) = ["Old?"]
  /\ (exists e c',
        setQuestions "c0" "alice" [("Why?", None); ("Who?", Some 2147483648%Z)] before
        = (Threw e, c')
        /\ reply_status (sendError e) = 500
        /\ map question_text (filter (question_of "c0") (waitlistQuestions c')) = ["Why?"]).
Proof.
  intros before.
  destruct (setQuestions_replaces SiteCase.faqs_added "c0" "bob" [("Why?", None)])
    as (Hdenied & _).
  destruct (setQuestions_replaces SiteCase.faqs_added "c0" "alice"
              [("Why?", None); ("Who?", Some 5%Z); ("How?", None)]) as (_ & Hset & _).
  destruct (setQuestions_replaces before "c0" "alice"
              [("Why?", None); ("Who?", Some 2147483648%Z)]) as (_ & _ & Hfail).
  split; [apply Hdenied; vm_compute; reflexivity|]. split.
  - destruct Hset as (created & c' & Hrun & Hmine & _); [vm_compute; reflexivity| |].
    { intros k t o H.
      do 3 (destruct k as [|k];
            [simpl in H; injection H as <- <-; reflexivity|]).
      destruct k; discriminate H. }
    exists created, c'. split; [exact Hrun|]. split; [|exact Hmine].
    assert (E : match fst (setQuestions "c0" "alice"
                             [("Why?", None); ("Who?", Some 5%Z); ("How?", None)]
                             SiteCase.faqs_added) with
                | Resolved l => map question_order l
                | Threw _ => []
                end = [0; 5; 2]%Z) by (vm_compute; reflexivity).
    rewrite Hrun in E. exact E.
  - split; [vm_compute; reflexivity|].
    destruct (Hfail ltac:(vm_compute; reflexivity)
                [("Why?", None)] "Who?" (Some 2147483648%Z) [] eq_refl)
      as (e & c' & Hrun & _ & Hstatus & Htexts & _).
    { intros k t o H. destruct k as [|k]; [|destruct k; discriminate H].
      simpl in H. injection H as <- <-. reflexivity. }
    { reflexivity. }
    exists e, c'. split; [exact Hrun|]. split; [exact Hstatus|exact Htexts].
Defined.

(** The four members of the staffed studio, three to a page, make two
    pages. *)
Lemma getMembers_pages_witness :
  exists n : nat,
    n = 2
    /\ List.concat (map (fun p => page_rows
                                   (getMembers "c0" (Some (Z.of_nat p)) (Some 3%Z)
                                               SiteCase.staffed))
                        (seq 1 n))
       = filter (member_of "c0") (members (core SiteCase.staffed)).
Proof.
  destruct (@getMembers_pages SiteCase.staffed "c0" 3%Z ltac:(lia))
    as (n & Hbounds & _ & Hcover & _).
  exists n. split; [|exact Hcover].
  change (Z.of_nat (List.length (filter (member_of "c0") (members (core SiteCase.staffed)))))
    with 4%Z in Hbounds.
  lia.
Defined.

Lemma getResponses_pages_witness :
  exists n : nat,
    n = 1
    /\ forall rows,
         fst (getResponses "c0" (Some RequestStatus.PENDING) (Some 1%Z) (Some 10%Z)
                           SiteCase.applied)
         = Resolved (mkPaged rows 1%Z 1%Z 10%Z (Some (Z.of_nat n))) ->
         List.length rows = 1.
Proof.
  destruct (@getResponses_pages SiteCase.applied "c0" (Some RequestStatus.PENDING) 10%Z
              ltac:(lia))
    as (n & Hbounds & Hpage & Hcover).
  exists n.
  assert (Hn : n = 1).
  { change (Z.of_nat (List.length _)) with 1%Z in Hbounds. lia. }
  split; [exact Hn|]. subst n.
  intros rows Hrows. apply (f_equal (fun o => match o with
                                              | Resolved p => List.length (paged_rows p)
                                              | Threw _ => 0
                                              end)) in Hrows.
  simpl in Hrows. rewrite <- Hrows. vm_compute. reflexivity.
Defined.

Lemma getStudio_after_create_witness :
  exists studio c',
    lift (createStudio "erin" "Other" "other" (Some OPEN)) SiteCase.staffed
    = (Resolved studio, c')
    /\ getStudio "other" c' = (Resolved (mkCounted studio 1), c')
    /\ studio = mkStudio "c4" "Other" "other" OPEN.
Proof.
  destruct (@getStudio_after_create History.staffed SiteCase.staffed
              "erin" "Other" "other" (Some OPEN))
    as (_ & studio & c' & Hrun & Hslug & _).
  - reflexivity.
  - vm_compute. reflexivity.
  - exists studio, c'. split; [exact Hrun|]. split; [exact Hslug|].
    assert (E : fst (lift (createStudio "erin" "Other" "other" (Some OPEN))
                          SiteCase.staffed)
                = Resolved (mkStudio "c4" "Other" "other" OPEN))
      by (vm_compute; reflexivity).
    rewrite Hrun in E. simpl in E. injection E as ->. reflexivity.
Defined.

Lemma faq_routes_reply_witness :
  post_faq [] "studio" "Q" "A" SiteCase.faqs_added
  = (Failed (mkReply 401 "UNAUTHORIZED" "Authentication required"), SiteCase.faqs_added)
  /\ post_faq (SiteCase.as_user "bob") "studio" "Q" "A" SiteCase.faqs_added
     = (Failed (mkReply 403 "FORBIDDEN" "Only owners and moderators can manage FAQs"),
        SiteCase.faqs_added)
  /\ fst (put_faq (SiteCase.as_user "alice") "other" "c3" (Some "Q") None
                  SiteCase.faqs_added)
     = Sent 200 (mkFAQ "c3" "c0" "Q" "A2" 1).
Proof.
  destruct (faq_routes_reply SiteCase.faqs_added [] "studio" "Q" "A") as (Hanon & _).
  destruct (faq_routes_reply SiteCase.faqs_added (SiteCase.as_user "bob") "studio" "Q" "A")
    as (_ & Hbob & _).
  destruct (faq_routes_reply SiteCase.faqs_added (SiteCase.as_user "alice") "other" "Q" "A")
    as (_ & Halice & _).
  split; [apply Hanon; left; reflexivity|].
  destruct (Hbob "bob" eq_refl ltac:(discriminate)) as (_ & Hpost & _).
  destruct (Hpost (mkStudio "c0" "Studio" "studio" WAITLIST)) as (Hdenied & _);
    [vm_compute; reflexivity|].
  split; [apply Hdenied; vm_compute; reflexivity|].
  destruct (Halice "alice" eq_refl ltac:(discriminate)) as (_ & _ & Hput & _).
  rewrite Hput. vm_compute. reflexivity.
Defined.

(** bob declines his invite: his list is empty afterwards, the studio's
    list still shows the invite, REJECTED. *)
Lemma answered_invite_leaves_list_witness :
  let c := mkSite (after History.invited) [] [] in
  let c' := snd (lift (respondToInvite "c1" "bob" false) c) in
  fst (getInvites "bob" c') = Resolved []
  /\ exists listed, getInvites "bob" c' = (Resolved listed, c')
                    /\ forall entry, In entry listed ->
                                     invite_studioId (fst entry) <> "c0".
Proof.
  intros c c'.
  destruct (history_keys_unique History.invited) as (Hunique & _).
  destruct (@answered_invite_leaves_list c "c1" "bob" false
              (mkInvite "c1" "c0" "bob" InviteStatus.PENDING MEMBER) Hunique)
    as (_ & Hgone & _); try (vm_compute; reflexivity).
  split; [vm_compute; reflexivity|exact Hgone].
Defined.
